(** * NNTV: the browser client of the neural-network training visualizer

    A shallow embedding of the client's logic (socket helpers, the [App]
    container, [ControlPanel], [HeatmapViewer], [UploadZone],
    [MetricsPanel], [ArchitectureCanvas]) and, for the properties that
    speak about the training session itself, of the session state machine
    and training loop worker as the specification describes them.

    JavaScript values are embedded as follows.
    - numbers are rationals, the two infinities and NaN, and arithmetic
      rounds its exact result as the number format of the host says
      (there is one zero);
    - objects used as dictionaries are [gmap string _]; a read of the
      layer table, an object literal, also finds the members every
      object inherits;
    - arrays are lists; JSON weight payloads are nested numeric lists;
    - a template literal is kept as the list of its parts, so the host's
      number formatting is never interpreted;
    - React state is a record, a state setter is a record update, and an
      [async] function is cut at its [await] into the part before and the
      part after the awaited result. *)

From Stdlib Require Import QArith Qabs Qround Lqa Sorted.
From stdpp Require Import gmap strings list.

Open Scope string_scope.
Open Scope list_scope.

Set Warnings "-register-all".

(** ** JavaScript values *)

Module JS.

Inductive number :=
| Num (q : Q)
| Inf (negative : bool)
| NaN.

Definition Qltb (a b : Q) : bool := negb (Qle_bool b a).

(** [Math.abs] *)
Definition abs (n : number) : number :=
  match n with
  | Num q => Num (Qabs q)
  | Inf _ => Inf false
  | NaN => NaN
  end.

(** [Math.max(a, b)] *)
Definition max (a b : number) : number :=
  match a, b with
  | NaN, _ | _, NaN => NaN
  | Inf false, _ | _, Inf false => Inf false
  | Inf true, y => y
  | x, Inf true => x
  | Num x, Num y => if Qle_bool x y then Num y else Num x
  end.

(** [a > b] *)
Definition gt (a b : number) : bool :=
  match a, b with
  | NaN, _ | _, NaN => false
  | Inf false, Inf false => false
  | Inf false, _ => true
  | _, Inf false => false
  | Inf true, _ => false
  | Num _, Inf true => true
  | Num x, Num y => Qltb y x
  end.

Definition neg (a : number) : number :=
  match a with
  | Num x => Num (- x)
  | Inf s => Inf (negb s)
  | NaN => NaN
  end.

(** The number format of the host.  An arithmetic operation on doubles
    gives the exact result rounded to a representable number, [round],
    or an infinity when the rounded result lies beyond [max_value]. *)
Class Doubles := {
  round : Q → Q;
  max_value : Q
}.

(** What the arithmetic below needs of the format: rounding is
    monotone, the integers up to 2^53 in absolute value are
    representable, and they lie within [max_value]. *)
Class DoublesLaws `{Doubles} : Prop := {
  round_mono : ∀ x y, (x <= y)%Q → (round x <= round y)%Q;
  round_integer : ∀ n : Z,
    (Z.abs n ≤ 2 ^ 53)%Z → (round (inject_Z n) == inject_Z n)%Q;
  max_value_integer : (inject_Z (2 ^ 53) <= max_value)%Q
}.

Section Arithmetic.
Context `{Doubles}.

(** The double an exact result [q] comes to. *)
Definition finite (q : Q) : number :=
  let r := round q in
  if Qle_bool (Qabs r) max_value then Num r else Inf (Qltb r 0).

Definition add (a b : number) : number :=
  match a, b with
  | NaN, _ | _, NaN => NaN
  | Inf s, Inf t => if Bool.eqb s t then Inf s else NaN
  | Inf s, Num _ | Num _, Inf s => Inf s
  | Num x, Num y => finite (x + y)
  end.

Definition sub (a b : number) : number := add a (neg b).

Definition mul (a b : number) : number :=
  match a, b with
  | NaN, _ | _, NaN => NaN
  | Num x, Num y => finite (x * y)
  | Inf s, y | y, Inf s =>
      match y with
      | Num q => if Qeq_bool q 0 then NaN else Inf (xorb s (Qltb q 0))
      | Inf t => Inf (xorb s t)
      | NaN => NaN
      end
  end.

Definition div (a b : number) : number :=
  match a, b with
  | NaN, _ | _, NaN => NaN
  | Inf _, Inf _ => NaN
  | Inf s, Num y => Inf (xorb s (Qltb y 0))
  | Num _, Inf _ => Num 0
  | Num x, Num y =>
      if Qeq_bool y 0
      then (if Qeq_bool x 0 then NaN else Inf (Qltb x 0))
      else finite (x / y)
  end.
End Arithmetic.

(** Exact arithmetic, as a format: nothing is rounded. *)
Definition exact : Doubles := {| round := λ q, q; max_value := 2 ^ 1024 |}.

(** A coarse format, for comparison: results are rounded to the nearest
    multiple of 1/1024, halves upwards. *)
Definition fixed_point : Doubles :=
  {| round := λ q, (inject_Z (Qfloor (q * 1024 + (1 # 2))) / 1024)%Q;
     max_value := 2 ^ 1024 |}.

(** Truthiness of a number: [0] and [NaN] are falsy. *)
Definition truthy_number (n : number) : bool :=
  match n with
  | Num q => negb (Qeq_bool q 0)
  | Inf _ => true
  | NaN => false
  end.

(** [a || b] on numbers *)
Definition or_number (a b : number) : number :=
  if truthy_number a then a else b.

(** Scalar values, as they appear in the configuration object and in the
    fields of a JSON response. *)
Inductive value :=
| VUndefined
| VNull
| VBool (b : bool)
| VNum (n : number)
| VStr (s : string).

Definition truthy (v : value) : bool :=
  match v with
  | VUndefined | VNull => false
  | VBool b => b
  | VNum n => truthy_number n
  | VStr s => negb (String.eqb s "")
  end.

(** [a || b] *)
Definition or (a b : value) : value := if truthy a then a else b.

(** Property read [o.k] on a dictionary object: a missing key reads as
    [undefined]. *)
Definition get (o : gmap string value) (k : string) : value :=
  default VUndefined (o !! k).

(** What [JSON.stringify] writes for a property value: a property that
    is [undefined] is left out ([None]), and a number that is not
    finite is written as [null]. *)
Definition json_value (v : value) : option value :=
  match v with
  | VUndefined => None
  | VNum (Num q) => Some (VNum (Num q))
  | VNum _ => Some VNull
  | v => Some v
  end.

(** [JSON.stringify(o)] of a dictionary object, as the object its text
    denotes. *)
Definition JSON_stringify (o : gmap string value) : gmap string value :=
  omap json_value o.

(** A string built by a template literal or by [+] is kept as its parts. *)
Inductive part :=
| Lit (s : string)
| Val (v : value)
| Fixed (n : number) (digits : nat).

Definition text := list part.

(** [a < b] *)
Definition lt (a b : number) : bool := gt b a.

(** [Math.max(...xs)]: -Infinity when there is no argument. *)
Definition max_of (xs : list number) : number := fold_left max xs (Inf true).

(** [n === 0] *)
Definition is_zero (n : number) : bool :=
  match n with
  | Num q => Qeq_bool q 0
  | _ => false
  end.

End JS.

(** ** utils/websocket.js *)

Module Socket.

(** Connection state of the socket.io client.  [connect()] is asynchronous:
    the [connected] flag only becomes true once the handshake completes. *)
Inductive conn := Closed | Opening | Open.

(** The two methods the helpers call. *)
Inductive method := Connect | Disconnect.

(** The socket: its connection state, its listeners in the order they
    were added, and the calls made so far to [connect] and
    [disconnect]. *)
Record socket (H : Type) := mkSocket {
  state : conn;
  listeners : list (string * H);
  calls : list method
}.
Arguments mkSocket {H}.
Arguments state {H}.
Arguments listeners {H}.
Arguments calls {H}.

Section Methods.
Context {H : Type}.

(** [io(SOCKET_URL, { autoConnect: false, ... })] *)
Definition io : socket H := mkSocket Closed [] [].

Definition connected (s : socket H) : bool :=
  match state s with Open => true | _ => false end.

(** [socket.connect()]: opens a closed socket, and leaves alone one that
    is opening or open. *)
Definition connect (s : socket H) : socket H :=
  mkSocket (match state s with Closed => Opening | c => c end)
           (listeners s) (calls s ++ [Connect]).

(** [socket.disconnect()] *)
Definition disconnect (s : socket H) : socket H :=
  mkSocket Closed (listeners s) (calls s ++ [Disconnect]).

(** The handshake completing, an event of the transport. *)
Definition handshake (s : socket H) : socket H :=
  mkSocket (match state s with Opening => Open | c => c end)
           (listeners s) (calls s).

(** [socket.on(name, fn)] *)
Definition on (name : string) (fn : H) (s : socket H) : socket H :=
  mkSocket (state s) (listeners s ++ [(name, fn)]) (calls s).

(** [socket.off(name)]: drops every listener of that event. *)
Definition off (name : string) (s : socket H) : socket H :=
  mkSocket (state s)
           (List.filter (λ l, negb (String.eqb (fst l) name)) (listeners s))
           (calls s).

(** The listeners an incoming event [name] is delivered to, in order. *)
Definition handlers_of (name : string) (s : socket H) : list H :=
  map snd (List.filter (λ l, String.eqb (fst l) name) (listeners s)).

(** Helper to establish the connection if not already active. *)
Definition connectSocket (s : socket H) : socket H :=
  if negb (connected s) then connect s else s.

(** Helper to gracefully close the connection. *)
Definition disconnectSocket (s : socket H) : socket H :=
  if connected s then disconnect s else s.

End Methods.

End Socket.

(** ** App.jsx *)

Module App.
Import JS.

(** The payload of a [training_update] message. *)
Record ProgressEvent := mkProgress {
  epoch : Z;
  batch : Z;
  total_batches : Z;
  loss : number;
  accuracy : number;
  sample_activations : list (string * number);
  sample_input : string;
  sample_output : list number
}.

(** Messages of the push channel, with the payload each one carries. *)
Inductive message :=
| Status (msg : string)
| Log (message : string)
| TrainingUpdate (data : ProgressEvent)
| TrainingComplete.

Definition event_name (m : message) : string :=
  match m with
  | Status _ => "status"
  | Log _ => "log"
  | TrainingUpdate _ => "training_update"
  | TrainingComplete => "training_complete"
  end.

(** [data.k] for the two free-text fields the listeners read. *)
Definition field (m : message) (k : string) : value :=
  match m with
  | Status msg => if String.eqb k "msg" then VStr msg else VUndefined
  | Log message => if String.eqb k "message" then VStr message else VUndefined
  | _ => VUndefined
  end.

(** The four listeners [App] registers, named after their events. *)
Inductive handler := OnStatus | OnLog | OnTrainingUpdate | OnTrainingComplete.

(** React state of [App] (the tab and help toggles are left out). *)
Record state := mkState {
  appConfig : gmap string value;
  status : string;
  metrics : option ProgressEvent;
  history : list ProgressEvent;
  logs : list (string * text)
}.

(** [useState] initial values *)
Definition initial : state :=
  mkState (<["dataset" := VStr "mnist"]>
            (<["architecture" := VStr "mlp"]>
              (<["lr" := VNum (Num (1 # 1000))]>
                (<["epochs" := VNum (Num 10)]>
                  (<["batch_size" := VNum (Num 64)]> ∅)))))
          "idle" None [] [].

Definition setAppConfig (f : gmap string value → gmap string value) (s : state) :=
  mkState (f (appConfig s)) (status s) (metrics s) (history s) (logs s).
Definition setStatus (v : string) (s : state) :=
  mkState (appConfig s) v (metrics s) (history s) (logs s).
Definition setMetrics (v : option ProgressEvent) (s : state) :=
  mkState (appConfig s) (status s) v (history s) (logs s).
Definition setHistory (f : list ProgressEvent → list ProgressEvent) (s : state) :=
  mkState (appConfig s) (status s) (metrics s) (f (history s)) (logs s).
Definition setLogs (f : list (string * text) → list (string * text)) (s : state) :=
  mkState (appConfig s) (status s) (metrics s) (history s) (f (logs s)).

(** Helper to add timestamped logs to the console panel; [time] is what
    [new Date().toLocaleTimeString()] returns at the call. *)
Definition addLog (time : string) (msg : text) (s : state) : state :=
  setLogs (λ prev, prev ++ [(time, msg)]) s.

(** Everything the component acts on: its state, the shared socket, and
    what it has sent to [alert] and [console.error]. *)
Record world := mkWorld {
  st : state;
  sock : Socket.socket handler;
  alerts : list text;
  errors : list text
}.

Definition on_state (f : state → state) (w : world) : world :=
  mkWorld (f (st w)) (sock w) (alerts w) (errors w).
Definition on_sock (f : Socket.socket handler → Socket.socket handler)
    (w : world) : world :=
  mkWorld (st w) (f (sock w)) (alerts w) (errors w).
Definition alert (t : text) (w : world) : world :=
  mkWorld (st w) (sock w) (alerts w ++ [t]) (errors w).
Definition console_error (t : text) (w : world) : world :=
  mkWorld (st w) (sock w) (alerts w) (errors w ++ [t]).

Definition fresh : world := mkWorld initial Socket.io [] [].

(** Body of each listener. *)
Definition run_handler (h : handler) (m : message) (time : string)
    (s : state) : state :=
  match h with
  | OnStatus => addLog time [Val (field m "msg")] s
  | OnLog => addLog time [Val (field m "message")] s
  | OnTrainingUpdate =>
      match m with
      | TrainingUpdate data =>
          let s1 := setMetrics (Some data) s in
          let s2 := setHistory (λ prev, prev ++ [data]) s1 in
          if Z.eqb (Z.rem (batch data) 100) 0
          then addLog time
                 [Lit "Epoch "; Val (VNum (Num (inject_Z (epoch data))));
                  Lit " | Batch "; Val (VNum (Num (inject_Z (batch data))));
                  Lit "/"; Val (VNum (Num (inject_Z (total_batches data))));
                  Lit " | Loss: "; Fixed (loss data) 4] s2
          else s2
      | _ => s
      end
  | OnTrainingComplete =>
      addLog time [Lit "Training Complete!"] (setStatus "complete" s)
  end.

(** Delivery of an incoming message to the listeners of its event. *)
Definition receive (m : message) (time : string) (w : world) : world :=
  on_state
    (λ s, fold_left (λ acc h, run_handler h m time acc)
                    (Socket.handlers_of (event_name m) (sock w)) s)
    w.

(** Delivery of a sequence of messages, each with the time it arrives
    at. *)
Definition receive_all (ms : list (message * string)) (w : world) : world :=
  fold_left (λ acc m, receive (fst m) (snd m) acc) ms w.

(** The mount effect. *)
Definition mount (time : string) (w : world) : world :=
  let w0 :=
    if negb (Socket.connected (sock w))
    then on_state (addLog time [Lit "Connecting to server..."])
                  (on_sock Socket.connectSocket w)
    else w in
  on_sock (λ s, Socket.on "training_complete" OnTrainingComplete
                  (Socket.on "training_update" OnTrainingUpdate
                    (Socket.on "log" OnLog
                      (Socket.on "status" OnStatus s)))) w0.

(** Cleanup on unmount. *)
Definition unmount (w : world) : world :=
  on_sock (λ s, Socket.disconnectSocket
                  (Socket.off "training_complete"
                    (Socket.off "training_update"
                      (Socket.off "log"
                        (Socket.off "status" s))))) w.

(** What [response.json()] comes to: a rejection with its error's
    message, [null] (reading a field of it raises a TypeError with the
    message given), or a value whose fields can be read, a missing field
    reading as [undefined]. *)
Inductive body :=
| Unparsable (error_message : value)
| Null (type_error_message : value)
| Object (fields : gmap string value).

Inductive fetch_result :=
| Rejected (error_message : value)
| Response (ok : bool) (data : body).

(** [handleStart] up to its first [await]: the log line, and the body
    posted to [/api/start-training], [JSON.stringify(appConfig)]. *)
Definition handleStart_send (time : string) (w : world)
    : gmap string value * world :=
  let cfg := appConfig (st w) in
  (JSON_stringify cfg,
   on_state (addLog time [Lit "Starting training with ";
                          Val (get cfg "architecture"); Lit " on ";
                          Val (get cfg "dataset"); Lit "..."]) w).

Definition start_failed (time : string) (e : value) (w : world) : world :=
  on_state (addLog time [Lit "Failed to start training: "; Val e])
           (console_error [Lit "Failed to start training:"; Val e] w).

(** [handleStart] from the awaited response on. *)
Definition handleStart_receive (time : string) (r : fetch_result)
    (w : world) : world :=
  match r with
  | Rejected e => start_failed time e w
  | Response _ (Unparsable e) => start_failed time e w
  | Response true _ =>
      on_state (λ s, setHistory (λ _, []) (setStatus "training" s)) w
  | Response false (Null e) => start_failed time e w
  | Response false (Object data) =>
      let msg := or (or (or (get data "message") (get data "error"))
                        (get data "status")) (VStr "Unknown error") in
      alert [Lit "Error starting: "; Val msg]
            (on_state (addLog time [Lit "Error starting: "; Val msg]) w)
  end.

(** [handleStart] when nothing else happens while the request is in
    flight. *)
Definition handleStart (t0 t1 : string) (r : fetch_result) (w : world)
    : world :=
  handleStart_receive t1 r (snd (handleStart_send t0 w)).

Definition handleStop_send (time : string) (w : world) : world :=
  on_state (addLog time [Lit "Stopping training..."]) w.

(** [handleStop] from the awaited [fetch] on; [None] is a rejected fetch. *)
Definition handleStop_receive (time : string) (r : option bool)
    (w : world) : world :=
  match r with
  | Some _ =>
      on_state (λ s, addLog time [Lit "Training stopped by user."]
                       (setStatus "idle" s)) w
  | None => console_error [Lit "Failed to stop training:"] w
  end.

(** [handleStop] when nothing else happens while the request is in
    flight. *)
Definition handleStop (t0 t1 : string) (r : option bool) (w : world)
    : world :=
  handleStop_receive t1 r (handleStop_send t0 w).

(** The [isTraining] prop [App] passes to its children. *)
Definition isTraining (s : state) : bool := String.eqb (status s) "training".

(** The listener [App] registers for each message of the push channel. *)
Definition listener_of (m : message) : handler :=
  match m with
  | Status _ => OnStatus
  | Log _ => OnLog
  | TrainingUpdate _ => OnTrainingUpdate
  | TrainingComplete => OnTrainingComplete
  end.

Definition subscriptions : list (string * handler) :=
  [ ("status", OnStatus); ("log", OnLog);
    ("training_update", OnTrainingUpdate);
    ("training_complete", OnTrainingComplete) ].

Definition subscribed (name : string) : bool :=
  existsb (String.eqb name) (map fst subscriptions).

(** Whether the start request was accepted: an ok response whose body
    could be parsed. *)
Definition accepted (r : fetch_result) : bool :=
  match r with
  | Response true (Null _ | Object _) => true
  | _ => false
  end.

End App.

(** ** components/ControlPanel.jsx *)

Module ControlPanel.
Import JS.

Section Handlers.
(** The host's [parseFloat] and [parseInt] (string, radix). *)
Variable parseFloat : string → number.
Variable parseInt : string → Z → number.

(** Generic handler for all form inputs: the updater it hands to
    [setConfig], for an event whose target has this [name] and [value]. *)
Definition handleChange (name value : string) (prev : gmap string JS.value)
    : gmap string JS.value :=
  let finalValue := VStr value in
  let finalValue :=
    if String.eqb name "lr" then VNum (parseFloat value) else finalValue in
  let finalValue :=
    if String.eqb name "epochs" || String.eqb name "batch_size"
    then VNum (parseInt value 10) else finalValue in
  <[name := finalValue]> prev.
End Handlers.

Inductive widget :=
| Select (options : list string)
| Range (min max step : string)
| NumberInput (min max : string).

(** A form control as rendered: its [name], what it is, the [value] it
    shows and its [disabled] attribute. *)
Record control := mkControl {
  name : string;
  kind : widget;
  value : JS.value;
  disabled : bool
}.

Inductive button := StopTraining | StartTraining.

(** The form controls of one render, in document order. *)
Definition controls (appConfig : gmap string JS.value) (isTraining : bool)
    : list control :=
  [ mkControl "dataset" (Select ["mnist"; "fashion-mnist"; "cifar-10"])
      (get appConfig "dataset") isTraining;
    mkControl "architecture" (Select ["mlp"; "lenet"; "resnet"])
      (get appConfig "architecture") isTraining;
    mkControl "lr" (Range "0.0001" "0.1" "0.0001")
      (get appConfig "lr") false;
    mkControl "epochs" (NumberInput "1" "100")
      (get appConfig "epochs") isTraining;
    mkControl "batch_size" (Select ["32"; "64"; "128"; "256"])
      (get appConfig "batch_size") isTraining ].

(** The action button of one render. *)
Definition action (isTraining : bool) : button :=
  if isTraining then StopTraining else StartTraining.

Definition control_named (n : string) (cs : list control) : option control :=
  List.find (λ c, String.eqb (name c) n) cs.

(** Whether the user can edit the control called [n] in this render: the
    control exists and is not disabled. *)
Definition editable (appConfig : gmap string JS.value) (isTraining : bool)
    (n : string) : bool :=
  match control_named n (controls appConfig isTraining) with
  | Some c => negb (disabled c)
  | None => false
  end.

(** A change the user makes through the form: a disabled control fires
    no change event, an enabled one runs [handleChange]. *)
Definition user_change (parseFloat : string → number)
    (parseInt : string → Z → number) (isTraining : bool)
    (n v : string) (appConfig : gmap string JS.value)
    : option (gmap string JS.value) :=
  if editable appConfig isTraining n
  then Some (handleChange parseFloat parseInt n v appConfig)
  else None.

(** A series of changes the user attempts, as (name, value) pairs, over
    renders with the same [isTraining]: the attempts on disabled
    controls change nothing. *)
Definition user_changes (parseFloat : string → number)
    (parseInt : string → Z → number) (isTraining : bool)
    (attempts : list (string * string)) (appConfig : gmap string JS.value)
    : gmap string JS.value :=
  fold_left
    (λ cfg e,
       default cfg (user_change parseFloat parseInt isTraining (fst e) (snd e) cfg))
    attempts appConfig.

End ControlPanel.

(** ** components/HeatmapViewer.jsx *)

Module HeatmapViewer.
Import JS.

Record layer_entry := mkLayer { id : string; name : string }.

(** Dynamic layer list based on architecture. *)
Definition ARCH_LAYERS : gmap string (list layer_entry) :=
  list_to_map
    [ ("mlp",
       [ mkLayer "fc1.weight" "FC1 (Input -> Hidden 1)";
         mkLayer "fc2.weight" "FC2 (Hidden 1 -> Hidden 2)";
         mkLayer "fc3.weight" "FC3 (Hidden 2 -> Output)" ]);
      ("lenet",
       [ mkLayer "conv1.weight" "Conv1 (Input -> FeatMap 1)";
         mkLayer "conv2.weight" "Conv2 (FeatMap 1 -> FeatMap 2)";
         mkLayer "fc1.weight" "FC1 (FeatMap -> Hidden)";
         mkLayer "fc2.weight" "FC2 (Hidden -> Output)" ]);
      ("resnet",
       [ mkLayer "model.conv1.weight" "Conv1 (Initial)";
         mkLayer "model.layer1.0.conv1.weight" "Block1 Conv1";
         mkLayer "model.layer2.0.conv1.weight" "Block2 Conv1";
         mkLayer "model.fc.weight" "FC (Final Output)" ]) ].

(** The members every object literal inherits from [Object.prototype]:
    functions, and for [__proto__] the prototype itself. *)
Definition Object_prototype : list string :=
  [ "constructor"; "__defineGetter__"; "__defineSetter__"; "hasOwnProperty";
    "__lookupGetter__"; "__lookupSetter__"; "isPrototypeOf";
    "propertyIsEnumerable"; "toString"; "valueOf"; "__proto__";
    "toLocaleString" ].

Definition inherited (s : string) : bool :=
  existsb (String.eqb s) Object_prototype.

(** What a property read on [ARCH_LAYERS] gives: one of its own tables,
    a member inherited from [Object.prototype] (truthy, and not an
    array), or [undefined]. *)
Inductive looked_up :=
| Table (layers : list layer_entry)
| Inherited
| Missing.

(** [ARCH_LAYERS[v]]: a value that is not a string is converted to one
    ('null', 'undefined', 'true', the digits of a number), which names
    neither a table nor an inherited member. *)
Definition layers_of (v : JS.value) : looked_up :=
  match v with
  | VStr s =>
      match ARCH_LAYERS !! s with
      | Some table => Table table
      | None => if inherited s then Inherited else Missing
      end
  | _ => Missing
  end.

(** [appConfig && ARCH_LAYERS[appConfig.architecture]]; [Missing] stands
    for any falsy value. *)
Definition table_of (appConfig : option (gmap string JS.value))
    : looked_up :=
  match appConfig with
  | Some c => layers_of (get c "architecture")
  | None => Missing
  end.

Definition mlp_layers : list layer_entry :=
  default [] (ARCH_LAYERS !! "mlp").

(** [(appConfig && ARCH_LAYERS[appConfig.architecture]) ||
    ARCH_LAYERS['mlp']] *)
Definition currentLayers (appConfig : option (gmap string JS.value))
    : looked_up :=
  match table_of appConfig with
  | Missing => Table mlp_layers
  | found => found
  end.

(** The options of the layer menu, [currentLayers.map(...)], each with
    its value and its label; [None] is a render that throws a TypeError
    ([map] is not a function of what [currentLayers] holds). *)
Definition layer_options (appConfig : option (gmap string JS.value))
    : option (list (string * string)) :=
  match currentLayers appConfig with
  | Table layers => Some (map (λ l, (id l, name l)) layers)
  | _ => None
  end.

(** [useState] initial value of [layer]. *)
Definition initial_layer (appConfig : option (gmap string JS.value))
    : string :=
  match appConfig with
  | Some c =>
      match get c "architecture" with
      | VStr "lenet" => "conv1.weight"
      | _ => "fc1.weight"
      end
  | None => "fc1.weight"
  end.

(** Update selected layer if architecture changes: the effect that runs
    when [appConfig] does, with the layer it leaves selected; it leaves
    [layer] alone when the read of the table is falsy.  [None] is an
    effect that throws a TypeError ([id] read of [undefined], where
    what was read has no element 0). *)
Definition on_config (appConfig : option (gmap string JS.value))
    (layer : string) : option string :=
  match table_of appConfig with
  | Table (first :: _) => Some (id first)
  | Table [] => None
  | Inherited => None
  | Missing => Some layer
  end.

(** A JSON weight payload: a nested numeric sequence. *)
Inductive tensor :=
| TNum (q : Q)
| TArr (items : list tensor).

Definition isArray (t : tensor) : bool :=
  match t with TArr _ => true | TNum _ => false end.

Definition truthy_tensor (t : tensor) : bool :=
  match t with
  | TNum q => truthy_number (Num q)
  | TArr _ => true
  end.

(** [t[i]]; [None] is [undefined]. *)
Definition index (t : tensor) (i : nat) : option tensor :=
  match t with
  | TArr l => l !! i
  | TNum _ => None
  end.

(** Conversion to a number, as arithmetic and [Math.abs] apply it: an
    array converts through its string, so [[]] is 0, [[x]] is what [x]
    converts to, and a longer array is NaN. *)
Fixpoint toNumber (t : tensor) : number :=
  match t with
  | TNum q => Num q
  | TArr [] => Num 0
  | TArr [x] => toNumber x
  | TArr _ => NaN
  end.

Definition toNumber_opt (o : option tensor) : number :=
  match o with
  | Some t => toNumber t
  | None => NaN
  end.

(** *** Effect 1: data polling *)

(** What the awaited [fetch], [res.json()] and the read [json[layer]]
    come to: an exception anywhere in the [try], or the entry read
    ([None] when the response has no such entry). *)
Inductive fetch_result :=
| Threw
| Entry (newData : option tensor).

(** One run of the polling effect: the [isMounted] flag of its closure,
    the pending timer (with its delay) and the start time of the request
    in flight. *)
Record poller := mkPoller {
  isMounted : bool;
  timeoutId : option Z;
  inflight : option Z
}.

(** [fetchWeights] up to its [await]; [now] is [Date.now()]. *)
Definition fetchWeights_send (now : Z) (p : poller) : poller :=
  mkPoller (isMounted p) (timeoutId p) (Some now).

(** The effect body: start polling only if training is active. *)
Definition start_polling (isTraining : bool) (now : Z) : poller :=
  let p := mkPoller true None None in
  if isTraining then fetchWeights_send now p else p.

(** The delay [fetchWeights] computes after a request that took
    [duration] ms. *)
Definition adaptive_delay (duration : Z) : Z :=
  Z.min 2000 (Z.max 500 duration).

(** What the debug line prints, if anything. *)
Definition debug_sample (newData : tensor) : option tensor :=
  match newData with
  | TArr (TArr (x :: _) :: _) => Some x
  | _ => None
  end.

(** [fetchWeights] from the awaited response on, at time [now]: the new
    [data], what was printed, and the poller with the next timer set. *)
Definition fetchWeights_receive (now : Z) (r : fetch_result)
    (data : option tensor) (p : poller)
    : option tensor * list tensor * poller :=
  match inflight p with
  | None => (data, [], p)
  | Some start =>
      match r with
      | Entry e =>
          let '(data', printed) :=
            match e with
            | Some newData =>
                if isMounted p && truthy_tensor newData
                then (Some newData, option_list (debug_sample newData))
                else (data, [])
            | None => (data, [])
            end in
          let duration := (now - start)%Z in
          let delay := adaptive_delay duration in
          (data', printed,
           mkPoller (isMounted p)
                    (if isMounted p then Some delay else timeoutId p) None)
      | Threw =>
          (data, [],
           mkPoller (isMounted p)
                    (if isMounted p then Some 3000%Z else timeoutId p) None)
      end
  end.

(** The pending timer firing: [fetchWeights] runs again. *)
Definition timer_fired (now : Z) (p : poller) : poller :=
  match timeoutId p with
  | Some _ => fetchWeights_send now (mkPoller (isMounted p) None (inflight p))
  | None => p
  end.

(** The effect's cleanup. *)
Definition cleanup (p : poller) : poller :=
  mkPoller false None (inflight p).

(** *** Effect 2: canvas rendering *)

Definition color : Type := number * number * number.

(** Calls on the 2d context; a [FillRect] also records the loop indices
    it was made at and the [fillStyle] computed for it. *)
Inductive op :=
| ClearRect (x y w h : number)
| FillRect (row col : nat) (fillStyle : color) (x y w h : number).

(** The [width] and [height] attributes of the canvas element. *)
Definition canvas_width : number := Num 800.
Definition canvas_height : number := Num 400.

Definition of_nat (n : nat) : number := Num (inject_Z (Z.of_nat n)).

(** Normalize data for better color contrast: the largest absolute
    value over the rows that are arrays. *)
Definition maxVal_of (data : list tensor) : number :=
  fold_left
    (λ maxVal row,
       match row with
       | TArr r => fold_left (λ m v, max m (abs (toNumber v))) r maxVal
       | TNum _ => maxVal
       end)
    data (Num 0).

Section Rendering.
Context `{Doubles}.

(** Color mapping: Blue (-) -> White (0) -> Red (+) *)
Definition cell_color (normVal : number) : color :=
  if gt normVal (Num 0)
  then let gb := mul (Num 255) (sub (Num 1) normVal) in (Num 255, gb, gb)
  else let rg := mul (Num 255) (add (Num 1) normVal) in (rg, rg, Num 255).

(** [val / (maxVal || 1)] *)
Definition normalize (maxVal : number) (val : option tensor) : number :=
  div (toNumber_opt val) (or_number maxVal (Num 1)).

(** The inner loop, for row [i]. *)
Definition draw_row (maxVal cellWidth cellHeight : number) (cols i : nat)
    (row : tensor) : list op :=
  if isArray row
  then map (λ j, FillRect i j (cell_color (normalize maxVal (index row j)))
                   (mul (of_nat j) cellWidth) (mul (of_nat i) cellHeight)
                   cellWidth cellHeight)
           (seq 0 cols)
  else [].

(** The rendering effect on a mounted canvas: nothing is drawn unless
    [data] is a non-empty array whose first element is an array. *)
Definition draw (data : option tensor) : list op :=
  match data with
  | Some (TArr ((TArr first :: _) as rows)) =>
      let cols := length first in
      let cellWidth := div canvas_width (of_nat cols) in
      let cellHeight := div canvas_height (of_nat (length rows)) in
      let maxVal := maxVal_of rows in
      ClearRect (Num 0) (Num 0) canvas_width canvas_height
        :: concat (imap (draw_row maxVal cellWidth cellHeight cols) rows)
  | _ => []
  end.
End Rendering.

(** A matrix of numbers as a weight payload, and its cell [(i, j)]. *)
Definition rows_of (m : list (list Q)) : list tensor :=
  map (λ r, TArr (map TNum r)) m.

Definition matrix (m : list (list Q)) : tensor := TArr (rows_of m).

Definition cell (m : list (list Q)) (i j : nat) : option Q :=
  m !! i ≫= λ r, r !! j.

(** A color whose three channels are numbers between 0 and 255, and a
    color whose channels are the given ones. *)
Definition in_range (c : color) : Prop :=
  match c with
  | (Num r, Num g, Num b) =>
      (0 <= r ∧ r <= 255)%Q ∧ (0 <= g ∧ g <= 255)%Q ∧ (0 <= b ∧ b <= 255)%Q
  | _ => False
  end.

Definition is_rgb (c : color) (r g b : Q) : Prop :=
  match c with
  | (Num x, Num y, Num z) => (x == r ∧ y == g ∧ z == b)%Q
  | _ => False
  end.

(** A channel that is a number at most [k], or -Infinity. *)
Definition at_most (k : Q) (n : number) : Prop :=
  match n with
  | Num x => (x <= k)%Q
  | Inf negative => negative = true
  | NaN => False
  end.


(** What can happen to a poller after its effect has run: the request
    in flight is answered, the pending timer fires, or the effect is
    cleaned up. *)
Inductive poll_event :=
| Answered (now : Z) (r : fetch_result)
| TimerFired (now : Z)
| CleanedUp.

Definition poll_step (e : poll_event) (s : option tensor * poller)
    : option tensor * poller :=
  match e with
  | Answered now r =>
      let '(data, _, p) := fetchWeights_receive now r (fst s) (snd s) in
      (data, p)
  | TimerFired now => (fst s, timer_fired now (snd s))
  | CleanedUp => (fst s, cleanup (snd s))
  end.

(** A pending timer waits between 500 and 2000 ms, or 3000 ms. *)
Definition timer_ok (p : poller) : Prop :=
  ∀ d, timeoutId p = Some d → (500 ≤ d ≤ 2000)%Z ∨ d = 3000%Z.

Definition poll_run (es : list poll_event) (s : option tensor * poller)
    : option tensor * poller :=
  fold_left (λ acc e, poll_step e acc) es s.


(** *** The footer line *)

(** [t.length]: a number has none. *)
Definition length_of (t : tensor) : JS.value :=
  match t with
  | TArr l => VNum (of_nat (length l))
  | TNum _ => VUndefined
  end.

(** [data.flat()], which flattens one level. *)
Definition flat (data : list tensor) : list tensor :=
  concat (map (λ t, match t with TArr l => l | TNum _ => [t] end) data).

(** What a render can throw. *)
Inductive thrown := TypeError | RangeError.

(** The footer of one render: its two computed texts, 'Displaying ...
    matrix' and 'Max Val = ...', or what the render throws. *)
Inductive footer_result :=
| Shown (displaying max_val : text)
| Throws (e : thrown).

Section Footer.
(** The number of arguments the host accepts in one call: spreading
    more than that into a call throws a RangeError. *)
Variable arguments_limit : nat.

(** [Math.max(...data.flat().map(Math.abs))]; [None] is the
    RangeError. *)
Definition footer_max (data : list tensor) : option number :=
  let args := map (λ v, abs (toNumber v)) (flat data) in
  if (length args <=? arguments_limit)%nat then Some (max_of args) else None.

(** The footer as one render evaluates it: a TypeError where [length]
    is read of [undefined] ([data[0]] of an empty array or of a
    number), a RangeError where the cells are too many to spread. *)
Definition footer (data : option tensor) : footer_result :=
  match data with
  | Some d =>
      if truthy_tensor d
      then match index d 0, d with
           | Some first, TArr rows =>
               match footer_max rows with
               | Some m =>
                   Shown [Val (length_of d); Lit "x"; Val (length_of first)]
                         [Fixed m 5]
               | None => Throws RangeError
               end
           | _, _ => Throws TypeError
           end
      else Shown [Lit "..."] [Lit "0.00"]
  | None => Shown [Lit "..."] [Lit "0.00"]
  end.
End Footer.

(** The fill operations among the calls made on the context. *)
Definition is_fill (o : op) : bool :=
  match o with FillRect _ _ _ _ _ _ _ => true | ClearRect _ _ _ _ => false end.

End HeatmapViewer.

(** ** components/UploadZone.jsx *)

Module UploadZone.
Import JS.

(** React state of [UploadZone]: the stored response, the object URL of
    the local preview, and the loading flag. *)
Record state := mkState {
  prediction : option (gmap string value);
  image : option string;
  loading : bool
}.

(** [useState] initial values *)
Definition initial : state := mkState None None false.

Definition setPrediction (v : option (gmap string value)) (s : state) :=
  mkState v (image s) (loading s).
Definition setImage (v : option string) (s : state) :=
  mkState (prediction s) v (loading s).
Definition setLoading (v : bool) (s : state) :=
  mkState (prediction s) (image s) v.

(** The component's state and what it has sent to [alert] and
    [console.error]. *)
Record world := mkWorld {
  st : state;
  alerts : list text;
  errors : list text
}.

Definition on_state (f : state → state) (w : world) : world :=
  mkWorld (f (st w)) (alerts w) (errors w).

Definition fresh : world := mkWorld initial [] [].

(** [handleFileChange] up to its [await]; [file] is the object URL made
    for [e.target.files[0]], [None] when no file was chosen. *)
Definition handleFileChange_send (file : option string) (w : world) : world :=
  match file with
  | None => w
  | Some url => on_state (λ s, setLoading true (setImage (Some url) s)) w
  end.

(** [handleFileChange] from the awaited response on: the parsed body is
    stored whatever the status of the response; [null] parses. *)
Definition handleFileChange_receive (r : App.fetch_result) (w : world)
    : world :=
  let failed e :=
    mkWorld (st w) (alerts w ++ [[Lit "Prediction failed"]])
            (errors w ++ [[Val e]]) in
  let w1 :=
    match r with
    | App.Rejected e => failed e
    | App.Response _ (App.Unparsable e) => failed e
    | App.Response _ (App.Null _) => on_state (setPrediction None) w
    | App.Response _ (App.Object data) =>
        on_state (setPrediction (Some data)) w
    end in
  on_state (setLoading false) w1.

(** What the user and the network can do to the widget: a change of the
    file input, and the answer to a request sent earlier. *)
Inductive event :=
| Chosen (file : option string)
| Answered (r : App.fetch_result).

Definition step (e : event) (w : world) : world :=
  match e with
  | Chosen file => handleFileChange_send file w
  | Answered r => handleFileChange_receive r w
  end.

Definition run (es : list event) (w : world) : world :=
  fold_left (λ acc e, step e acc) es w.

(** The previews set, the bodies stored and the failures met along a
    series of events. *)
Definition previews (es : list event) : list string :=
  omap (λ e, match e with Chosen file => file | Answered _ => None end) es.

Definition stored (r : App.fetch_result)
    : option (option (gmap string value)) :=
  match r with
  | App.Response _ (App.Null _) => Some None
  | App.Response _ (App.Object data) => Some (Some data)
  | _ => None
  end.

Definition bodies (es : list event) : list (option (gmap string value)) :=
  omap (λ e, match e with Answered r => stored r | Chosen _ => None end) es.

Definition failures (es : list event) : nat :=
  length (List.filter
            (λ e, match e with
                  | Answered r =>
                      match stored r with Some _ => false | None => true end
                  | Chosen _ => false
                  end) es).

(** Requests sent and answers received. *)
Definition sent (es : list event) : nat := length (previews es).
Definition answered (es : list event) : nat :=
  length (List.filter (λ e, match e with Answered _ => true | _ => false end) es).

End UploadZone.

(** ** components/MetricsPanel.jsx *)

Module MetricsPanel.
Import JS.

(** X-axis labels *)
Definition labels (history : list App.ProgressEvent) : list text :=
  map (λ h, [Val (VNum (Num (inject_Z (App.epoch h)))); Lit ".";
             Val (VNum (Num (inject_Z (App.batch h))))]) history.

(** The two datasets of the line chart. *)
Definition loss_data (history : list App.ProgressEvent) : list number :=
  map App.loss history.
Definition accuracy_data (history : list App.ProgressEvent) : list number :=
  map App.accuracy history.

(** The two stat boxes. *)
Definition loss_box (metrics : option App.ProgressEvent) : text :=
  match metrics with
  | Some m => [Fixed (App.loss m) 4]
  | None => [Lit "0.0000"]
  end.

Definition accuracy_box (metrics : option App.ProgressEvent) : text :=
  match metrics with
  | Some m => [Fixed (App.accuracy m) 1; Lit "%"]
  | None => [Lit "0.0%"]
  end.

(** What stands in the chart area: the line chart with its labels and
    datasets, or the placeholder. *)
Inductive chart_area :=
| LineChart (labels : list text) (loss accuracy : list number)
| Waiting.

Definition chart (history : list App.ProgressEvent) : chart_area :=
  if (0 <? length history)%nat
  then LineChart (labels history) (loss_data history) (accuracy_data history)
  else Waiting.

(** The bar chart of layer activations: its labels and its data. *)
Definition barData (metrics : option App.ProgressEvent)
    : list string * list number :=
  match metrics with
  | Some m => (map fst (App.sample_activations m),
               map snd (App.sample_activations m))
  | None => ([], [])
  end.

End MetricsPanel.

(** ** components/ArchitectureCanvas.jsx *)

Module ArchitectureCanvas.
Import JS.

Record dims := mkDims { width : number; height : number }.

Record margins := mkMargin { left : number; right : number;
                             top : number; bottom : number }.

Definition margin : margins := mkMargin (Num 30) (Num 30) (Num 20) (Num 20).

(** Determine topology *)
Definition getLayerSizes (config : gmap string value) : list nat :=
  match get config "architecture" with
  | VStr "mlp" => [20; 16; 12; 10]
  | VStr "lenet" => [20; 18; 16; 12; 10]
  | VStr "resnet" => [16; 14; 14; 14; 12; 12; 12; 12; 10; 10; 10; 10; 8; 8; 10]
  | _ => [20; 16; 12; 10]
  end%nat.

Record neuron := mkNeuron {
  id : text;
  layer : nat;
  index : nat;
  x : number;
  y : number
}.

Record line := mkLine {
  x1 : number; y1 : number; x2 : number; y2 : number;
  class : text
}.

(** [neurons.find(n => n.layer === l && n.index === i)] *)
Definition find_neuron (l i : nat) (neurons : list neuron) : option neuron :=
  List.find (λ n, Nat.eqb (layer n) l && Nat.eqb (index n) i) neurons.

(** Fill of a neuron's circle. *)
Definition neuron_fill (layers : list nat) (d : neuron) : string :=
  if Nat.eqb (layer d) 0 then "#4fc3f7"
  else if Nat.eqb (layer d) (length layers - 1) then "#ffeb3b"
  else "#ccc".

(** Links between adjacent layers of a topology, counted. *)
Fixpoint links_count (layers : list nat) : nat :=
  match layers with
  | count :: (nextCount :: _) as rest => count * nextCount + links_count rest
  | _ => 0
  end.

(** The links and the circles the topology effect appends to the graph
    group, or how it ended otherwise: it returned at its guard, or it
    threw. *)
Record scene := mkScene {
  lines : list line;
  circles : list (neuron * string)
}.

Inductive outcome := Skipped | Threw | Drawn (s : scene).

(** Fill of an output bar. *)
Definition bar_fill (d : number) : string :=
  if gt d (Num (1 # 2)) then "#4ade80" else "#38bdf8".

(** The bars of [sample_output] that are filled green. *)
Definition green_bars (sample_output : list number) : list number :=
  List.filter (λ d, String.eqb (bar_fill d) "#4ade80") sample_output.

(** The exact sum of a list of rationals. *)
Definition total (qs : list Q) : Q := fold_right Qplus 0%Q qs.

Section Canvas.
Context `{Doubles}.

(** Effect 0: the updater [updateDims] hands to [setDimensions];
    [measured] is the bounding rectangle of the container, [None] when
    the container is not there. *)
Definition within_tolerance (prev m : dims) : bool :=
  lt (abs (sub (width prev) (width m))) (Num 2)
  && lt (abs (sub (height prev) (height m))) (Num 2).

Definition updateDims (measured : option dims) (prev : dims) : dims :=
  match measured with
  | None => prev
  | Some m => if within_tolerance prev m then prev else m
  end.

Definition layerSpacing_of (graphWidth : number) (layers : list nat)
    : number :=
  div graphWidth
      (or_number (sub (HeatmapViewer.of_nat (length layers)) (Num 1)) (Num 1)).

(** Calculate neuron positions: neuron [i] of layer [lIndex], a layer
    of [count] neurons. *)
Definition neuron_at (layerSpacing graphHeight : number)
    (lIndex count i : nat) : neuron :=
  let x := mul (HeatmapViewer.of_nat lIndex) layerSpacing in
  let ySpacing := div graphHeight (add (HeatmapViewer.of_nat count) (Num 1)) in
  mkNeuron [Lit "l"; Val (VNum (HeatmapViewer.of_nat lIndex));
            Lit "_n"; Val (VNum (HeatmapViewer.of_nat i))]
           lIndex i x (mul (add (HeatmapViewer.of_nat i) (Num 1)) ySpacing).

Definition layer_neurons (layerSpacing graphHeight : number)
    (lIndex count : nat) : list neuron :=
  map (neuron_at layerSpacing graphHeight lIndex count) (seq 0 count).

Definition neurons_of (layerSpacing graphHeight : number)
    (layers : list nat) : list neuron :=
  concat (imap (layer_neurons layerSpacing graphHeight) layers).

(** The line appended for a link out of layer [lIndex]. *)
Definition line_between (lIndex : nat) (source target : neuron) : line :=
  mkLine (x source) (y source) (x target) (y target)
         [Lit "link l"; Val (VNum (HeatmapViewer.of_nat lIndex)); Lit "-l";
          Val (VNum (HeatmapViewer.of_nat (lIndex + 1)))].

(** One link; [None] is the TypeError of reading [x] of [undefined]
    when a [find] comes back empty. *)
Definition link (neurons : list neuron) (lIndex i j : nat) : option line :=
  source ← find_neuron lIndex i neurons;
  target ← find_neuron (lIndex + 1) j neurons;
  Some (line_between lIndex source target).

(** Draw connections: the links leaving layer [lIndex]. *)
Definition layer_links (neurons : list neuron) (layers : list nat)
    (lIndex count : nat) : option (list line) :=
  if Nat.eqb lIndex (length layers - 1) then Some []
  else
    match layers !! (lIndex + 1)%nat with
    | Some nextCount =>
        mapM (λ ij, link neurons lIndex (fst ij) (snd ij))
             (list_prod (seq 0 count) (seq 0 nextCount))
    | None => Some []
    end.

Definition connections (neurons : list neuron) (layers : list nat)
    : option (list line) :=
  (λ ls, concat ls) <$> mapM (λ l, l) (imap (layer_links neurons layers) layers).

(** The links of a fully connected layout, layer by layer: one from
    each neuron of a layer to each neuron of the next. *)
Definition full_links (layerSpacing graphHeight : number)
    (layers : list nat) : list line :=
  concat
    (imap (λ lIndex count,
             match layers !! (lIndex + 1)%nat with
             | Some nextCount =>
                 map (λ ij,
                        line_between lIndex
                          (neuron_at layerSpacing graphHeight lIndex count
                             (fst ij))
                          (neuron_at layerSpacing graphHeight (lIndex + 1)
                             nextCount (snd ij)))
                     (list_prod (seq 0 count) (seq 0 nextCount))
             | None => []
             end)
          layers).

(** Effect 1: draw the static graph topology, on a mounted svg. *)
Definition draw_topology (config : option (gmap string value))
    (dimensions : dims) : outcome :=
  match config with
  | None => Skipped
  | Some config =>
      if negb (is_zero (width dimensions))
      then
        let graphWidth :=
          sub (sub (width dimensions) (left margin)) (right margin) in
        let graphHeight :=
          sub (sub (height dimensions) (top margin)) (bottom margin) in
        let layers := getLayerSizes config in
        let layerSpacing := layerSpacing_of graphWidth layers in
        let neurons := neurons_of layerSpacing graphHeight layers in
        match connections neurons layers with
        | Some ls =>
            Drawn (mkScene ls (map (λ d, (d, neuron_fill layers d)) neurons))
        | None => Threw
        end
      else Skipped
  end.
End Canvas.

End ArchitectureCanvas.

(** ** The page in use: what can happen to [App] *)

Module Client.
Import JS.

(** The progress events among the messages delivered. *)
Definition updates (ms : list App.message) : list App.ProgressEvent :=
  omap (λ m, match m with App.TrainingUpdate d => Some d | _ => None end) ms.

(** [status !== 'idle' && <UploadZone />] *)
Definition showsUploadZone (s : App.state) : bool :=
  negb (String.eqb (App.status s) "idle").

(** The three values the status badge is meant to show. *)
Definition known_status (s : App.state) : Prop :=
  App.status s = "idle" ∨ App.status s = "training"
  ∨ App.status s = "complete".

(** A config with the five fields of the form and nothing else: two
    strings and three numbers. *)
Definition config_shape (cfg : gmap string value) : Prop :=
  dom cfg = ({[ "dataset"; "architecture"; "lr"; "epochs"; "batch_size" ]}
             : gset string)
  ∧ (∃ s, cfg !! "dataset" = Some (VStr s))
  ∧ (∃ s, cfg !! "architecture" = Some (VStr s))
  ∧ (∃ n, cfg !! "lr" = Some (VNum n))
  ∧ (∃ n, cfg !! "epochs" = Some (VNum n))
  ∧ (∃ n, cfg !! "batch_size" = Some (VNum n)).

(** A posted body with the five fields of the form and nothing else:
    two strings, and three fields each a finite number or [null]. *)
Definition json_number (v : value) : Prop :=
  v = VNull ∨ ∃ q, v = VNum (Num q).

Definition posted_shape (body : gmap string value) : Prop :=
  dom body = ({[ "dataset"; "architecture"; "lr"; "epochs"; "batch_size" ]}
              : gset string)
  ∧ (∃ s, body !! "dataset" = Some (VStr s))
  ∧ (∃ s, body !! "architecture" = Some (VStr s))
  ∧ (∃ v, body !! "lr" = Some v ∧ json_number v)
  ∧ (∃ v, body !! "epochs" = Some v ∧ json_number v)
  ∧ (∃ v, body !! "batch_size" = Some v ∧ json_number v).

(** What can happen to the mounted page: the effect and its cleanup,
    the handshake of the socket, a message on the push channel, a click
    on the action button (START is rendered when not training, STOP when
    training), the answer to the request a click sent, and a change of a
    form control. *)
Inductive action :=
| Mount (time : string)
| Unmount
| Handshake
| Receive (m : App.message) (time : string)
| ClickAction (time : string)
| StartAnswered (time : string) (r : App.fetch_result)
| StopAnswered (time : string) (r : option bool)
| Change (name value : string).

Section Actions.
Variable parseFloat : string → number.
Variable parseInt : string → Z → number.

Definition act (a : action) (w : App.world) : App.world :=
  match a with
  | Mount time => App.mount time w
  | Unmount => App.unmount w
  | Handshake => App.on_sock Socket.handshake w
  | Receive m time => App.receive m time w
  | ClickAction time =>
      match ControlPanel.action (App.isTraining (App.st w)) with
      | ControlPanel.StartTraining => snd (App.handleStart_send time w)
      | ControlPanel.StopTraining => App.handleStop_send time w
      end
  | StartAnswered time r => App.handleStart_receive time r w
  | StopAnswered time r => App.handleStop_receive time r w
  | Change n v =>
      match ControlPanel.user_change parseFloat parseInt
              (App.isTraining (App.st w)) n v (App.appConfig (App.st w)) with
      | Some cfg => App.on_state (App.setAppConfig (λ _, cfg)) w
      | None => w
      end
  end.

Definition run (acts : list action) (w : App.world) : App.world :=
  fold_left (λ acc a, act a acc) acts w.
End Actions.

(** Whether an action is the answer that accepts a start request. *)
Definition accepts (a : action) : bool :=
  match a with
  | StartAnswered _ r => App.accepted r
  | _ => false
  end.

End Client.

(** ** The training orchestrator *)

(** Modelled from the spec: the session state machine, the training loop
    worker and the event publisher run in the backend, which is not among
    the sources; what follows is written from sections 3, 4.2, 4.3 and 6
    of the specification.  The transient states Stopped and Completed are
    passed through within the step that reaches them, so a discarded
    session is directly [Idle]. *)
Module Orchestrator.
Import JS.

Record TrainingConfig := mkConfig {
  dataset : string;
  architecture : string;
  learning_rate : number;
  epoch_count : Z;
  batch_size : Z
}.

Inductive lifecycle := Idle | Training | Paused.

(** Where the worker is within one iteration of its loop: about to draw
    the next batch, or at the batch boundary where it looks at the
    control flags before it advances. *)
Inductive worker_pc := Drawing | Boundary.

(** Modelled from the spec: the Session of section 3, which lives in the
    backend.  The model and optimizer state are kept as what the
    properties below speak of: the number of gradient steps applied and
    the learning rate of the next step. *)
Record Session := mkSession {
  state : lifecycle;
  config : TrainingConfig;
  current_epoch : Z;
  current_batch : Z;
  total_batches : Z;
  model : nat;                  (* gradient steps applied so far *)
  optimizer_state : number;     (* learning rate of the next step *)
  iterator_batch_size : Z;      (* batch size the iterator draws with *)
  stop_requested : bool;
  pause_requested : bool;
  pc : worker_pc
}.

Inductive command :=
| start (c : TrainingConfig)
| stop
| pause
| resume
| reconfigure (lr : number) (batch_size : Z).

Inductive response := ok | configuration_error | state_error.

(** What computing one batch comes to: the step's statistics, a
    recoverable failure, or a fatal one. *)
Inductive batch_result :=
| Computed (loss accuracy : number)
           (sample_activations : list (string * number))
           (sample_input : string) (sample_output : list number)
| RecoverableStepError (what : string)
| FatalSessionError (what : string).

Inductive input :=
| Command (c : command)
| WorkerStep (r : batch_result).

Section Orchestrator.
(** Validation of a configuration at start, the number of batches an
    epoch has for a dataset and batch size, and the reporting cadence
    (every K batches). *)
Variable valid : TrainingConfig → bool.
Variable batches_of : string → Z → Z.
Variable K : Z.

(** No session: the process-wide entity before any start and after a
    session is discarded. *)
Definition no_session (c : TrainingConfig) : Session :=
  mkSession Idle c 1 0 0 0 (learning_rate c) (batch_size c)
            false false Drawing.

(** A fresh session for [c], with fresh model and optimizer state. *)
Definition fresh_session (c : TrainingConfig) : Session :=
  mkSession Training c 1 0 (batches_of (dataset c) (batch_size c)) 0
            (learning_rate c) (batch_size c) false false Drawing.

Definition discard (s : Session) : Session := no_session (config s).

Definition set_flags (stop_req pause_req : bool) (st : lifecycle)
    (s : Session) : Session :=
  mkSession st (config s) (current_epoch s) (current_batch s)
            (total_batches s) (model s) (optimizer_state s)
            (iterator_batch_size s) stop_req pause_req (pc s).

(** Modelled from the spec: the effect of reconfigure (section 4.2), in
    the backend: the new values go to the optimizer state and the batch
    iterator, whose epoch length follows the batch size, without a
    restart. *)
Definition hot_patch (lr : number) (bs : Z) (s : Session) : Session :=
  mkSession (state s)
            (mkConfig (dataset (config s)) (architecture (config s))
                      lr (epoch_count (config s)) bs)
            (current_epoch s) (current_batch s)
            (batches_of (dataset (config s)) bs) (model s) lr bs
            (stop_requested s) (pause_requested s) (pc s).

(** Modelled from the spec: the session state machine of section 4.2, in
    the backend: each command with the states it is valid from; a start
    on a live session is a configuration error, any other command from
    an invalid state a state error, and neither changes anything. *)
Definition apply (c : command) (s : Session) : response * Session :=
  match c, state s with
  | start cfg, Idle =>
      if valid cfg then (ok, fresh_session cfg)
      else (configuration_error, s)
  | start _, _ => (configuration_error, s)
  | stop, (Training | Paused) =>
      (ok, set_flags true (pause_requested s) (state s) s)
  | pause, Training => (ok, set_flags (stop_requested s) true Paused s)
  | resume, Paused => (ok, set_flags (stop_requested s) false Training s)
  | reconfigure lr bs, (Training | Paused) => (ok, hot_patch lr bs s)
  | _, _ => (state_error, s)
  end.

Definition at_pc (p : worker_pc) (s : Session) : Session :=
  mkSession (state s) (config s) (current_epoch s) (current_batch s)
            (total_batches s) (model s) (optimizer_state s)
            (iterator_batch_size s) (stop_requested s) (pause_requested s)
            p.

(** [apply_gradient_step]: the only writer of the parameters. *)
Definition apply_gradient_step (s : Session) : Session :=
  mkSession (state s) (config s) (current_epoch s) (current_batch s)
            (total_batches s) (S (model s)) (optimizer_state s)
            (iterator_batch_size s) (stop_requested s) (pause_requested s)
            (pc s).

Definition at_position (e b : Z) (s : Session) : Session :=
  mkSession (state s) (config s) e b
            (total_batches s) (model s) (optimizer_state s)
            (iterator_batch_size s) (stop_requested s) (pause_requested s)
            (pc s).

(** Every K batches a ProgressEvent is built for the batch just
    completed. *)
Definition report (e b : Z) (s : Session) (r : batch_result)
    : list App.message :=
  match r with
  | Computed loss accuracy acts img out =>
      if Z.eqb (b mod K) 0
      then [App.TrainingUpdate
              (App.mkProgress e b (total_batches s) loss accuracy
                              acts img out)]
      else []
  | _ => []
  end.

(** Advance [current_batch], wrapping to the next epoch when the epoch
    is exhausted; on exhausting [epoch_count] the terminal notification
    is emitted and the session is discarded. *)
Definition advance (s : Session) : list App.message * Session :=
  let b := (current_batch s + 1)%Z in
  if Z.ltb b (total_batches s)
  then ([], at_pc Drawing (at_position (current_epoch s) b s))
  else if Z.ltb (current_epoch s) (epoch_count (config s))
  then ([], at_pc Drawing (at_position (current_epoch s + 1) 0 s))
  else ([App.TrainingComplete], discard s).

(** Modelled from the spec: one move of the training loop worker of
    section 4.3, in the backend.  In one iteration the worker draws and
    computes the next batch, applies the gradient step and reports every
    K batches; then, at the batch boundary, it exits on a stop request,
    waits on a pause request, and otherwise advances.  A batch that
    fails recoverably is logged and skipped; a fatal failure ends the
    session with an error notification. *)
Definition worker_step (r : batch_result) (s : Session)
    : list App.message * Session :=
  match state s with
  | Idle => ([], s)
  | Training | Paused =>
      match pc s with
      | Drawing =>
          let e := current_epoch s in
          let b := (current_batch s + 1)%Z in
          match r with
          | Computed _ _ _ _ _ =>
              (report e b s r, at_pc Boundary (apply_gradient_step s))
          | RecoverableStepError what =>
              ([App.Log what], at_pc Boundary s)
          | FatalSessionError what =>
              ([App.Status what], discard s)
          end
      | Boundary =>
          if stop_requested s then ([], discard s)
          else if pause_requested s then ([], s)
          else advance s
      end
  end.

Definition step (i : input) (s : Session) : list App.message * Session :=
  match i with
  | Command c => ([], snd (apply c s))
  | WorkerStep r => worker_step r s
  end.

(** Everything published while the inputs are consumed. *)
Fixpoint run (inputs : list input) (s : Session)
    : list App.message * Session :=
  match inputs with
  | [] => ([], s)
  | i :: rest =>
      let '(out, s1) := step i s in
      let '(out', s2) := run rest s1 in
      (out ++ out', s2)
  end.

Definition alive (s : Session) : bool :=
  match state s with Idle => false | _ => true end.

(** What the session [s] publishes over its lifetime: the output of
    the inputs consumed until it is discarded. *)
Fixpoint emitted (inputs : list input) (s : Session) : list App.message :=
  match inputs with
  | [] => []
  | i :: rest =>
      if alive s
      then let '(out, s1) := step i s in out ++ emitted rest s1
      else []
  end.
End Orchestrator.

(** The ProgressEvents among the messages, and the position of one. *)
Definition progress_events (ms : list App.message) : list App.ProgressEvent :=
  omap (λ m, match m with App.TrainingUpdate d => Some d | _ => None end) ms.

Definition position (d : App.ProgressEvent) : Z * Z :=
  (App.epoch d, App.batch d).

(** The order on positions: by epoch, then by batch. *)
Definition before (p q : Z * Z) : Prop :=
  (fst p < fst q)%Z ∨ (fst p = fst q ∧ (snd p < snd q)%Z).

(** The last position the worker has computed a batch for: the last
    completed step, and one further once the next batch is computed and
    the worker stands at the boundary. *)
Definition frontier (s : Session) : Z * Z :=
  (current_epoch s,
   (current_batch s + match pc s with Boundary => 1 | Drawing => 0 end)%Z).

End Orchestrator.

(** * Properties *)

(** ** Socket helpers *)

Section SocketFacts.
Context {H : Type}.
Implicit Types (s : Socket.socket H) (ls : list (string * H)).

Lemma connected_Open s :
  Socket.connected s = true ↔ Socket.state s = Socket.Open.
Proof.
  unfold Socket.connected. destruct (Socket.state s); split; congruence.
Qed.

Lemma connectSocket_listeners s :
  Socket.listeners (Socket.connectSocket s) = Socket.listeners s.
Proof. destruct s as [[] ls cs]; reflexivity. Qed.

Lemma disconnectSocket_listeners s :
  Socket.listeners (Socket.disconnectSocket s) = Socket.listeners s.
Proof. destruct s as [[] ls cs]; reflexivity. Qed.

Lemma disconnectSocket_not_connected s :
  Socket.connected (Socket.disconnectSocket s) = false.
Proof. destruct s as [[] ls cs]; reflexivity. Qed.

Lemma off_listeners name s :
  Socket.listeners (Socket.off name s)
  = List.filter (λ l, negb (String.eqb (fst l) name)) (Socket.listeners s).
Proof. reflexivity. Qed.
End SocketFacts.

(** C10. [connectSocket] on a connected socket and [disconnectSocket] on
    one that is not connected (closed, or still opening) call nothing
    and change nothing.  From any state, [disconnectSocket] called twice
    in a row is [disconnectSocket] called once, and [connectSocket]
    called twice in a row leaves the connection state and the listeners
    as one call does.  On a closed socket [connectSocket] does call
    [connect], and on a connected one [disconnectSocket] does call
    [disconnect]. *)
Theorem socket_helpers_idempotent {H : Type} (c : Socket.conn)
    (ls : list (string * H)) (cs : list Socket.method) :
  let s := Socket.mkSocket c ls cs in
  Socket.connectSocket (Socket.mkSocket Socket.Open ls cs)
    = Socket.mkSocket Socket.Open ls cs
  ∧ Socket.disconnectSocket (Socket.mkSocket Socket.Closed ls cs)
    = Socket.mkSocket Socket.Closed ls cs
  ∧ Socket.disconnectSocket (Socket.mkSocket Socket.Opening ls cs)
    = Socket.mkSocket Socket.Opening ls cs
  ∧ Socket.state (Socket.connectSocket (Socket.connectSocket s))
    = Socket.state (Socket.connectSocket s)
  ∧ Socket.listeners (Socket.connectSocket (Socket.connectSocket s))
    = Socket.listeners (Socket.connectSocket s)
  ∧ Socket.disconnectSocket (Socket.disconnectSocket s)
    = Socket.disconnectSocket s
  ∧ Socket.connectSocket (Socket.mkSocket Socket.Closed ls cs)
    = Socket.mkSocket Socket.Opening ls (cs ++ [Socket.Connect])
  ∧ Socket.disconnectSocket (Socket.mkSocket Socket.Open ls cs)
    = Socket.mkSocket Socket.Closed ls (cs ++ [Socket.Disconnect]).
Proof.
  intros s. subst s.
  repeat split; try reflexivity; destruct c; reflexivity.
Qed.

(** ** App: subscriptions *)

Lemma filter_filter_andb {A} (f g : A → bool) (l : list A) :
  List.filter f (List.filter g l) = List.filter (λ x, g x && f x) l.
Proof.
  induction l as [|a l IH]; simpl; [reflexivity|].
  destruct (g a); simpl; [destruct (f a)|]; rewrite IH; reflexivity.
Qed.

Lemma mount_listeners time w :
  Socket.listeners (App.sock (App.mount time w))
  = Socket.listeners (App.sock w) ++ App.subscriptions.
Proof.
  unfold App.mount.
  destruct (negb (Socket.connected (App.sock w))); simpl;
    rewrite ?connectSocket_listeners, <- ?app_assoc; reflexivity.
Qed.

Lemma unmount_listeners w :
  Socket.listeners (App.sock (App.unmount w))
  = List.filter (λ l, negb (App.subscribed (fst l)))
                (Socket.listeners (App.sock w)).
Proof.
  unfold App.unmount. simpl.
  rewrite disconnectSocket_listeners, !off_listeners, !filter_filter_andb.
  apply filter_ext. intros [name h]. unfold App.subscribed. simpl.
  destruct (String.eqb name "status"), (String.eqb name "log"),
    (String.eqb name "training_update"),
    (String.eqb name "training_complete"); reflexivity.
Qed.

(** C4, as stated, fails.  A teardown that runs before the handshake
    has completed calls no [disconnect]: the socket stays opening and is
    connected once the handshake completes.  And a listener that
    another part of the page had put on 'status' is removed with the
    four of the mount. *)
Lemma teardown_before_handshake_keeps_channel :
  let torn := App.unmount (App.mount "12:00:00" App.fresh) in
  let foreign := App.on_sock (Socket.on "status" App.OnLog) App.fresh in
  Socket.calls (App.sock torn) = [Socket.Connect]
  ∧ Socket.state (App.sock torn) = Socket.Opening
  ∧ Socket.connected (App.sock (App.on_sock Socket.handshake torn)) = true
  ∧ Socket.listeners (App.sock foreign) = [("status", App.OnLog)]
  ∧ Socket.listeners (App.sock (App.unmount (App.mount "12:00:00" foreign)))
    = [].
Proof. repeat split; reflexivity. Qed.

(** C4. Every message of the event plane goes by one of four event
    names: status, log, training_update, training_complete.  Mounting
    adds one listener for each of the four and nothing else.  The
    teardown removes every listener of these four event names and no
    other, so a mount followed by the teardown on a socket without
    listeners leaves none; and it disconnects the push channel exactly
    when the connection is established: then it calls [disconnect] and
    the socket is closed, otherwise it calls nothing and the socket is
    left as it is, closed or still opening. *)
Theorem event_plane_four_subscriptions (time : string) (w : App.world)
    (m : App.message) :
  map fst App.subscriptions
    = ["status"; "log"; "training_update"; "training_complete"]
  ∧ App.subscribed (App.event_name m) = true
  ∧ Socket.listeners (App.sock (App.mount time w))
    = Socket.listeners (App.sock w) ++ App.subscriptions
  ∧ Socket.handlers_of (App.event_name m) (App.sock (App.mount time App.fresh))
    = [App.listener_of m]
  ∧ Socket.listeners (App.sock (App.unmount w))
    = List.filter (λ l, negb (App.subscribed (fst l)))
                  (Socket.listeners (App.sock w))
  ∧ Socket.listeners (App.sock (App.unmount (App.mount time App.fresh))) = []
  ∧ Socket.state (App.sock (App.unmount w))
    = (if Socket.connected (App.sock w) then Socket.Closed
       else Socket.state (App.sock w))
  ∧ Socket.calls (App.sock (App.unmount w))
    = Socket.calls (App.sock w)
      ++ (if Socket.connected (App.sock w) then [Socket.Disconnect] else [])
  ∧ Socket.connected (App.sock (App.unmount w)) = false
  ∧ App.sock (App.unmount
                (App.on_sock Socket.handshake (App.mount time App.fresh)))
    = Socket.mkSocket Socket.Closed [] [Socket.Connect; Socket.Disconnect].
Proof.
  split; [reflexivity|].
  split; [destruct m; reflexivity|].
  split; [apply mount_listeners|].
  split; [destruct m; reflexivity|].
  split; [apply unmount_listeners|].
  split; [reflexivity|].
  split; [destruct w as [s [[] ls cs] al er]; reflexivity|].
  split.
  { destruct w as [s [[] ls cs] al er]; simpl; rewrite ?app_nil_r;
      reflexivity. }
  split; [|reflexivity].
  unfold App.unmount. simpl. apply disconnectSocket_not_connected.
Qed.

(** With the four listeners in place, a message received changes the
    history only by appending the progress event it carries. *)
Lemma receive_history m time w :
  Socket.listeners (App.sock w) = App.subscriptions →
  App.history (App.st (App.receive m time w))
  = App.history (App.st w) ++ Orchestrator.progress_events [m]
  ∧ App.sock (App.receive m time w) = App.sock w.
Proof.
  intros Hl. split; [|reflexivity].
  unfold App.receive, Socket.handlers_of. rewrite Hl.
  destruct m as [msg | msg | d |]; simpl; rewrite ?app_nil_r; try reflexivity.
  destruct (Z.eqb (Z.rem (App.batch d) 100) 0); reflexivity.
Qed.

(** So the history of a mounted client is what it had plus the progress
    events delivered to it, in the order of delivery. *)
Lemma receive_all_history ms : ∀ w,
  Socket.listeners (App.sock w) = App.subscriptions →
  App.history (App.st (App.receive_all ms w))
  = App.history (App.st w) ++ Orchestrator.progress_events (map fst ms).
Proof.
  induction ms as [|[m time] ms IH]; intros w Hl; simpl.
  { rewrite app_nil_r. reflexivity. }
  destruct (receive_history m time w Hl) as [Hh Hs].
  unfold App.receive_all in *. simpl. rewrite IH by (rewrite Hs; exact Hl).
  rewrite Hh, <- app_assoc. f_equal.
  destruct m; reflexivity.
Qed.

(** ** App: handleStart and handleStop *)

(** Once the stop request has been answered, whatever the answer, the
    status is 'idle'; a request that fails leaves the status alone. *)
Lemma handleStop_status t0 t1 r w :
  App.status (App.st (App.handleStop t0 t1 r w))
  = match r with
    | Some _ => "idle"
    | None => App.status (App.st w)
    end.
Proof. destruct r; reflexivity. Qed.


Lemma addLog_status time msg s :
  App.status (App.addLog time msg s) = App.status s.
Proof. reflexivity. Qed.

Lemma addLog_history time msg s :
  App.history (App.addLog time msg s) = App.history s.
Proof. reflexivity. Qed.

(** C3. [handleStart] touches neither the status nor the history before
    the response arrives; on a response that is not ok both are left as
    they were (and equally when the request fails or the body cannot be
    read), and only on an ok response does the status become 'training'
    and the history the empty list. *)
Theorem handleStart_rejected_no_change (t0 t1 : string)
    (r : App.fetch_result) (data : App.body) (w : App.world) :
  let sent := snd (App.handleStart_send t0 w) in
  let rejected := App.handleStart t0 t1 (App.Response false data) w in
  let w' := App.handleStart t0 t1 r w in
  (App.status (App.st sent) = App.status (App.st w)
   ∧ App.history (App.st sent) = App.history (App.st w))
  ∧ (App.status (App.st rejected) = App.status (App.st w)
     ∧ App.history (App.st rejected) = App.history (App.st w))
  ∧ (if App.accepted r
     then App.status (App.st w') = "training" ∧ App.history (App.st w') = []
     else App.status (App.st w') = App.status (App.st w)
          ∧ App.history (App.st w') = App.history (App.st w)).
Proof.
  simpl. split; [split; reflexivity|].
  split.
  - destruct data; simpl; split; reflexivity.
  - destruct r as [e | [|] [e | e | d]]; simpl; split; reflexivity.
Qed.

(** The same holds of the part after the [await] alone, whatever
    happened to the state while the request was in flight. *)
Lemma handleStart_receive_state time r w :
  let w' := App.handleStart_receive time r w in
  if App.accepted r
  then App.status (App.st w') = "training" ∧ App.history (App.st w') = []
  else App.status (App.st w') = App.status (App.st w)
       ∧ App.history (App.st w') = App.history (App.st w).
Proof. destruct r as [e | [|] [e | e | d]]; simpl; split; reflexivity. Qed.

(** ** ControlPanel *)

(** C9. The config [handleChange] produces holds, under the field name
    of the event, [parseFloat] of the value for 'lr', [parseInt] of it
    in base 10 for 'epochs' and 'batch_size' and the raw string
    otherwise; apart from that one field it is the previous config. *)
Theorem handleChange_replaces_one_field (parseFloat : string → JS.number)
    (parseInt : string → Z → JS.number) (n v : string)
    (prev : gmap string JS.value) :
  let next := ControlPanel.handleChange parseFloat parseInt n v prev in
  next !! n
    = Some (if String.eqb n "lr" then JS.VNum (parseFloat v)
            else if String.eqb n "epochs" then JS.VNum (parseInt v 10%Z)
            else if String.eqb n "batch_size" then JS.VNum (parseInt v 10%Z)
            else JS.VStr v)
  ∧ delete n next = delete n prev.
Proof.
  unfold ControlPanel.handleChange. split.
  - rewrite lookup_insert_eq. f_equal.
    destruct (String.eqb_spec n "lr") as [->|]; [reflexivity|].
    destruct (String.eqb n "epochs"), (String.eqb n "batch_size");
      reflexivity.
  - apply delete_insert_eq.
Qed.

(** Field by field: every other field reads as before. *)
Lemma handleChange_other_fields parseFloat parseInt (n v k : string)
    (prev : gmap string JS.value) :
  k ≠ n →
  ControlPanel.handleChange parseFloat parseInt n v prev !! k = prev !! k.
Proof.
  intros Hk. unfold ControlPanel.handleChange.
  rewrite lookup_insert_ne; [reflexivity | congruence].
Qed.

(** The [disabled] attribute of each control, in document order. *)
Lemma controls_disabled (cfg : gmap string JS.value) (isTraining : bool) :
  map (λ c, (ControlPanel.name c, ControlPanel.disabled c))
      (ControlPanel.controls cfg isTraining)
  = [ ("dataset", isTraining); ("architecture", isTraining); ("lr", false);
      ("epochs", isTraining); ("batch_size", isTraining) ].
Proof. reflexivity. Qed.

Lemma isTraining_iff (s : App.state) :
  App.isTraining s = true ↔ App.status s = "training".
Proof. unfold App.isTraining. apply String.eqb_eq. Qed.

(** While training, only the learning rate can be edited. *)
Lemma editable_training (cfg : gmap string JS.value) (n : string) :
  ControlPanel.editable cfg true n = true → n = "lr".
Proof.
  unfold ControlPanel.editable, ControlPanel.control_named,
    ControlPanel.controls. cbn -[String.eqb].
  destruct (String.eqb_spec "dataset" n); [discriminate|].
  destruct (String.eqb_spec "architecture" n); [discriminate|].
  destruct (String.eqb_spec "lr" n); [congruence|].
  destruct (String.eqb_spec "epochs" n); [discriminate|].
  destruct (String.eqb_spec "batch_size" n); discriminate.
Qed.

(** Whatever the user attempts on the form while training, the config
    keeps every field but the learning rate. *)
Lemma user_changes_training_frame parseFloat parseInt
    (attempts : list (string * string)) : ∀ cfg : gmap string JS.value,
  delete "lr" (ControlPanel.user_changes parseFloat parseInt true attempts cfg)
  = delete "lr" cfg.
Proof.
  induction attempts as [|[n v] attempts IH]; intros cfg; [reflexivity|].
  unfold ControlPanel.user_changes in *. simpl. rewrite IH.
  unfold ControlPanel.user_change.
  destruct (ControlPanel.editable cfg true n) eqn:E; [|reflexivity].
  apply editable_training in E as ->. simpl.
  unfold ControlPanel.handleChange. simpl. apply delete_insert_eq.
Qed.

(** C5. In every render the dataset and the architecture selects are
    disabled exactly when [isTraining] is true, so while a run is active
    no change of either can come from the form: whatever the user
    attempts, the dataset and the architecture of the config stay as
    they are. *)
Theorem dataset_architecture_locked_while_training
    (parseFloat : string → JS.number) (parseInt : string → Z → JS.number)
    (isTraining : bool) (cfg : gmap string JS.value) (v : string)
    (attempts : list (string * string)) :
  (ControlPanel.disabled
     <$> ControlPanel.control_named "dataset"
           (ControlPanel.controls cfg isTraining))
    = Some isTraining
  ∧ (ControlPanel.disabled
       <$> ControlPanel.control_named "architecture"
             (ControlPanel.controls cfg isTraining))
    = Some isTraining
  ∧ ControlPanel.editable cfg true "dataset" = false
  ∧ ControlPanel.editable cfg true "architecture" = false
  ∧ ControlPanel.user_change parseFloat parseInt true "dataset" v cfg = None
  ∧ ControlPanel.user_change parseFloat parseInt true "architecture" v cfg
    = None
  ∧ ControlPanel.user_changes parseFloat parseInt true attempts cfg
      !! "dataset" = cfg !! "dataset"
  ∧ ControlPanel.user_changes parseFloat parseInt true attempts cfg
      !! "architecture" = cfg !! "architecture".
Proof.
  do 6 (split; [reflexivity|]).
  pose proof (user_changes_training_frame parseFloat parseInt attempts cfg)
    as Hframe.
  split.
  - rewrite <- (lookup_delete_ne _ "lr" "dataset") by discriminate.
    rewrite Hframe. apply lookup_delete_ne. discriminate.
  - rewrite <- (lookup_delete_ne _ "lr" "architecture") by discriminate.
    rewrite Hframe. apply lookup_delete_ne. discriminate.
Qed.

(** C1, as stated, fails on the form: while a run is active the batch
    size select is disabled, so the two hyperparameters are not both
    editable. *)
Lemma batch_size_not_editable_while_training :
  ¬ (ControlPanel.editable (App.appConfig App.initial) true "lr" = true
     ∧ ControlPanel.editable (App.appConfig App.initial) true "batch_size"
       = true).
Proof. intros [_ H]. vm_compute in H. discriminate H. Qed.

(** C1, amended.  On the session (as the specification describes it),
    reconfigure is accepted exactly when a session is Training or
    Paused, and it then puts the new learning rate into the optimizer
    state and the new batch size into the batch iterator while the
    lifecycle state, the position, the model, the dataset and the
    architecture stay as they are.  On the form, during an active run
    the learning rate stays editable and an edit replaces that one field
    of the client's config; the batch size, like dataset, architecture
    and epochs, is disabled until the run is over, so whatever the user
    attempts during the run changes no field but the learning rate. *)
Theorem reconfigure_and_editable_hyperparameters
    (batches_of : string → Z → Z) (valid : Orchestrator.TrainingConfig → bool)
    (lr : JS.number) (bs : Z) (s : Orchestrator.Session)
    (parseFloat : string → JS.number) (parseInt : string → Z → JS.number)
    (cfg : gmap string JS.value) (v : string)
    (attempts : list (string * string)) :
  let r := Orchestrator.apply valid batches_of
             (Orchestrator.reconfigure lr bs) s in
  (match Orchestrator.state s with
   | Orchestrator.Idle => r = (Orchestrator.state_error, s)
   | Orchestrator.Training | Orchestrator.Paused =>
       fst r = Orchestrator.ok
       ∧ Orchestrator.optimizer_state (snd r) = lr
       ∧ Orchestrator.iterator_batch_size (snd r) = bs
       ∧ Orchestrator.learning_rate (Orchestrator.config (snd r)) = lr
       ∧ Orchestrator.batch_size (Orchestrator.config (snd r)) = bs
       ∧ Orchestrator.state (snd r) = Orchestrator.state s
       ∧ Orchestrator.current_epoch (snd r) = Orchestrator.current_epoch s
       ∧ Orchestrator.current_batch (snd r) = Orchestrator.current_batch s
       ∧ Orchestrator.model (snd r) = Orchestrator.model s
       ∧ Orchestrator.dataset (Orchestrator.config (snd r))
         = Orchestrator.dataset (Orchestrator.config s)
       ∧ Orchestrator.architecture (Orchestrator.config (snd r))
         = Orchestrator.architecture (Orchestrator.config s)
   end)
  ∧ map (λ n, ControlPanel.editable cfg true n)
        ["lr"; "batch_size"; "dataset"; "architecture"; "epochs"]
    = [true; false; false; false; false]
  ∧ map (λ n, ControlPanel.editable cfg false n)
        ["lr"; "batch_size"; "dataset"; "architecture"; "epochs"]
    = [true; true; true; true; true]
  ∧ ControlPanel.user_change parseFloat parseInt true "lr" v cfg
    = Some (<["lr" := JS.VNum (parseFloat v)]> cfg)
  ∧ ControlPanel.user_change parseFloat parseInt true "batch_size" v cfg
    = None
  ∧ delete "lr"
      (ControlPanel.user_changes parseFloat parseInt true attempts cfg)
    = delete "lr" cfg.
Proof.
  simpl. split; [|repeat split; apply user_changes_training_frame].
  unfold Orchestrator.apply. destruct (Orchestrator.state s) eqn:E;
    simpl; rewrite ?E; repeat split; reflexivity.
Qed.

(** ** HeatmapViewer: layer tables *)

Lemma ARCH_LAYERS_unknown (a : string) :
  a ≠ "mlp" → a ≠ "lenet" → a ≠ "resnet" →
  HeatmapViewer.ARCH_LAYERS !! a = None.
Proof.
  intros H1 H2 H3. unfold HeatmapViewer.ARCH_LAYERS. simpl.
  rewrite !lookup_insert_ne by congruence. apply lookup_empty.
Qed.



(** ** HeatmapViewer: polling *)

Lemma adaptive_delay_clamped (d : Z) :
  (500 ≤ HeatmapViewer.adaptive_delay d ≤ 2000)%Z.
Proof. unfold HeatmapViewer.adaptive_delay. lia. Qed.

(** A poller with neither a request in flight nor a timer pending stays
    so, and leaves the data alone, whatever happens. *)
Lemma poll_run_idle es : ∀ data p,
  HeatmapViewer.inflight p = None → HeatmapViewer.timeoutId p = None →
  let s := HeatmapViewer.poll_run es (data, p) in
  fst s = data
  ∧ HeatmapViewer.inflight (snd s) = None
  ∧ HeatmapViewer.timeoutId (snd s) = None.
Proof.
  induction es as [|e es IH]; intros data p Hi Ht; [repeat split; assumption|].
  unfold HeatmapViewer.poll_run in *. simpl.
  destruct e as [now r | now |]; simpl.
  - unfold HeatmapViewer.fetchWeights_receive. rewrite Hi. apply IH; assumption.
  - unfold HeatmapViewer.timer_fired. rewrite Ht. apply IH; assumption.
  - apply IH; [exact Hi | reflexivity].
Qed.

(** Every timer a poller sets waits between 500 and 2000 ms, or 3000 ms
    after a failure. *)
Lemma poll_step_timer_ok e s : HeatmapViewer.timer_ok (snd s) →
  HeatmapViewer.timer_ok (snd (HeatmapViewer.poll_step e s)).
Proof.
  destruct s as [data p]. intros Hp. destruct e as [now r | now |]; simpl.
  - unfold HeatmapViewer.fetchWeights_receive.
    destruct (HeatmapViewer.inflight p) as [start|]; [|exact Hp].
    destruct r as [|[nd|]]; simpl.
    + intros d. simpl. destruct (HeatmapViewer.isMounted p); [|apply Hp].
      intros [= <-]. right. reflexivity.
    + destruct (HeatmapViewer.isMounted p && HeatmapViewer.truthy_tensor nd);
        intros d; simpl; (destruct (HeatmapViewer.isMounted p); [|apply Hp]);
        intros [= <-]; left; apply adaptive_delay_clamped.
    + intros d. simpl. destruct (HeatmapViewer.isMounted p); [|apply Hp].
      intros [= <-]. left. apply adaptive_delay_clamped.
  - unfold HeatmapViewer.timer_fired.
    destruct (HeatmapViewer.timeoutId p); [|exact Hp]. intros d [=].
  - intros d [=].
Qed.

Lemma poll_run_timer_ok es : ∀ s, HeatmapViewer.timer_ok (snd s) →
  HeatmapViewer.timer_ok (snd (HeatmapViewer.poll_run es s)).
Proof.
  induction es as [|e es IH]; intros s Hs; [exact Hs|].
  apply IH, poll_step_timer_ok, Hs.
Qed.

(** After a failure the poller retries after three seconds. *)
Lemma polling_retry_delay start now data tid :
  HeatmapViewer.timeoutId
    (snd (HeatmapViewer.fetchWeights_receive now HeatmapViewer.Threw data
            (HeatmapViewer.mkPoller true tid (Some start))))
  = Some 3000%Z.
Proof. reflexivity. Qed.

(** C6. After a fetch that completes without an exception, a mounted
    poller whose request started at [start] and was answered at [now]
    sets its next timer to the duration [now - start] clamped to
    [500, 2000], so that no timer set after such a fetch is shorter than
    500 ms or longer than 2000 ms.  The effect sends a first request
    only when [isTraining] is true; when it is false there is neither a
    request nor a timer, and whatever happens afterwards nothing is
    fetched and the data stays as it was. *)
Theorem polling_delay_is_clamped_duration (start now t : Z)
    (newData data : option HeatmapViewer.tensor) (tid : option Z)
    (es : list HeatmapViewer.poll_event) :
  let p := HeatmapViewer.mkPoller true tid (Some start) in
  let p' := snd (HeatmapViewer.fetchWeights_receive now
                   (HeatmapViewer.Entry newData) data p) in
  let idle := HeatmapViewer.poll_run es
                (data, HeatmapViewer.start_polling false t) in
  HeatmapViewer.timeoutId p' = Some (Z.min 2000 (Z.max 500 (now - start)))
  ∧ (500 ≤ Z.min 2000 (Z.max 500 (now - start)) ≤ 2000)%Z
  ∧ HeatmapViewer.timer_fired t p'
    = HeatmapViewer.mkPoller true None (Some t)
  ∧ HeatmapViewer.inflight (HeatmapViewer.start_polling true t) = Some t
  ∧ HeatmapViewer.inflight (HeatmapViewer.start_polling false t) = None
  ∧ (fst idle = data
     ∧ HeatmapViewer.inflight (snd idle) = None
     ∧ HeatmapViewer.timeoutId (snd idle) = None).
Proof.
  cbv zeta.
  assert (Hp : snd (HeatmapViewer.fetchWeights_receive now
                      (HeatmapViewer.Entry newData) data
                      (HeatmapViewer.mkPoller true tid (Some start)))
               = HeatmapViewer.mkPoller true
                   (Some (Z.min 2000 (Z.max 500 (now - start)))) None).
  { unfold HeatmapViewer.fetchWeights_receive. simpl.
    destruct newData as [nd|];
      [destruct (HeatmapViewer.truthy_tensor nd)|]; reflexivity. }
  rewrite Hp. split; [reflexivity|]. split; [lia|].
  do 3 (split; [reflexivity|]).
  apply poll_run_idle; reflexivity.
Qed.

(** ** Orchestrator: order of the progress events *)

Section OrchestratorFacts.
Import Orchestrator.
Variable valid : TrainingConfig → bool.
Variable batches_of : string → Z → Z.
Variable K : Z.

Abbreviation step := (Orchestrator.step valid batches_of K).
Abbreviation emitted := (Orchestrator.emitted valid batches_of K).

Lemma before_irrefl p : ¬ before p p.
Proof. unfold before. lia. Qed.

Lemma before_trans p q r : before p q → before q r → before p r.
Proof. unfold before. lia. Qed.

Lemma progress_events_app ms ms' :
  progress_events (ms ++ ms') = progress_events ms ++ progress_events ms'.
Proof. unfold progress_events. apply omap_app. Qed.

Lemma emitted_dead inputs s : alive s = false → emitted inputs s = [].
Proof. intros H. destruct inputs; simpl; rewrite ?H; reflexivity. Qed.

(** What a session publishes over its lifetime is the beginning of
    what the run publishes. *)
Lemma emitted_prefix_run inputs : ∀ s,
  ∃ later, fst (run valid batches_of K inputs s) = emitted inputs s ++ later.
Proof.
  induction inputs as [|i rest IH]; intros s; simpl; [exists []; reflexivity|].
  destruct (step i s) as [out s1] eqn:Hstep.
  destruct (IH s1) as [later Hlater].
  destruct (run valid batches_of K rest s1) as [out' s2]. simpl in *.
  destruct (alive s); [|eexists; reflexivity].
  exists later. rewrite Hlater, app_assoc. reflexivity.
Qed.

(** A command moves neither the position nor the worker. *)
Lemma apply_frontier c s :
  alive s = true →
  frontier (snd (apply valid batches_of c s)) = frontier s.
Proof.
  unfold alive, apply. intros Halive.
  destruct c, (state s); try discriminate Halive; reflexivity.
Qed.

(** What one step publishes and where it leaves the session: at most
    one progress event, strictly after the frontier the step started
    from and at the frontier it ends at, which never moves back. *)
Lemma step_progress i s :
  alive s = true →
  let out := progress_events (fst (step i s)) in
  let s' := snd (step i s) in
  (out = [] ∨ ∃ d, out = [d] ∧ before (frontier s) (position d)
                   ∧ (alive s' = true → position d = frontier s'))
  ∧ (alive s' = true →
     before (frontier s) (frontier s') ∨ frontier s = frontier s').
Proof.
  intros Halive. destruct i as [c | r]; simpl.
  - split; [left; reflexivity|]. intros _. right.
    symmetry. apply apply_frontier, Halive.
  - unfold worker_step, alive in *.
    destruct (state s) eqn:Est; [discriminate Halive| |];
      (destruct (pc s) eqn:Epc;
       [ destruct r as [l a acts img out | what | what]; simpl;
         [ unfold report; destruct (Z.eqb _ 0); simpl
         | | ]
       | destruct (stop_requested s); simpl;
         [ | destruct (pause_requested s); simpl;
             [ | unfold advance;
                 destruct (Z.ltb _ (total_batches s)); simpl;
                 [ | destruct (Z.ltb _ (epoch_count _)); simpl ] ] ] ]);
      unfold frontier, position, before; simpl; rewrite ?Est, ?Epc; simpl;
      (split;
       [ first [ left; reflexivity
               | right; eexists; split; [reflexivity|];
                 split; [simpl; lia | intros _; reflexivity] ]
       | intros Ha; try discriminate Ha;
         first [ right; f_equal; lia | left; simpl; lia ] ]).
Qed.

(** The progress events a session publishes over its lifetime lie
    strictly after its frontier and are strictly increasing. *)
Lemma emitted_sorted inputs : ∀ s,
  let ps := map position (progress_events (emitted inputs s)) in
  Forall (before (frontier s)) ps ∧ StronglySorted before ps.
Proof.
  induction inputs as [|i rest IH]; intros s; simpl.
  { split; constructor. }
  destruct (alive s) eqn:Halive; [|split; constructor].
  pose proof (step_progress i s Halive) as [Hout Hfr].
  destruct (step i s) as [out s1] eqn:Hstep. simpl in Hout, Hfr.
  rewrite progress_events_app, map_app.
  destruct (alive s1) eqn:Halive1.
  - specialize (IH s1) as [IHf IHs]. specialize (Hfr eq_refl).
    assert (Hlift : Forall (before (frontier s))
              (map position (progress_events (emitted rest s1)))).
    { destruct Hfr as [Hlt | Heq]; [|rewrite Heq; exact IHf].
      eapply Forall_impl; [exact IHf|].
      intros p Hp. eapply before_trans; eassumption. }
    destruct Hout as [-> | (d & -> & Hd & Hpos)]; simpl.
    + split; assumption.
    + specialize (Hpos eq_refl). split.
      * constructor; assumption.
      * constructor; [assumption|]. rewrite Hpos. exact IHf.
  - rewrite (emitted_dead rest s1 Halive1). simpl. rewrite app_nil_r.
    destruct Hout as [-> | (d & -> & Hd & _)]; simpl.
    + split; constructor.
    + split; [constructor; [exact Hd | constructor]|].
      constructor; constructor.
Qed.

Lemma sorted_NoDup (ps : list (Z * Z)) : StronglySorted before ps → NoDup ps.
Proof.
  induction 1 as [|p ps Hs IH Hall]; constructor; [|exact IH].
  intros Hin. rewrite Forall_forall in Hall.
  apply (before_irrefl p), Hall, Hin.
Qed.
End OrchestratorFacts.

(** C2. Whatever the configuration, the commands issued and the outcomes
    of the batches, the progress events one session publishes from its
    start until it is discarded have strictly increasing positions
    (epoch, then batch); in particular no position occurs twice. *)
Theorem progress_events_strictly_increasing
    (valid : Orchestrator.TrainingConfig → bool)
    (batches_of : string → Z → Z) (K : Z)
    (c : Orchestrator.TrainingConfig) (inputs : list Orchestrator.input) :
  let ps := map Orchestrator.position
              (Orchestrator.progress_events
                 (Orchestrator.emitted valid batches_of K inputs
                    (Orchestrator.fresh_session batches_of c))) in
  StronglySorted Orchestrator.before ps ∧ NoDup ps.
Proof.
  intros ps.
  assert (Hs : StronglySorted Orchestrator.before ps)
    by apply emitted_sorted.
  split; [exact Hs | apply sorted_NoDup, Hs].
Qed.

(** ** HeatmapViewer: colors *)

Section HeatmapColors.
Import JS HeatmapViewer.
Context `{Hlaws : DoublesLaws}.
Open Scope Q_scope.

Lemma Qle_bool_false (a b : Q) : Qle_bool a b = false → b < a.
Proof.
  intros E. apply Qnot_le_lt. intros Hle.
  apply Qle_bool_iff in Hle. congruence.
Qed.

Lemma Qeq_bool_false (a b : Q) : Qeq_bool a b = false → ¬ a == b.
Proof. intros E Heq. apply Qeq_bool_iff in Heq. congruence. Qed.

(** Rounding respects equality of rationals. *)
Lemma round_proper (x y : Q) : x == y → round x == round y.
Proof.
  intros Heq. apply Qle_antisym; apply round_mono; rewrite Heq; apply Qle_refl.
Qed.

(** An exact result between two integers of at most 2^53 in absolute
    value comes to a finite double between them. *)
Lemma finite_between (a b : Z) (q : Q) :
  (Z.abs a ≤ 2 ^ 53)%Z → (Z.abs b ≤ 2 ^ 53)%Z →
  inject_Z a <= q → q <= inject_Z b →
  finite q = Num (round q) ∧ inject_Z a <= round q ∧ round q <= inject_Z b.
Proof.
  intros Ha Hb Hlo Hhi.
  assert (Hrlo : inject_Z a <= round q).
  { rewrite <- (round_integer a Ha). apply round_mono, Hlo. }
  assert (Hrhi : round q <= inject_Z b).
  { rewrite <- (round_integer b Hb). apply round_mono, Hhi. }
  split; [|split; assumption].
  unfold finite. cbv zeta.
  assert (Hin : Qabs (round q) <= max_value).
  { eapply Qle_trans; [|apply max_value_integer].
    apply Qabs_Qle_condition. split.
    - eapply Qle_trans; [|exact Hrlo].
      rewrite <- inject_Z_opp, <- Zle_Qle. lia.
    - eapply Qle_trans; [exact Hrhi|].
      rewrite <- Zle_Qle. lia. }
  apply Qle_bool_iff in Hin. rewrite Hin. reflexivity.
Qed.

(** A quotient of absolute value at most one comes to a number between
    -1 and 1, and to 0, 1 and -1 exactly when it is. *)
Lemma ratio_spec (v d : Q) :
  0 < d → Qabs v <= d →
  ∃ n, div (Num v) (Num d) = Num n
       ∧ -1 <= n ∧ n <= 1
       ∧ (v == 0 → n == 0) ∧ (v == d → n == 1) ∧ (v == - d → n == -1).
Proof.
  intros Hd Hv. apply Qabs_Qle_condition in Hv as [Hlo Hhi].
  assert (Hq : -1 <= v / d ∧ v / d <= 1).
  { split; [apply Qle_shift_div_l | apply Qle_shift_div_r];
      solve [exact Hd | lra]. }
  destruct (finite_between (-1) 1 (v / d) ltac:(lia) ltac:(lia)
              (proj1 Hq) (proj2 Hq)) as (E & Hnlo & Hnhi).
  exists (round (v / d)). simpl.
  assert (Hd0 : Qeq_bool d 0 = false).
  { destruct (Qeq_bool d 0) eqn:E0; [|reflexivity].
    apply Qeq_bool_iff in E0. lra. }
  rewrite Hd0. split; [exact E|]. split; [exact Hnlo|]. split; [exact Hnhi|].
  split; [|split]; intros Heq.
  - rewrite (round_proper (v / d) (inject_Z 0)); [apply round_integer; lia|].
    rewrite Heq. unfold Qdiv. rewrite Qmult_0_l. reflexivity.
  - rewrite (round_proper (v / d) (inject_Z 1)); [apply round_integer; lia|].
    rewrite Heq. field. lra.
  - rewrite (round_proper (v / d) (inject_Z (-1)));
      [apply round_integer; lia|].
    rewrite Heq. field. lra.
Qed.

(** The color of a normalized value between -1 and 1. *)
Lemma cell_color_spec (n : Q) :
  -1 <= n → n <= 1 →
  let c := cell_color (Num n) in
  in_range c
  ∧ (n == 0 → is_rgb c 255 255 255)
  ∧ (n == 1 → is_rgb c 255 0 0)
  ∧ (n == -1 → is_rgb c 0 0 255).
Proof.
  intros Hlo Hhi. unfold cell_color, gt, Qltb, sub, neg.
  destruct (Qle_bool n 0) eqn:E; cbn [negb add mul];
    [apply Qle_bool_iff in E | apply Qle_bool_false in E].
  - destruct (finite_between 0 1 (1 + n) ltac:(lia) ltac:(lia))
      as (E1 & H1lo & H1hi); [unfold inject_Z; lra | unfold inject_Z; lra |].
    rewrite E1. cbn [mul].
    destruct (finite_between 0 255 (255 * round (1 + n))
                ltac:(lia) ltac:(lia)) as (E2 & H2lo & H2hi);
      [unfold inject_Z in *; nra | unfold inject_Z in *; nra |].
    rewrite E2. unfold inject_Z in *. cbn [in_range is_rgb].
    split; [repeat split; lra|].
    split; [|split]; intros Heq.
    + assert (Hr : round (1 + n) == 1).
      { rewrite (round_proper (1 + n) (inject_Z 1));
          [apply round_integer; lia | rewrite Heq; reflexivity]. }
      assert (Hc : round (255 * round (1 + n)) == 255).
      { rewrite (round_proper _ (inject_Z 255));
          [apply round_integer; lia | rewrite Hr; reflexivity]. }
      repeat split; lra.
    + lra.
    + assert (Hr : round (1 + n) == 0).
      { rewrite (round_proper (1 + n) (inject_Z 0));
          [apply round_integer; lia | rewrite Heq; reflexivity]. }
      assert (Hc : round (255 * round (1 + n)) == 0).
      { rewrite (round_proper _ (inject_Z 0));
          [apply round_integer; lia | rewrite Hr; reflexivity]. }
      repeat split; lra.
  - destruct (finite_between 0 1 (1 + - n) ltac:(lia) ltac:(lia))
      as (E1 & H1lo & H1hi); [unfold inject_Z; lra | unfold inject_Z; lra |].
    rewrite E1. cbn [mul].
    destruct (finite_between 0 255 (255 * round (1 + - n))
                ltac:(lia) ltac:(lia)) as (E2 & H2lo & H2hi);
      [unfold inject_Z in *; nra | unfold inject_Z in *; nra |].
    rewrite E2. unfold inject_Z in *. cbn [in_range is_rgb].
    split; [repeat split; lra|].
    split; [|split]; intros Heq.
    + lra.
    + assert (Hr : round (1 + - n) == 0).
      { rewrite (round_proper (1 + - n) (inject_Z 0));
          [apply round_integer; lia | rewrite Heq; reflexivity]. }
      assert (Hc : round (255 * round (1 + - n)) == 0).
      { rewrite (round_proper _ (inject_Z 0));
          [apply round_integer; lia | rewrite Hr; reflexivity]. }
      repeat split; lra.
    + lra.
Qed.

(** The color of a cell of a matrix whose largest absolute value is
    [M]. *)
Lemma normalized_color_spec (M v : Q) :
  0 <= M → Qabs v <= M →
  let c := cell_color (normalize (Num M) (Some (TNum v))) in
  in_range c
  ∧ (v == 0 → is_rgb c 255 255 255)
  ∧ (Qabs v == M → 0 < v → is_rgb c 255 0 0)
  ∧ (Qabs v == M → v < 0 → is_rgb c 0 0 255).
Proof.
  intros HM Hv. unfold normalize, or_number, truthy_number.
  cbn [toNumber_opt toNumber].
  destruct (Qeq_bool M 0) eqn:E; cbn [negb].
  - apply Qeq_bool_iff in E.
    assert (Hz : v == 0) by (apply Qabs_Qle_condition in Hv; lra).
    destruct (ratio_spec v 1) as (n & -> & Hlo & Hhi & Hn0 & _);
      [lra | lra |].
    destruct (cell_color_spec n Hlo Hhi) as (Hr & Hw & _).
    split; [exact Hr|]. split; [intros _; apply Hw, Hn0, Hz|].
    split; intros _ Hsign; lra.
  - apply Qeq_bool_false in E.
    destruct (ratio_spec v M) as (n & -> & Hlo & Hhi & Hn0 & Hn1 & Hm1);
      [lra | exact Hv |].
    destruct (cell_color_spec n Hlo Hhi) as (Hr & Hw & Hred & Hblue).
    split; [exact Hr|]. split; [intros Hz; apply Hw, Hn0, Hz|].
    split; intros Habs Hsign.
    + apply Hred, Hn1. rewrite <- Habs. symmetry. apply Qabs_pos. lra.
    + apply Hblue, Hm1. rewrite <- Habs, Qabs_neg by lra. lra.
Qed.
(** The inner fold of the normalization, over a row of numbers. *)
Lemma row_max (r : list Q) : ∀ a,
  ∃ M, fold_left (λ m v, max m (abs (toNumber v))) (map TNum r) (Num a)
       = Num M
       ∧ a <= M
       ∧ Forall (λ q, Qabs q <= M) r
       ∧ (M = a ∨ Exists (λ q, Qabs q == M) r).
Proof.
  induction r as [|q r IH]; intros a; simpl.
  { exists a. split; [reflexivity|]. split; [lra|].
    split; [constructor | left; reflexivity]. }
  destruct (Qle_bool a (Qabs q)) eqn:E.
  - apply Qle_bool_iff in E.
    destruct (IH (Qabs q)) as (M & HM & Hle & Hall & Hex).
    exists M. split; [exact HM|]. split; [lra|].
    split; [constructor; assumption|]. right.
    destruct Hex as [-> | Hex]; [left; reflexivity | right; exact Hex].
  - apply Qle_bool_false in E.
    destruct (IH a) as (M & HM & Hle & Hall & Hex).
    exists M. split; [exact HM|]. split; [lra|].
    split; [constructor; [lra | assumption]|].
    destruct Hex as [-> | Hex]; [left; reflexivity | right; right; exact Hex].
Qed.

Lemma mat_max (m : list (list Q)) : ∀ a,
  ∃ M, fold_left
         (λ maxVal row,
            match row with
            | TArr r => fold_left (λ m v, max m (abs (toNumber v))) r maxVal
            | TNum _ => maxVal
            end)
         (map (λ r, TArr (map TNum r)) m) (Num a) = Num M
       ∧ a <= M
       ∧ Forall (Forall (λ q, Qabs q <= M)) m
       ∧ (M = a ∨ Exists (Exists (λ q, Qabs q == M)) m).
Proof.
  induction m as [|r m IH]; intros a; simpl.
  { exists a. split; [reflexivity|]. split; [lra|].
    split; [constructor | left; reflexivity]. }
  destruct (row_max r a) as (M1 & H1 & Hle1 & Hall1 & Hex1).
  rewrite H1.
  destruct (IH M1) as (M & HM & Hle & Hall & Hex).
  exists M. split; [exact HM|]. split; [lra|]. split.
  - constructor; [|exact Hall].
    eapply Forall_impl; [exact Hall1|]. simpl. intros q Hq. lra.
  - destruct Hex as [-> | Hex].
    + destruct Hex1 as [-> | Hex1]; [left; reflexivity|].
      right. left. exact Hex1.
    + right. right. exact Hex.
Qed.

Lemma maxVal_of_matrix (m : list (list Q)) :
  ∃ M, maxVal_of (rows_of m) = Num M
       ∧ 0 <= M
       ∧ (∀ i j v, cell m i j = Some v → Qabs v <= M)
       ∧ (M = 0 ∨ ∃ i j v, cell m i j = Some v ∧ Qabs v == M).
Proof.
  destruct (mat_max m 0) as (M & HM & Hle & Hall & Hex).
  exists M. split; [exact HM|]. split; [exact Hle|]. split.
  - intros i j v Hc. unfold cell in Hc.
    destruct (m !! i) as [r|] eqn:Hr; simpl in Hc; [|discriminate Hc].
    rewrite Forall_lookup in Hall. specialize (Hall i r Hr).
    rewrite Forall_lookup in Hall. exact (Hall j v Hc).
  - destruct Hex as [-> | Hex]; [left; reflexivity | right].
    apply Exists_exists in Hex as (r & Hr & Hex).
    apply Exists_exists in Hex as (v & Hv & Hq).
    apply list_elem_of_lookup in Hr as [i Hi].
    apply list_elem_of_lookup in Hv as [j Hj].
    exists i, j, v. split; [|exact Hq].
    unfold cell. rewrite Hi. exact Hj.
Qed.

Lemma draw_matrix (r0 : list Q) (m : list (list Q)) :
  draw (Some (matrix (r0 :: m)))
  = ClearRect (Num 0) (Num 0) canvas_width canvas_height
      :: concat (imap (draw_row (maxVal_of (rows_of (r0 :: m)))
                         (div canvas_width (of_nat (length r0)))
                         (div canvas_height (of_nat (S (length m))))
                         (length r0))
                      (rows_of (r0 :: m))).
Proof.
  unfold draw, matrix, rows_of. simpl. rewrite !length_map. reflexivity.
Qed.

Lemma in_draw_matrix (r0 : list Q) (m : list (list Q)) i j c x y w h :
  In (FillRect i j c x y w h) (draw (Some (matrix (r0 :: m))))
  ↔ ∃ r, (r0 :: m) !! i = Some r ∧ (j < length r0)%nat
       ∧ c = cell_color (normalize (maxVal_of (rows_of (r0 :: m)))
                                   (TNum <$> r !! j))
       ∧ x = mul (of_nat j) (div canvas_width (of_nat (length r0)))
       ∧ y = mul (of_nat i) (div canvas_height (of_nat (S (length m))))
       ∧ w = div canvas_width (of_nat (length r0))
       ∧ h = div canvas_height (of_nat (S (length m))).
Proof.
  rewrite draw_matrix. split.
  - intros [Hd | Hin]; [discriminate Hd|].
    apply in_concat in Hin as (l & Hl & Hin).
    apply list_elem_of_In, elem_of_lookup_imap in Hl
      as (i' & row & -> & Hrow).
    unfold rows_of in Hrow. rewrite list_lookup_fmap in Hrow.
    destruct ((r0 :: m) !! i') as [r|] eqn:Hr; [|discriminate Hrow].
    injection Hrow as <-. unfold draw_row in Hin. simpl in Hin.
    apply in_map_iff in Hin as (j' & Heq & Hj).
    apply in_seq in Hj. injection Heq as ? ? ? ? ? ? ?. subst.
    exists r. rewrite list_lookup_fmap.
    repeat split; [exact Hr | lia].
  - intros (r & Hr & Hj & -> & -> & -> & -> & ->). right.
    apply in_concat.
    exists (draw_row (maxVal_of (rows_of (r0 :: m)))
              (div canvas_width (of_nat (length r0)))
              (div canvas_height (of_nat (S (length m))))
              (length r0) i (TArr (map TNum r))).
    split.
    + apply list_elem_of_In, elem_of_lookup_imap.
      exists i, (TArr (map TNum r)). split; [reflexivity|].
      unfold rows_of. rewrite list_lookup_fmap, Hr. reflexivity.
    + unfold draw_row. simpl. apply in_map_iff. exists j.
      rewrite list_lookup_fmap. split; [reflexivity|]. apply in_seq. lia.
Qed.

(** C8. In any number format whose rounding is monotone and keeps the
    integers up to 2^53, for a non-empty rectangular matrix of numbers
    every cell is drawn, and every color drawn has its three channels
    between 0 and 255; a zero weight is drawn white, a weight whose
    absolute value is the largest of the matrix is drawn pure red when
    positive and pure blue when negative.  The divisor of the
    normalization is never zero: it bounds every absolute value of the
    matrix and is attained by one of them, or it is 1 and the matrix is
    all zero; an all-zero matrix is divided by 1 and drawn entirely
    white. *)
Theorem heatmap_channels (m : list (list Q)) (cols : nat) :
  m ≠ [] → Forall (λ r, length r = cols) m →
  let ops := draw (Some (matrix m)) in
  let divisor := or_number (maxVal_of (rows_of m)) (Num 1) in
  (∀ i j v, cell m i j = Some v →
     ∃ c x y w h, In (FillRect i j c x y w h) ops)
  ∧ (∀ i j c x y w h, In (FillRect i j c x y w h) ops →
       ∃ v, cell m i j = Some v
         ∧ in_range c
         ∧ (v == 0 → is_rgb c 255 255 255)
         ∧ ((∀ i' j' v', cell m i' j' = Some v' → Qabs v' <= Qabs v) →
            (0 < v → is_rgb c 255 0 0) ∧ (v < 0 → is_rgb c 0 0 255)))
  ∧ (∃ d, divisor = Num d ∧ ¬ d == 0
       ∧ (∀ i j v, cell m i j = Some v → Qabs v <= d)
       ∧ ((∃ i j v, cell m i j = Some v ∧ Qabs v == d)
          ∨ (d = 1 ∧ ∀ i j v, cell m i j = Some v → v == 0)))
  ∧ ((∀ i j v, cell m i j = Some v → v == 0) →
     divisor = Num 1
     ∧ ∀ i j c x y w h, In (FillRect i j c x y w h) ops →
         is_rgb c 255 255 255).
Proof.
  intros Hne Hrect. destruct m as [|r0 m]; [congruence|]. clear Hne.
  assert (Hlen : ∀ i r, (r0 :: m) !! i = Some r → length r = length r0).
  { intros i r Hr. rewrite Forall_lookup in Hrect.
    rewrite (Hrect i r Hr). symmetry. apply (Hrect 0%nat r0 eq_refl). }
  destruct (maxVal_of_matrix (r0 :: m)) as (M & HM & HM0 & Hall & Hex).
  assert (Hdrawn : ∀ i j c x y w h,
    In (FillRect i j c x y w h) (draw (Some (matrix (r0 :: m)))) →
    ∃ v, cell (r0 :: m) i j = Some v
         ∧ c = cell_color (normalize (Num M) (Some (TNum v)))).
  { intros i j c x y w h Hin.
    apply in_draw_matrix in Hin as (r & Hr & Hj & -> & _).
    rewrite <- (Hlen i r Hr) in Hj.
    apply lookup_lt_is_Some in Hj as [v Hv].
    exists v. split; [unfold cell; rewrite Hr; exact Hv|].
    rewrite Hv, HM. reflexivity. }
  cbv zeta. split; [|split; [|split]].
  - intros i j v Hc. unfold cell in Hc.
    destruct ((r0 :: m) !! i) as [r|] eqn:Hr; [|discriminate Hc].
    simpl in Hc. do 5 eexists. apply in_draw_matrix.
    exists r. split; [exact Hr|]. split; [|repeat split].
    rewrite <- (Hlen i r Hr). apply lookup_lt_is_Some. eauto.
  - intros i j c x y w h Hin.
    destruct (Hdrawn i j c x y w h Hin) as (v & Hc & ->).
    exists v. split; [exact Hc|].
    destruct (normalized_color_spec M v HM0 (Hall i j v Hc))
      as (Hrange & Hwhite & Hred & Hblue).
    split; [exact Hrange|]. split; [exact Hwhite|]. intros Hmax.
    assert (Habs : Qabs v == M).
    { apply Qle_antisym; [exact (Hall i j v Hc)|].
      destruct Hex as [-> | (i' & j' & v' & Hc' & Hq)].
      - apply Qabs_nonneg.
      - rewrite <- Hq. exact (Hmax i' j' v' Hc'). }
    split; [apply Hred | apply Hblue]; exact Habs.
  - rewrite HM. unfold or_number, truthy_number.
    destruct (Qeq_bool M 0) eqn:E; simpl.
    + apply Qeq_bool_iff in E.
      assert (Hzero : ∀ i j v, cell (r0 :: m) i j = Some v → v == 0).
      { intros i j v Hc. specialize (Hall i j v Hc).
        apply Qabs_Qle_condition in Hall. lra. }
      exists 1. split; [reflexivity|]. split; [lra|]. split.
      * intros i j v Hc. specialize (Hall i j v Hc). lra.
      * right. split; [reflexivity | exact Hzero].
    + apply Qeq_bool_false in E.
      exists M. split; [reflexivity|]. split; [exact E|].
      split; [exact Hall|]. left.
      destruct Hex as [-> | Hex]; [|exact Hex].
      exfalso. apply E. reflexivity.
  - intros Hzero. split.
    + rewrite HM. unfold or_number, truthy_number.
      assert (Hz : M == 0).
      { destruct Hex as [-> | (i & j & v & Hc & Hq)]; [reflexivity|].
        rewrite <- Hq, (Hzero i j v Hc). reflexivity. }
      apply Qeq_bool_iff in Hz. rewrite Hz. reflexivity.
    + intros i j c x y w h Hin.
      destruct (Hdrawn i j c x y w h Hin) as (v & Hc & ->).
      apply (normalized_color_spec M v HM0 (Hall i j v Hc)), (Hzero i j v Hc).
Qed.

End HeatmapColors.

(** Exact arithmetic is a number format in this sense. *)
Lemma exact_laws : @JS.DoublesLaws JS.exact.
Proof.
  split.
  - intros x y Hxy. exact Hxy.
  - intros n _. reflexivity.
  - apply Qle_bool_iff. vm_compute. reflexivity.
Qed.

(** So is arithmetic rounded to multiples of 1/1024. *)
Lemma Qfloor_half (m : Z) : Qfloor (inject_Z m + (1 # 2)) = m.
Proof.
  pose proof (Qfloor_le (inject_Z m + (1 # 2))) as Hlo.
  pose proof (Qlt_floor (inject_Z m + (1 # 2))) as Hhi.
  set (z := Qfloor (inject_Z m + (1 # 2))) in *.
  rewrite inject_Z_plus in Hhi. change (inject_Z 1) with 1%Q in Hhi.
  assert (H1 : (z < m + 1)%Z).
  { rewrite Zlt_Qlt, inject_Z_plus. change (inject_Z 1) with 1%Q. lra. }
  assert (H2 : (m < z + 1)%Z).
  { rewrite Zlt_Qlt, inject_Z_plus. change (inject_Z 1) with 1%Q. lra. }
  lia.
Qed.

Lemma fixed_point_laws : @JS.DoublesLaws JS.fixed_point.
Proof.
  split.
  - intros x y Hxy. cbn [JS.round JS.fixed_point].
    apply Qmult_le_compat_r; [|discriminate].
    rewrite <- Zle_Qle. apply Qfloor_resp_le. lra.
  - intros n _. cbn [JS.round JS.fixed_point].
    assert (E : (inject_Z n * 1024 + (1 # 2)
                 == inject_Z (n * 1024) + (1 # 2))%Q).
    { rewrite inject_Z_mult. reflexivity. }
    rewrite (Qfloor_comp _ _ E), Qfloor_half, inject_Z_mult. field.
  - apply Qle_bool_iff. vm_compute. reflexivity.
Qed.

(** A 2 by 2 matrix to which the theorem applies, in exact
    arithmetic. *)
Lemma heatmap_channels_witness :
  let m := [[1; -2]; [0; 2]]%Q in
  m ≠ [] ∧ Forall (λ r, length r = 2%nat) m
  ∧ ∀ i j c x y w h,
      In (HeatmapViewer.FillRect i j c x y w h)
         (HeatmapViewer.draw (H := JS.exact)
            (Some (HeatmapViewer.matrix m))) →
      HeatmapViewer.in_range c.
Proof.
  split; [discriminate|]. split; [repeat constructor|].
  intros i j c x y w h Hin.
  destruct (proj1 (proj2 (heatmap_channels (Hlaws := exact_laws)
                            [[1; -2]; [0; 2]]%Q 2
                            ltac:(discriminate) ltac:(repeat constructor)))
              i j c x y w h Hin) as (v & _ & Hr & _).
  exact Hr.
Defined.

(** The matrix of the witness, drawn: a half weight is a faded red, the
    two extremes are pure blue and pure red, and zero is white. *)
Example heatmap_two_by_two :
  match HeatmapViewer.draw (H := JS.exact)
          (Some (HeatmapViewer.matrix [[1; -2]; [0; 2]]%Q)) with
  | [ HeatmapViewer.ClearRect _ _ _ _;
      HeatmapViewer.FillRect 0 0 c00 _ _ _ _;
      HeatmapViewer.FillRect 0 1 c01 _ _ _ _;
      HeatmapViewer.FillRect 1 0 c10 _ _ _ _;
      HeatmapViewer.FillRect 1 1 c11 _ _ _ _ ] =>
      HeatmapViewer.is_rgb c00 255 (255 # 2) (255 # 2)
      ∧ HeatmapViewer.is_rgb c01 0 0 255
      ∧ HeatmapViewer.is_rgb c10 255 255 255
      ∧ HeatmapViewer.is_rgb c11 255 0 0
  | _ => False
  end.
Proof. vm_compute. repeat split. Qed.

(** A third of the largest weight, in the coarse format: the quotient
    is rounded to 341/1024, and the green and blue channels come to
    255 * 683/1024 where exact arithmetic gives 170. *)
Example heatmap_rounded :
  match HeatmapViewer.draw (H := JS.fixed_point)
          (Some (HeatmapViewer.matrix [[1; 3]]%Q)) with
  | [ HeatmapViewer.ClearRect _ _ _ _;
      HeatmapViewer.FillRect 0 0 c _ _ _ _;
      HeatmapViewer.FillRect 0 1 c' _ _ _ _ ] =>
      HeatmapViewer.is_rgb c 255 (174165 # 1024) (174165 # 1024)
      ∧ HeatmapViewer.in_range c
      ∧ HeatmapViewer.is_rgb c' 255 0 0
  | _ => False
  end.
Proof. vm_compute. repeat split; discriminate. Qed.

(** Outside the theorem's premise: a payload nested deeper than a
    matrix, as a convolution's weights are, has cells that are arrays,
    and its colors are not numbers. *)
Example heatmap_nested_payload :
  match HeatmapViewer.draw (H := JS.exact)
          (Some (HeatmapViewer.TArr
                   [HeatmapViewer.TArr
                      [HeatmapViewer.TArr
                         [HeatmapViewer.TNum 1; HeatmapViewer.TNum 2]]])) with
  | [ HeatmapViewer.ClearRect _ _ _ _; HeatmapViewer.FillRect 0 0 c _ _ _ _ ] =>
      c = (JS.NaN, JS.NaN, JS.Num 255)
  | _ => False
  end.
Proof. reflexivity. Qed.

(** ** The stream at the client *)

(** A mounted client that starts from an empty history and is delivered
    what one session publishes, in the order of publication, holds a
    history of strictly increasing positions. *)
Lemma client_history_increasing valid batches_of K c inputs
    (times : list string) (w : App.world) :
  let ms := Orchestrator.emitted valid batches_of K inputs
              (Orchestrator.fresh_session batches_of c) in
  Socket.listeners (App.sock w) = App.subscriptions →
  App.history (App.st w) = [] →
  length times = length ms →
  StronglySorted Orchestrator.before
    (map Orchestrator.position
       (App.history (App.st (App.receive_all (zip ms times) w)))).
Proof.
  intros ms Hl Hh Hlen.
  rewrite receive_all_history, Hh by exact Hl. simpl.
  rewrite fst_zip by lia.
  apply emitted_sorted.
Qed.

(** ** Orchestrator: sample runs *)

(** Two epochs of three batches, reported every second batch: one
    progress event per epoch, then the terminal notification, after
    which the session is gone. *)
Example worker_two_epochs :
  let c := Orchestrator.mkConfig "mnist" "mlp" (JS.Num (1 # 1000)) 2 64 in
  let batch := Orchestrator.WorkerStep
                 (Orchestrator.Computed (JS.Num 1) (JS.Num 50) [] "" []) in
  let r := Orchestrator.run (λ _, true) (λ _ _, 3%Z) 2 (replicate 12 batch)
             (Orchestrator.fresh_session (λ _ _, 3%Z) c) in
  map Orchestrator.position (Orchestrator.progress_events (fst r))
    = [(1, 2); (2, 2)]%Z
  ∧ last (fst r) = Some App.TrainingComplete
  ∧ Orchestrator.state (snd r) = Orchestrator.Idle.
Proof. vm_compute. repeat split. Qed.

(** A pause holds the worker at the batch boundary, and a resume lets it
    go on from the position it was at. *)
Example worker_pause_resume :
  let c := Orchestrator.mkConfig "mnist" "mlp" (JS.Num (1 # 1000)) 1 64 in
  let batch := Orchestrator.WorkerStep
                 (Orchestrator.Computed (JS.Num 1) (JS.Num 50) [] "" []) in
  let s0 := Orchestrator.fresh_session (λ _ _, 4%Z) c in
  let run := Orchestrator.run (λ _, true) (λ _ _, 4%Z) 1 in
  let paused := run [batch; Orchestrator.Command Orchestrator.pause;
                     batch; batch; batch] s0 in
  let resumed := run [Orchestrator.Command Orchestrator.resume; batch; batch]
                     (snd paused) in
  map Orchestrator.position (Orchestrator.progress_events (fst paused))
    = [(1, 1)]%Z
  ∧ Orchestrator.state (snd paused) = Orchestrator.Paused
  ∧ Orchestrator.model (snd paused) = 1%nat
  ∧ map Orchestrator.position (Orchestrator.progress_events (fst resumed))
    = [(1, 2)]%Z
  ∧ Orchestrator.state (snd resumed) = Orchestrator.Training
  ∧ Orchestrator.model (snd resumed) = 2%nat.
Proof. vm_compute. repeat split. Qed.


(** ** The page in use *)

Lemma addLog_logs time msg s :
  App.logs (App.addLog time msg s) = App.logs s ++ [(time, msg)].
Proof. reflexivity. Qed.

Lemma run_handler_logs h m time s :
  App.logs s `prefix_of` App.logs (App.run_handler h m time s).
Proof.
  destruct h; simpl; try (apply prefix_app_r; reflexivity).
  destruct m as [? | ? | d |]; try reflexivity. simpl.
  destruct (Z.eqb _ 0); [apply prefix_app_r|]; reflexivity.
Qed.

Lemma handlers_logs m time hs : ∀ s,
  App.logs s
    `prefix_of` App.logs (fold_left (λ acc h, App.run_handler h m time acc) hs s).
Proof.
  induction hs as [|h hs IH]; intros s; simpl; [reflexivity|].
  etransitivity; [apply (run_handler_logs h m time)|apply IH].
Qed.

Section ClientFacts.
Variable parseFloat : string → JS.number.
Variable parseInt : string → Z → JS.number.
Abbreviation act := (Client.act parseFloat parseInt).
Abbreviation run := (Client.run parseFloat parseInt).

(** One action only ever appends to the log, to the alerts and to the
    console. *)
Lemma act_appends a w :
  App.logs (App.st w) `prefix_of` App.logs (App.st (act a w))
  ∧ App.alerts w `prefix_of` App.alerts (act a w)
  ∧ App.errors w `prefix_of` App.errors (act a w).
Proof.
  destruct a as [t | | | m t | t | t r | t r | n v]; simpl.
  - unfold App.mount.
    destruct (negb (Socket.connected (App.sock w))); simpl;
      repeat split; try reflexivity. apply prefix_app_r. reflexivity.
  - repeat split; reflexivity.
  - repeat split; reflexivity.
  - split; [apply handlers_logs | split; reflexivity].
  - destruct (ControlPanel.action _); simpl;
      (split; [apply prefix_app_r; reflexivity | split; reflexivity]).
  - destruct r as [e | [|] [e | e | d]]; simpl;
      repeat split; try reflexivity; apply prefix_app_r; reflexivity.
  - destruct r; simpl; repeat split; try reflexivity;
      apply prefix_app_r; reflexivity.
  - destruct (ControlPanel.user_change _ _ _ _ _ _); simpl;
      repeat split; reflexivity.
Qed.

(** X1. Whatever happens on the page (mounting and cleanup, messages,
    clicks, answers, form changes), what the log panel, the alerts and
    the console have shown stays as it was: each only grows at its
    end. *)
Theorem page_log_only_grows (acts : list Client.action) (w : App.world) :
  App.logs (App.st w) `prefix_of` App.logs (App.st (run acts w))
  ∧ App.alerts w `prefix_of` App.alerts (run acts w)
  ∧ App.errors w `prefix_of` App.errors (run acts w).
Proof.
  revert w. induction acts as [|a acts IH]; intros w; [repeat split; reflexivity|].
  destruct (act_appends a w) as (Hl & Ha & He).
  destruct (IH (act a w)) as (Hl' & Ha' & He').
  unfold Client.run in *. simpl.
  repeat split; etransitivity; eassumption.
Qed.

Lemma run_handler_status h m time s :
  App.status (App.run_handler h m time s) = App.status s
  ∨ App.status (App.run_handler h m time s) = "complete".
Proof.
  destruct h; simpl; try (left; reflexivity); [|right; reflexivity].
  destruct m as [? | ? | d |]; try (left; reflexivity). simpl.
  destruct (Z.eqb _ 0); left; reflexivity.
Qed.

Lemma handlers_status m time hs : ∀ s,
  let s' := fold_left (λ acc h, App.run_handler h m time acc) hs s in
  App.status s' = App.status s ∨ App.status s' = "complete".
Proof.
  induction hs as [|h hs IH]; intros s; simpl; [left; reflexivity|].
  destruct (IH (App.run_handler h m time s)) as [E | E]; [|right; exact E].
  rewrite E. apply run_handler_status.
Qed.

(** What one action can do to the status. *)
Lemma act_status a w :
  App.status (App.st (act a w)) = App.status (App.st w)
  ∨ App.status (App.st (act a w)) = "idle"
  ∨ App.status (App.st (act a w)) = "complete"
  ∨ (App.status (App.st (act a w)) = "training" ∧ Client.accepts a = true).
Proof.
  destruct a as [t | | | m t | t | t r | t r | n v]; simpl.
  - left. unfold App.mount.
    destruct (negb (Socket.connected (App.sock w))); reflexivity.
  - left; reflexivity.
  - left; reflexivity.
  - destruct (handlers_status m t
                (Socket.handlers_of (App.event_name m) (App.sock w))
                (App.st w)) as [E | E]; [left | right; right; left]; exact E.
  - left. destruct (ControlPanel.action _); reflexivity.
  - destruct r as [e | [|] [e | e | d]]; simpl;
      first [left; reflexivity | right; right; right; split; reflexivity].
  - destruct r; simpl; [right; left | left]; reflexivity.
  - left. destruct (ControlPanel.user_change _ _ _ _ _ _); reflexivity.
Qed.

Lemma run_training acts : ∀ w,
  App.status (App.st (run acts w)) = "training" →
  App.status (App.st w) = "training" ∨ existsb Client.accepts acts = true.
Proof.
  induction acts as [|a acts IH]; intros w Hs; [left; exact Hs|].
  unfold Client.run in *. simpl in *.
  destruct (IH _ Hs) as [Ha | Hex]; [|right; rewrite Hex; apply orb_true_r].
  destruct (act_status a w) as [E | [E | [E | [_ E]]]].
  - left. rewrite <- E. exact Ha.
  - rewrite E in Ha. discriminate Ha.
  - rewrite E in Ha. discriminate Ha.
  - right. rewrite E. reflexivity.
Qed.

Lemma run_status_values acts : ∀ w,
  Client.known_status (App.st w) →
  Client.known_status (App.st (run acts w)).
Proof.
  induction acts as [|a acts IH]; intros w Hw; [exact Hw|].
  unfold Client.run in *. simpl. apply IH. unfold Client.known_status.
  destruct (act_status a w) as [E | [E | [E | [E _]]]]; rewrite E; auto.
Qed.

(** X2. From a freshly loaded page, whatever happens, the status is
    one of 'idle', 'training' and 'complete', and it is 'training' only
    if a start request has been answered ok: no click, message or
    failed request puts the page into training on its own. *)
Theorem page_trains_only_after_accepted_start (acts : list Client.action) :
  let w := run acts App.fresh in
  Client.known_status (App.st w)
  ∧ (App.isTraining (App.st w) = true →
     ∃ time r, Client.StartAnswered time r ∈ acts ∧ App.accepted r = true).
Proof.
  split.
  - apply run_status_values. left. reflexivity.
  - intros Ht. apply String.eqb_eq in Ht.
    destruct (run_training acts App.fresh Ht) as [E | E]; [discriminate E|].
    apply existsb_exists in E as (a & Hin & Ha).
    destruct a; try discriminate Ha.
    eexists _, _. split; [apply list_elem_of_In, Hin | exact Ha].
Qed.
End ClientFacts.

(** ** The page in use: a new run, remounting, a late completion *)

Lemma receive_metrics m time w :
  Socket.listeners (App.sock w) = App.subscriptions →
  App.metrics (App.st (App.receive m time w))
  = match m with
    | App.TrainingUpdate d => Some d
    | _ => App.metrics (App.st w)
    end.
Proof.
  intros Hl. unfold App.receive, Socket.handlers_of. rewrite Hl.
  destruct m as [msg | msg | d |]; simpl; try reflexivity.
  destruct (Z.eqb (Z.rem (App.batch d) 100) 0); reflexivity.
Qed.

Lemma receive_all_metrics ms : ∀ w,
  Socket.listeners (App.sock w) = App.subscriptions →
  App.metrics (App.st (App.receive_all ms w))
  = match last (Client.updates (map fst ms)) with
    | Some d => Some d
    | None => App.metrics (App.st w)
    end.
Proof.
  induction ms as [|[m time] ms IH]; intros w Hl; [reflexivity|].
  destruct (receive_history m time w Hl) as [_ Hs].
  change (App.receive_all ((m, time) :: ms) w)
    with (App.receive_all ms (App.receive m time w)).
  rewrite IH by (rewrite Hs; exact Hl).
  rewrite (receive_metrics m time w Hl).
  destruct m as [? | ? | d |]; try reflexivity.
  change (Client.updates (map fst ((App.TrainingUpdate d, time) :: ms)))
    with (d :: Client.updates (map fst ms)).
  rewrite last_cons.
  destruct (last (Client.updates (map fst ms))); reflexivity.
Qed.

(** X3. On a mounted page, once a start request is answered ok the
    history holds exactly the progress events delivered since, in the
    order of delivery: nothing of an earlier run is left in the charts.
    The latest-metrics packet is not reset by the start: right after it
    the chart area shows its placeholder while the stat boxes still show
    the loss and accuracy of the run before, and they do so until the
    first event of the new run arrives. *)
Theorem new_run_history (t0 t1 : string) (fields : gmap string JS.value)
    (ms : list (App.message * string)) (w : App.world) :
  Socket.listeners (App.sock w) = App.subscriptions →
  let started := App.handleStart t0 t1 (App.Response true (App.Object fields)) w in
  let w' := App.receive_all ms started in
  App.history (App.st w') = Client.updates (map fst ms)
  ∧ MetricsPanel.chart (App.history (App.st started)) = MetricsPanel.Waiting
  ∧ MetricsPanel.loss_box (App.metrics (App.st started))
    = MetricsPanel.loss_box (App.metrics (App.st w))
  ∧ MetricsPanel.accuracy_box (App.metrics (App.st started))
    = MetricsPanel.accuracy_box (App.metrics (App.st w))
  ∧ App.metrics (App.st w')
    = match last (Client.updates (map fst ms)) with
      | Some d => Some d
      | None => App.metrics (App.st w)
      end.
Proof.
  intros Hl started w'.
  assert (Hs : Socket.listeners (App.sock started) = App.subscriptions)
    by exact Hl.
  split; [|do 3 (split; [reflexivity|])].
  - subst w'. rewrite (receive_all_history ms started Hs). reflexivity.
  - subst w'. rewrite (receive_all_metrics ms started Hs). reflexivity.
Qed.

Lemma new_run_history_witness :
  let w := App.mount "12:00:00" App.fresh in
  let d := App.mkProgress 1 10 938 (JS.Num 2) (JS.Num 11) [] "" [] in
  Socket.listeners (App.sock w) = App.subscriptions
  ∧ App.history
      (App.st (App.receive_all [(App.TrainingUpdate d, "12:00:02")]
                 (App.handleStart "12:00:00" "12:00:01"
                    (App.Response true (App.Object ∅)) w)))
    = [d].
Proof.
  split; [reflexivity|].
  apply (new_run_history "12:00:00" "12:00:01" ∅
           [(App.TrainingUpdate
               (App.mkProgress 1 10 938 (JS.Num 2) (JS.Num 11) [] "" []),
             "12:00:02")]
           (App.mount "12:00:00" App.fresh) eq_refl).
Defined.

Lemma filter_app_bool {A} (f : A → bool) (l l' : list A) :
  List.filter f (l ++ l') = List.filter f l ++ List.filter f l'.
Proof. apply List.filter_app. Qed.

Lemma handlers_of_subscribed {H} (name : string) (ls : list (string * H)) :
  App.subscribed name = true →
  List.filter (λ l, String.eqb (fst l) name)
    (List.filter (λ l, negb (App.subscribed (fst l))) ls) = [].
Proof.
  intros Hn. induction ls as [|[n h] ls IH]; [reflexivity|]. simpl.
  destruct (App.subscribed n) eqn:E; simpl; [exact IH|].
  destruct (String.eqb_spec n name) as [->|]; [congruence | exact IH].
Qed.

(** X4. React's strict mode mounts, cleans up and mounts again.  After
    that sequence the socket has, for each of the four events, exactly
    the one listener of the second mount, whatever listeners there were
    before; without the cleanup in between each event would have two,
    and a progress event would enter the history twice. *)
Theorem strict_mode_remount (t1 t2 t : string) (w : App.world)
    (m : App.message) (d : App.ProgressEvent) :
  let remounted := App.mount t2 (App.unmount (App.mount t1 w)) in
  let doubled := App.mount t2 (App.mount t1 App.fresh) in
  Socket.listeners (App.sock remounted)
    = List.filter (λ l, negb (App.subscribed (fst l)))
        (Socket.listeners (App.sock w)) ++ App.subscriptions
  ∧ Socket.handlers_of (App.event_name m) (App.sock remounted)
    = [App.listener_of m]
  ∧ Socket.handlers_of (App.event_name m) (App.sock doubled)
    = [App.listener_of m; App.listener_of m]
  ∧ App.history (App.st (App.receive (App.TrainingUpdate d) t doubled))
    = [d; d].
Proof.
  cbv zeta.
  assert (Hl : Socket.listeners
                 (App.sock (App.mount t2 (App.unmount (App.mount t1 w))))
               = List.filter (λ l, negb (App.subscribed (fst l)))
                   (Socket.listeners (App.sock w)) ++ App.subscriptions).
  { rewrite mount_listeners, unmount_listeners, mount_listeners.
    rewrite filter_app_bool. simpl. rewrite app_nil_r. reflexivity. }
  split; [exact Hl|]. split; [|split].
  - unfold Socket.handlers_of. rewrite Hl, filter_app_bool.
    rewrite handlers_of_subscribed by (destruct m; reflexivity).
    destruct m; reflexivity.
  - destruct m; reflexivity.
  - unfold App.receive. simpl.
    destruct (Z.eqb (Z.rem (App.batch d) 100) 0); reflexivity.
Qed.

(** X5. A stop request that is answered, whatever the answer says, puts
    the page to 'idle' and hides the upload widget, and leaves history
    and metrics on screen.  A completion message that arrives after it
    still sets the status to 'complete', and the upload widget is back,
    as for a model that finished training. *)
Theorem late_completion_after_stop (t0 t1 t : string) (answer : bool)
    (w : App.world) :
  Socket.listeners (App.sock w) = App.subscriptions →
  let stopped := App.handleStop t0 t1 (Some answer) w in
  let late := App.receive App.TrainingComplete t stopped in
  App.status (App.st stopped) = "idle"
  ∧ Client.showsUploadZone (App.st stopped) = false
  ∧ App.history (App.st stopped) = App.history (App.st w)
  ∧ App.metrics (App.st stopped) = App.metrics (App.st w)
  ∧ App.status (App.st late) = "complete"
  ∧ Client.showsUploadZone (App.st late) = true.
Proof.
  intros Hl. cbv zeta. do 4 (split; [reflexivity|]).
  unfold App.receive, Socket.handlers_of, App.handleStop. simpl.
  rewrite Hl. split; reflexivity.
Qed.

Lemma late_completion_after_stop_witness :
  let w := App.mount "12:00:00" App.fresh in
  Socket.listeners (App.sock w) = App.subscriptions
  ∧ App.status
      (App.st (App.receive App.TrainingComplete "12:00:03"
                 (App.handleStop "12:00:01" "12:00:02" (Some false) w)))
    = "complete".
Proof.
  split; [reflexivity|].
  apply (late_completion_after_stop "12:00:01" "12:00:02" "12:00:03" false
           (App.mount "12:00:00" App.fresh) eq_refl).
Defined.

(** X6. In strict mode the guard of the mount effect does not prevent
    the double connection: the cleanup between the two mounts finds the
    socket still opening, so it does not disconnect, and the second
    mount finds it not connected, so it calls [connect] and logs
    'Connecting to server...' a second time. *)
Theorem strict_mode_connects_twice (t1 t2 : string) (w : App.world) :
  Socket.state (App.sock w) = Socket.Closed →
  let remounted := App.mount t2 (App.unmount (App.mount t1 w)) in
  Socket.calls (App.sock remounted)
    = Socket.calls (App.sock w) ++ [Socket.Connect; Socket.Connect]
  ∧ Socket.state (App.sock remounted) = Socket.Opening
  ∧ App.logs (App.st remounted)
    = App.logs (App.st w)
      ++ [(t1, [JS.Lit "Connecting to server..."]);
          (t2, [JS.Lit "Connecting to server..."])].
Proof.
  intros Hc. cbv zeta.
  destruct w as [s [c ls cs] al er]. simpl in Hc. subst c.
  unfold App.mount, App.unmount, Socket.connectSocket,
    Socket.disconnectSocket, Socket.connected. simpl.
  rewrite <- !app_assoc. repeat split; reflexivity.
Qed.

Lemma strict_mode_connects_twice_witness :
  Socket.state (App.sock App.fresh) = Socket.Closed
  ∧ Socket.calls
      (App.sock (App.mount "12:00:01"
                   (App.unmount (App.mount "12:00:00" App.fresh))))
    = [Socket.Connect; Socket.Connect].
Proof.
  split; [reflexivity|].
  apply (strict_mode_connects_twice "12:00:00" "12:00:01" App.fresh eq_refl).
Defined.

(** ** ControlPanel: changes in a row *)

(** X7. Of two changes to the same field the later one wins, as if the
    earlier had not been made; changes to different fields can be made
    in either order. *)
Theorem handleChange_compose (parseFloat : string → JS.number)
    (parseInt : string → Z → JS.number) (n n' v v' : string)
    (cfg : gmap string JS.value) :
  let change := ControlPanel.handleChange parseFloat parseInt in
  change n v' (change n v cfg) = change n v' cfg
  ∧ (n ≠ n' → change n' v' (change n v cfg) = change n v (change n' v' cfg)).
Proof.
  cbv zeta. unfold ControlPanel.handleChange. split.
  - apply insert_insert_eq.
  - intros Hn. apply insert_insert_ne. congruence.
Qed.

(** ** HeatmapViewer: the selected layer *)

Lemma lenet_match {A} (s : string) (a b : A) :
  match s with "lenet" => a | _ => b end
  = if String.eqb s "lenet" then a else b.
Proof.
  do 5 (destruct s as [|[[] [] [] [] [] [] [] []] s]; try reflexivity).
  destruct s; reflexivity.
Qed.

Lemma initial_layer_spec (c : gmap string JS.value) :
  HeatmapViewer.initial_layer (Some c)
  = match JS.get c "architecture" with
    | JS.VStr s => if String.eqb s "lenet" then "conv1.weight" else "fc1.weight"
    | _ => "fc1.weight"
    end.
Proof.
  unfold HeatmapViewer.initial_layer.
  destruct (JS.get c "architecture") as [| | b | n | s]; try reflexivity.
  apply lenet_match.
Qed.

Lemma layers_of_cases (v : JS.value) :
  (v = JS.VStr "mlp" ∨ v = JS.VStr "lenet" ∨ v = JS.VStr "resnet")
  ∨ (∃ s, v = JS.VStr s ∧ HeatmapViewer.inherited s = true
          ∧ HeatmapViewer.layers_of v = HeatmapViewer.Inherited)
  ∨ HeatmapViewer.layers_of v = HeatmapViewer.Missing.
Proof.
  destruct v as [| | b | n | s]; try (right; right; reflexivity). simpl.
  destruct (decide (s = "mlp")) as [->|H1]; [left; auto|].
  destruct (decide (s = "lenet")) as [->|H2]; [left; auto|].
  destruct (decide (s = "resnet")) as [->|H3]; [left; auto|].
  right. rewrite ARCH_LAYERS_unknown by assumption.
  destruct (HeatmapViewer.inherited s) eqn:E; [left | right; reflexivity].
  exists s. repeat split; assumption.
Qed.

(** X8. Whenever the config names an architecture of the table, the
    layer the effect selects is one of the options of the layer menu.
    Whenever the menu can be rendered, the layer the component starts
    with (the one its first request asks for) is one of the options
    too, except for 'resnet', where it is 'fc1.weight', which the
    resnet list does not have.  The menu cannot be rendered exactly
    when the architecture is the name of a member every object
    inherits. *)
Theorem selected_layer_is_listed (cfg : option (gmap string JS.value))
    (layer : string) :
  (∀ table, HeatmapViewer.table_of cfg = HeatmapViewer.Table table →
   ∃ l options,
     HeatmapViewer.on_config cfg layer = Some l
     ∧ HeatmapViewer.layer_options cfg = Some options
     ∧ l ∈ map fst options)
  ∧ match HeatmapViewer.layer_options cfg with
    | Some options =>
        (HeatmapViewer.initial_layer cfg ∈ map fst options
         ↔ ∀ c, cfg = Some c → JS.get c "architecture" ≠ JS.VStr "resnet")
        ∧ ¬ ∃ c s, cfg = Some c ∧ JS.get c "architecture" = JS.VStr s
                   ∧ HeatmapViewer.inherited s = true
    | None =>
        ∃ c s, cfg = Some c ∧ JS.get c "architecture" = JS.VStr s
               ∧ HeatmapViewer.inherited s = true
    end.
Proof.
  split.
  - intros table Ht.
    unfold HeatmapViewer.on_config, HeatmapViewer.layer_options,
      HeatmapViewer.currentLayers.
    rewrite Ht.
    destruct cfg as [c|]; [|discriminate Ht]. simpl in Ht.
    destruct (layers_of_cases (JS.get c "architecture"))
      as [[E|[E|E]]|[(s & E & Hs & Hl)|E]];
      try (rewrite E in Ht; vm_compute in Ht; injection Ht as <-;
           eexists _, _; split; [reflexivity|]; split; [reflexivity|];
           simpl; apply list_elem_of_here).
    + rewrite Hl in Ht. discriminate Ht.
    + rewrite E in Ht. discriminate Ht.
  - destruct cfg as [c|].
    2:{ simpl. split.
        - split; [intros _ c [=]|]. intros _. vm_compute.
          apply list_elem_of_here.
        - intros (c & s & [=] & _). }
    rewrite initial_layer_spec.
    unfold HeatmapViewer.layer_options, HeatmapViewer.currentLayers,
      HeatmapViewer.table_of.
    destruct (layers_of_cases (JS.get c "architecture"))
      as [[E|[E|E]]|[(s & E & Hs & Hl)|E]].
    + rewrite E. split.
      * split; [intros _ c' [= <-]; rewrite E; discriminate|].
        intros _. vm_compute. apply list_elem_of_here.
      * intros (c' & s & [= <-] & Hs & Hi). rewrite E in Hs.
        injection Hs as <-. vm_compute in Hi. discriminate Hi.
    + rewrite E. split.
      * split; [intros _ c' [= <-]; rewrite E; discriminate|].
        intros _. vm_compute. apply list_elem_of_here.
      * intros (c' & s & [= <-] & Hs & Hi). rewrite E in Hs.
        injection Hs as <-. vm_compute in Hi. discriminate Hi.
    + rewrite E. split.
      * split.
        -- intros Hin. exfalso.
           change (map fst _)
             with ["model.conv1.weight"; "model.layer1.0.conv1.weight";
                   "model.layer2.0.conv1.weight"; "model.fc.weight"] in Hin.
           rewrite !elem_of_cons, elem_of_nil in Hin.
           destruct Hin as [Hin|[Hin|[Hin|[Hin|[]]]]]; discriminate Hin.
        -- intros Hc. exfalso. exact (Hc c eq_refl E).
      * intros (c' & s & [= <-] & Hs & Hi). rewrite E in Hs.
        injection Hs as <-. vm_compute in Hi. discriminate Hi.
    + rewrite Hl. exists c, s. repeat split; assumption.
    + rewrite E. simpl. split.
      * split.
        -- intros _ c' [= <-] E'. rewrite E' in E. vm_compute in E.
           discriminate E.
        -- intros _.
           destruct (JS.get c "architecture") as [| | b | n | s];
             try (vm_compute; apply list_elem_of_here).
           destruct (String.eqb_spec s "lenet") as [->|_];
             [vm_compute in E; discriminate E|].
           vm_compute. apply list_elem_of_here.
      * intros (c' & s & [= <-] & Hs & Hi). rewrite Hs in E. simpl in E.
        destruct (HeatmapViewer.ARCH_LAYERS !! s); [discriminate E|].
        rewrite Hi in E. discriminate E.
Qed.

(** ** HeatmapViewer: the life of a poller *)

Lemma poll_step_busy e s :
  let p := snd s in
  let p' := snd (HeatmapViewer.poll_step e s) in
  (HeatmapViewer.timeoutId p = None ∨ HeatmapViewer.inflight p = None) →
  (HeatmapViewer.isMounted p = true →
   HeatmapViewer.timeoutId p ≠ None ∨ HeatmapViewer.inflight p ≠ None) →
  (HeatmapViewer.isMounted p = false → HeatmapViewer.timeoutId p = None) →
  (HeatmapViewer.timeoutId p' = None ∨ HeatmapViewer.inflight p' = None)
  ∧ (HeatmapViewer.isMounted p' = true →
     HeatmapViewer.timeoutId p' ≠ None ∨ HeatmapViewer.inflight p' ≠ None)
  ∧ (HeatmapViewer.isMounted p' = false → HeatmapViewer.timeoutId p' = None).
Proof.
  destruct s as [data [m t i]]. cbv zeta. simpl. intros H1 H2 H3.
  destruct e as [now r | now |]; simpl.
  - unfold HeatmapViewer.fetchWeights_receive. simpl.
    destruct i as [start|]; [|simpl; auto].
    destruct H1 as [-> | [=]].
    destruct r as [|[nd|]]; simpl;
      try destruct (m && HeatmapViewer.truthy_tensor nd); simpl;
      destruct m; simpl; intuition congruence.
  - unfold HeatmapViewer.timer_fired. simpl.
    destruct t as [d|]; simpl; intuition congruence.
  - intuition congruence.
Qed.

(** X9. A poller started while training does one thing at a time and
    never stalls: whatever answers arrive and timers fire, it never has
    a timer pending and a request in flight at once, and until its
    cleanup it always has one of the two; every timer it waits on lasts
    between 500 and 2000 ms, or 3000 ms. *)
Theorem polling_one_at_a_time (t0 : Z) (data : option HeatmapViewer.tensor)
    (es : list HeatmapViewer.poll_event) :
  let p := snd (HeatmapViewer.poll_run es
                  (data, HeatmapViewer.start_polling true t0)) in
  (HeatmapViewer.timeoutId p = None ∨ HeatmapViewer.inflight p = None)
  ∧ (HeatmapViewer.isMounted p = true →
     HeatmapViewer.timeoutId p ≠ None ∨ HeatmapViewer.inflight p ≠ None)
  ∧ (HeatmapViewer.isMounted p = true ↔ HeatmapViewer.CleanedUp ∉ es)
  ∧ HeatmapViewer.timer_ok p.
Proof.
  cbv zeta.
  assert (Hm : ∀ es s,
    HeatmapViewer.isMounted (snd (HeatmapViewer.poll_run es s)) = true
    ↔ HeatmapViewer.isMounted (snd s) = true ∧ HeatmapViewer.CleanedUp ∉ es).
  { clear. induction es as [|e es IH]; intros s.
    - simpl. split; [intros Hs; split; [exact Hs | apply not_elem_of_nil]|].
      intros [Hs _]. exact Hs.
    - change (HeatmapViewer.poll_run (e :: es) s)
        with (HeatmapViewer.poll_run es (HeatmapViewer.poll_step e s)).
      rewrite IH, not_elem_of_cons.
      destruct s as [data [m t i]]. destruct e as [now r | now |]; simpl.
      + unfold HeatmapViewer.fetchWeights_receive. simpl.
        destruct i as [start|]; simpl.
        * destruct r as [|[nd|]]; simpl;
            try destruct (m && HeatmapViewer.truthy_tensor nd); simpl;
            (split; [intros [? ?]; repeat split; auto; discriminate
                    | intros [? [_ ?]]; split; auto]).
        * split; [intros [? ?]; repeat split; auto; discriminate
                 | intros [? [_ ?]]; split; auto].
      + unfold HeatmapViewer.timer_fired. simpl.
        destruct t; simpl;
          (split; [intros [? ?]; repeat split; auto; discriminate
                  | intros [? [_ ?]]; split; auto]).
      + split; [intros [[=] _] | intros [_ [Hc _]]; contradiction]. }
  assert (Hinv : ∀ es s,
    let p := snd s in
    (HeatmapViewer.timeoutId p = None ∨ HeatmapViewer.inflight p = None) →
    (HeatmapViewer.isMounted p = true →
     HeatmapViewer.timeoutId p ≠ None ∨ HeatmapViewer.inflight p ≠ None) →
    (HeatmapViewer.isMounted p = false → HeatmapViewer.timeoutId p = None) →
    let p' := snd (HeatmapViewer.poll_run es s) in
    (HeatmapViewer.timeoutId p' = None ∨ HeatmapViewer.inflight p' = None)
    ∧ (HeatmapViewer.isMounted p' = true →
       HeatmapViewer.timeoutId p' ≠ None ∨ HeatmapViewer.inflight p' ≠ None)).
  { clear. induction es as [|e es IH]; intros s p H1 H2 H3; [split; assumption|].
    destruct (poll_step_busy e s H1 H2 H3) as (H1' & H2' & H3').
    exact (IH (HeatmapViewer.poll_step e s) H1' H2' H3'). }
  destruct (Hinv es (data, HeatmapViewer.start_polling true t0)) as [H1 H2];
    simpl; auto; try discriminate.
  split; [exact H1|]. split; [exact H2|]. split.
  - rewrite Hm. simpl. split; [intros [_ Hc]; exact Hc | intros Hc; auto].
  - apply poll_run_timer_ok. intros d [=].
Qed.

(** X10. The cleanup of a polling effect is final: whatever happens
    after it, including the answer to a request that was in flight, the
    data stays as it was and no timer is set again. *)
Theorem polling_cleanup_is_final (data : option HeatmapViewer.tensor)
    (p : HeatmapViewer.poller) (es : list HeatmapViewer.poll_event) :
  let s := HeatmapViewer.poll_run (HeatmapViewer.CleanedUp :: es) (data, p) in
  fst s = data
  ∧ HeatmapViewer.timeoutId (snd s) = None
  ∧ HeatmapViewer.isMounted (snd s) = false.
Proof.
  cbv zeta.
  change (HeatmapViewer.poll_run (HeatmapViewer.CleanedUp :: es) (data, p))
    with (HeatmapViewer.poll_run es (data, HeatmapViewer.cleanup p)).
  assert (Hc : HeatmapViewer.timeoutId (HeatmapViewer.cleanup p) = None
               ∧ HeatmapViewer.isMounted (HeatmapViewer.cleanup p) = false)
    by (split; reflexivity).
  revert Hc. generalize (HeatmapViewer.cleanup p). clear p.
  induction es as [|e es IH]; intros p [Ht Hm]; [repeat split; assumption|].
  change (HeatmapViewer.poll_run (e :: es) (data, p))
    with (HeatmapViewer.poll_run es (HeatmapViewer.poll_step e (data, p))).
  destruct p as [m t i]. simpl in Ht, Hm. subst m t.
  destruct e as [now r | now |]; simpl.
  - unfold HeatmapViewer.fetchWeights_receive. simpl.
    destruct i as [start|]; simpl; [|apply IH; split; reflexivity].
    destruct r as [|[nd|]]; simpl; apply IH; split; reflexivity.
  - apply IH; split; reflexivity.
  - apply IH; split; reflexivity.
Qed.

(** ** HeatmapViewer: what is drawn for any payload *)

Section HeatmapDrawing.
Context `{Hfmt : JS.Doubles}.
Import HeatmapViewer.

Lemma draw_rows (first : list tensor) (rest : list tensor) :
  let rows := TArr first :: rest in
  draw (Some (TArr rows))
  = ClearRect (JS.Num 0) (JS.Num 0) canvas_width canvas_height
      :: concat (imap (draw_row (maxVal_of rows)
                         (JS.div canvas_width (of_nat (length first)))
                         (JS.div canvas_height (of_nat (length rows)))
                         (length first))
                      rows).
Proof. reflexivity. Qed.

Lemma draw_row_fills maxVal cw ch cols i row :
  Forall (λ o, is_fill o = true) (draw_row maxVal cw ch cols i row)
  ∧ length (draw_row maxVal cw ch cols i row)
    = if isArray row then cols else 0%nat.
Proof.
  unfold draw_row. destruct (isArray row); [|split; [constructor | reflexivity]].
  split; [|rewrite length_map, length_seq; reflexivity].
  apply Forall_map, Forall_forall. intros j _. reflexivity.
Qed.

Lemma imap_rows_count (cols : nat) (rows : list tensor) :
  ∀ g : nat → tensor → list op,
  (∀ i row, Forall (λ o, is_fill o = true) (g i row)
            ∧ length (g i row) = if isArray row then cols else 0%nat) →
  Forall (λ o, is_fill o = true) (concat (imap g rows))
  ∧ length (concat (imap g rows))
    = (cols * length (List.filter isArray rows))%nat.
Proof.
  induction rows as [|row rows IH]; intros g Hg.
  { split; [constructor | simpl; lia]. }
  rewrite imap_cons. simpl.
  destruct (IH (g ∘ S)) as [Hf Hl]; [intros i r; apply Hg|].
  destruct (Hg 0%nat row) as [Hf0 Hl0].
  split; [apply Forall_app; split; assumption|].
  rewrite length_app, Hl, Hl0. simpl.
  destruct (isArray row); simpl; lia.
Qed.

Lemma in_draw_rows (rows : list tensor) maxVal cw ch cols i j c x y w h :
  In (FillRect i j c x y w h)
     (concat (imap (draw_row maxVal cw ch cols) rows)) →
  ∃ row, rows !! i = Some row ∧ isArray row = true ∧ (j < cols)%nat
         ∧ c = cell_color (normalize maxVal (index row j)).
Proof.
  intros Hin. apply in_concat in Hin as (l & Hl & Hin).
  apply list_elem_of_In, elem_of_lookup_imap in Hl as (i' & row & -> & Hrow).
  unfold draw_row in Hin. destruct (isArray row) eqn:Ha; [|destruct Hin].
  apply in_map_iff in Hin as (j' & Heq & Hj).
  injection Heq as ? ? ? ? ? ? ?. subst.
  apply in_seq in Hj. exists row.
  split; [assumption|]. split; [assumption|]. split; [lia | reflexivity].
Qed.

Lemma nan_color (maxVal : JS.number) (val : option tensor) :
  toNumber_opt val = JS.NaN →
  cell_color (normalize maxVal val) = (JS.NaN, JS.NaN, JS.Num 255).
Proof.
  intros Hv. unfold normalize. rewrite Hv. reflexivity.
Qed.

Lemma row_max_nan (items : list tensor) :
  ∀ a, (a = JS.NaN ∨ ∃ v, v ∈ items ∧ toNumber v = JS.NaN) →
  fold_left (λ m v, JS.max m (JS.abs (toNumber v))) items a = JS.NaN.
Proof.
  induction items as [|v items IH]; intros a Ha.
  { destruct Ha as [-> | (v & Hv & _)]; [reflexivity|].
    apply elem_of_nil in Hv. destruct Hv. }
  simpl. apply IH. destruct Ha as [-> | (v' & Hv & Hn)]; [left; reflexivity|].
  apply elem_of_cons in Hv as [-> | Hv].
  - left. rewrite Hn. destruct a as [q | [] |]; reflexivity.
  - right. exists v'. split; assumption.
Qed.

Lemma mat_max_nan (rows : list tensor) :
  ∀ a, (a = JS.NaN
        ∨ ∃ items v, TArr items ∈ rows ∧ v ∈ items ∧ toNumber v = JS.NaN) →
  fold_left
    (λ maxVal row,
       match row with
       | TArr r => fold_left (λ m v, JS.max m (JS.abs (toNumber v))) r maxVal
       | TNum _ => maxVal
       end) rows a = JS.NaN.
Proof.
  induction rows as [|row rows IH]; intros a Ha.
  { destruct Ha as [-> | (items & v & Hr & _)]; [reflexivity|].
    apply elem_of_nil in Hr. destruct Hr. }
  simpl. apply IH.
  destruct Ha as [-> | (items & v & Hr & Hv & Hn)].
  - left. destruct row as [q | r]; [reflexivity|].
    apply row_max_nan. left. reflexivity.
  - apply elem_of_cons in Hr as [<- | Hr].
    + left. apply row_max_nan. right. exists v. split; assumption.
    + right. exists items, v. repeat split; assumption.
Qed.

(** X11. The canvas effect draws nothing unless the data is a non-empty
    array whose first element is an array.  When it draws, it clears
    the canvas first and then fills one rectangle per column of the
    first row for each row that is an array, skipping the rows that are
    not: the number of cells painted is the length of the first row
    times the number of array rows. *)
Theorem draw_guard_and_count (data : option tensor) :
  match data with
  | Some (TArr ((TArr first :: _) as rows)) =>
      ∃ fills,
        draw data
        = ClearRect (JS.Num 0) (JS.Num 0) canvas_width canvas_height :: fills
        ∧ Forall (λ o, is_fill o = true) fills
        ∧ length fills
          = (length first * length (List.filter isArray rows))%nat
  | _ => draw data = []
  end.
Proof.
  destruct data as [[q | [|[q | first] rest]]|]; try reflexivity.
  rewrite draw_rows. eexists. split; [reflexivity|].
  apply imap_rows_count. intros i row. apply draw_row_fills.
Qed.

(** X12. Every cell painted is cell (i, j) of a row of the data that is
    an array, colored from its value normalised by the maximum over the
    whole payload.  A cell that has no number to show (the row is
    shorter than the first row, or the entry is an array of two or more
    items, as in the weights of a convolution) is painted with the
    channels NaN, NaN, 255. *)
Theorem draw_cell_without_number (data : option tensor) (i j : nat)
    (c : color) (x y w h : JS.number) :
  In (FillRect i j c x y w h) (draw data) →
  ∃ rows row,
    data = Some (TArr rows) ∧ rows !! i = Some row ∧ isArray row = true
    ∧ c = cell_color (normalize (maxVal_of rows) (index row j))
    ∧ (toNumber_opt (index row j) = JS.NaN →
       c = (JS.NaN, JS.NaN, JS.Num 255)).
Proof.
  intros Hin.
  destruct data as [[q | [|[q | first] rest]]|]; try (exfalso; exact Hin).
  rewrite draw_rows in Hin. destruct Hin as [Hc | Hin]; [discriminate Hc|].
  apply in_draw_rows in Hin as (row & Hrow & Ha & _ & ->).
  exists (TArr first :: rest), row. repeat split; try assumption.
  apply nan_color.
Qed.

End HeatmapDrawing.

Lemma draw_cell_without_number_witness :
  let data :=
    Some (HeatmapViewer.TArr
            [HeatmapViewer.TArr [HeatmapViewer.TNum 1; HeatmapViewer.TNum 2];
             HeatmapViewer.TArr [HeatmapViewer.TNum 3]]) in
  let o := HeatmapViewer.FillRect 1 1 (JS.NaN, JS.NaN, JS.Num 255)
             (JS.Num (800 # 2)) (JS.Num (400 # 2))
             (JS.Num (800 # 2)) (JS.Num (400 # 2)) in
  In o (HeatmapViewer.draw (H := JS.exact) data)
  ∧ ∃ rows row,
      data = Some (HeatmapViewer.TArr rows) ∧ rows !! 1%nat = Some row
      ∧ HeatmapViewer.isArray row = true
      ∧ (JS.NaN, JS.NaN, JS.Num 255)
        = HeatmapViewer.cell_color (H := JS.exact)
            (HeatmapViewer.normalize (H := JS.exact)
               (HeatmapViewer.maxVal_of rows) (HeatmapViewer.index row 1))
      ∧ (HeatmapViewer.toNumber_opt (HeatmapViewer.index row 1) = JS.NaN →
         (JS.NaN, JS.NaN, JS.Num 255) = (JS.NaN, JS.NaN, JS.Num 255)).
Proof.
  assert (Hin : In (HeatmapViewer.FillRect 1 1 (JS.NaN, JS.NaN, JS.Num 255)
                      (JS.Num (800 # 2)) (JS.Num (400 # 2))
                      (JS.Num (800 # 2)) (JS.Num (400 # 2)))
                   (HeatmapViewer.draw (H := JS.exact)
                      (Some (HeatmapViewer.TArr
                         [HeatmapViewer.TArr
                            [HeatmapViewer.TNum 1; HeatmapViewer.TNum 2];
                          HeatmapViewer.TArr [HeatmapViewer.TNum 3]])))).
  { vm_compute. do 4 right. left. reflexivity. }
  split; [exact Hin|].
  exact (draw_cell_without_number (Hfmt := JS.exact) _ _ _ _ _ _ _ _ Hin).
Defined.

(** ** HeatmapViewer: colors without normalisation *)

Section HeatmapRawColors.
Import JS HeatmapViewer.
Context `{Hlaws : DoublesLaws}.
Open Scope Q_scope.

Lemma finite_above (k : Z) (q : Q) :
  (0 < k ≤ 2 ^ 53)%Z → inject_Z k <= q →
  (∃ r, finite q = Num r ∧ inject_Z k <= r) ∨ finite q = Inf false.
Proof.
  intros Hk Hq.
  assert (Hr : inject_Z k <= round q).
  { rewrite <- (round_integer k) by lia. apply round_mono, Hq. }
  assert (H0 : 0 < round q).
  { eapply Qlt_le_trans; [|exact Hr].
    change 0 with (inject_Z 0). rewrite <- Zlt_Qlt. lia. }
  unfold finite. cbv zeta.
  destruct (Qle_bool (Qabs (round q)) max_value); [left; eauto|].
  right. unfold Qltb.
  assert (E : Qle_bool 0 (round q) = true) by (apply Qle_bool_iff; lra).
  rewrite E. reflexivity.
Qed.

Lemma finite_below (k : Z) (q : Q) :
  (- 2 ^ 53 ≤ k < 0)%Z → q <= inject_Z k →
  (∃ r, finite q = Num r ∧ r <= inject_Z k) ∨ finite q = Inf true.
Proof.
  intros Hk Hq.
  assert (Hr : round q <= inject_Z k).
  { rewrite <- (round_integer k) by lia. apply round_mono, Hq. }
  assert (H0 : round q < 0).
  { eapply Qle_lt_trans; [exact Hr|].
    change 0 with (inject_Z 0). rewrite <- Zlt_Qlt. lia. }
  unfold finite. cbv zeta.
  destruct (Qle_bool (Qabs (round q)) max_value); [left; eauto|].
  right. unfold Qltb.
  destruct (Qle_bool 0 (round q)) eqn:E; [|reflexivity].
  apply Qle_bool_iff in E. lra.
Qed.

(** 255 times a number at most -1: at most -255, or -Infinity. *)
Lemma faded_below (n : number) :
  (∃ r, n = Num r ∧ r <= inject_Z (-1)) ∨ n = Inf true →
  at_most (-255) (mul (Num 255) n).
Proof.
  intros [(r & -> & Hr) | ->]; [|reflexivity].
  cbn [mul].
  destruct (finite_below (-255) (255 * r)) as [(b & -> & Hb) | ->];
    [lia | unfold inject_Z in *; lra | | reflexivity].
  unfold at_most, inject_Z in *. lra.
Qed.

Lemma at_most_out_of_range (g : number) :
  at_most (-255) g →
  ¬ in_range (Num 255, g, g) ∧ ¬ in_range (g, g, Num 255).
Proof.
  destruct g as [x | neg |]; simpl; intros Hg; [|tauto..].
  split; intros H0; lra.
Qed.

(** The color of a value of absolute value 2 or more that is divided
    by 1: red with green and blue at most -255 (or -Infinity) for a
    positive value, blue with red and green so for a negative one. *)
Lemma raw_color (q : Q) :
  2 <= Qabs q →
  ∃ g, at_most (-255) g
       ∧ cell_color (div (Num q) (Num 1))
         = (if Qle_bool 0 q then (Num 255, g, g) else (g, g, Num 255)).
Proof.
  intros Hq.
  assert (Hdiv : div (Num q) (Num 1) = finite (q / 1)) by reflexivity.
  rewrite Hdiv. clear Hdiv.
  assert (Hq1 : q / 1 == q) by (field).
  destruct (Qle_bool 0 q) eqn:Es.
  - apply Qle_bool_iff in Es. rewrite Qabs_pos in Hq by lra.
    assert (Hn : (∃ r, finite (q / 1) = Num r ∧ inject_Z 2 <= r)
                 ∨ finite (q / 1) = Inf false).
    { apply finite_above; [lia|]. rewrite Hq1. unfold inject_Z. lra. }
    assert (Hs : (∃ r, sub (Num 1) (finite (q / 1)) = Num r
                       ∧ r <= inject_Z (-1))
                 ∨ sub (Num 1) (finite (q / 1)) = Inf true).
    { destruct Hn as [(r & -> & Hr) | ->]; [|right; reflexivity].
      unfold sub, neg. cbn [add]. apply finite_below; [lia|].
      unfold inject_Z in *. lra. }
    assert (Hg : gt (finite (q / 1)) (Num 0) = true).
    { destruct Hn as [(r & -> & Hr) | ->]; [|reflexivity].
      unfold gt, Qltb.
      destruct (Qle_bool r 0) eqn:E; [|reflexivity].
      apply Qle_bool_iff in E. unfold inject_Z in Hr. lra. }
    unfold cell_color. rewrite Hg. cbv zeta.
    eexists. split; [exact (faded_below _ Hs) | reflexivity].
  - apply Qle_bool_false in Es. rewrite Qabs_neg in Hq by lra.
    assert (Hn : (∃ r, finite (q / 1) = Num r ∧ r <= inject_Z (-2))
                 ∨ finite (q / 1) = Inf true).
    { apply finite_below; [lia|]. rewrite Hq1. unfold inject_Z. lra. }
    assert (Hs : (∃ r, add (Num 1) (finite (q / 1)) = Num r
                       ∧ r <= inject_Z (-1))
                 ∨ add (Num 1) (finite (q / 1)) = Inf true).
    { destruct Hn as [(r & -> & Hr) | ->]; [|right; reflexivity].
      cbn [add]. apply finite_below; [lia|]. unfold inject_Z in *. lra. }
    assert (Hg : gt (finite (q / 1)) (Num 0) = false).
    { destruct Hn as [(r & -> & Hr) | ->]; [|reflexivity].
      unfold gt, Qltb.
      assert (E : Qle_bool r 0 = true)
        by (apply Qle_bool_iff; unfold inject_Z in Hr; lra).
      rewrite E. reflexivity. }
    unfold cell_color. rewrite Hg. cbv zeta.
    eexists. split; [exact (faded_below _ Hs) | reflexivity].
Qed.

(** X13. One entry that does not convert to a number (an array of two
    or more items) anywhere in an array row of the payload makes the
    maximum NaN, and the values are then divided by 1: nothing is
    normalised.  Every cell painted for a weight of absolute value 2 or
    more then gets a color outside 0..255: for a positive weight red
    255 with green and blue at most -255 (or -Infinity), for a negative
    one blue 255 with red and green so. *)
Theorem nan_cell_disables_normalization (rows items : list tensor)
    (v row : tensor) (i j : nat) (q : Q) (c : color) (x y w h : number) :
  TArr items ∈ rows → v ∈ items → toNumber v = NaN →
  In (FillRect i j c x y w h) (draw (Some (TArr rows))) →
  rows !! i = Some row → index row j = Some (TNum q) → 2 <= Qabs q →
  maxVal_of rows = NaN
  ∧ c = cell_color (div (Num q) (Num 1))
  ∧ (∃ g, at_most (-255) g
          ∧ c = (if Qle_bool 0 q then (Num 255, g, g) else (g, g, Num 255)))
  ∧ ¬ in_range c.
Proof.
  intros Hr Hv Hn Hin Hrow Hcell Hq.
  assert (Hm : maxVal_of rows = NaN).
  { apply mat_max_nan. right. exists items, v. repeat split; assumption. }
  assert (Hc : c = cell_color (div (Num q) (Num 1))).
  { destruct rows as [|[q0 | first] rest]; try (exfalso; exact Hin).
    rewrite draw_rows in Hin. destruct Hin as [Hd | Hin]; [discriminate Hd|].
    apply in_draw_rows in Hin as (row' & Hrow' & _ & _ & ->).
    rewrite Hrow in Hrow'. injection Hrow' as <-.
    rewrite Hm, Hcell. reflexivity. }
  split; [exact Hm|]. split; [exact Hc|].
  destruct (raw_color q Hq) as (g & Hg & Hcol).
  rewrite <- Hc in Hcol.
  split; [exists g; split; assumption|].
  rewrite Hcol. destruct (at_most_out_of_range g Hg) as [Hp Hneg].
  destruct (Qle_bool 0 q); assumption.
Qed.

End HeatmapRawColors.

Lemma nan_cell_disables_normalization_witness :
  let kernel := HeatmapViewer.TArr [HeatmapViewer.TNum 1; HeatmapViewer.TNum 1] in
  let items := [HeatmapViewer.TNum 2; kernel] in
  let rows := [HeatmapViewer.TArr items] in
  let c := (JS.Num 255, JS.Num (-255), JS.Num (-255)) in
  (HeatmapViewer.TArr items ∈ rows ∧ kernel ∈ items
   ∧ HeatmapViewer.toNumber kernel = JS.NaN
   ∧ In (HeatmapViewer.FillRect 0 0 c (JS.Num (0 # 2)) (JS.Num 0)
           (JS.Num (800 # 2)) (JS.Num 400))
        (HeatmapViewer.draw (H := JS.exact) (Some (HeatmapViewer.TArr rows)))
   ∧ rows !! 0%nat = Some (HeatmapViewer.TArr items)
   ∧ HeatmapViewer.index (HeatmapViewer.TArr items) 0
     = Some (HeatmapViewer.TNum 2)
   ∧ (2 <= Qabs 2)%Q)
  ∧ HeatmapViewer.maxVal_of rows = JS.NaN
  ∧ ¬ HeatmapViewer.in_range c.
Proof.
  cbv zeta.
  assert (H1 : HeatmapViewer.TArr
                 [HeatmapViewer.TNum 2;
                  HeatmapViewer.TArr [HeatmapViewer.TNum 1; HeatmapViewer.TNum 1]]
               ∈ [HeatmapViewer.TArr
                    [HeatmapViewer.TNum 2;
                     HeatmapViewer.TArr
                       [HeatmapViewer.TNum 1; HeatmapViewer.TNum 1]]])
    by apply list_elem_of_here.
  assert (H2 : HeatmapViewer.TArr [HeatmapViewer.TNum 1; HeatmapViewer.TNum 1]
               ∈ [HeatmapViewer.TNum 2;
                  HeatmapViewer.TArr
                    [HeatmapViewer.TNum 1; HeatmapViewer.TNum 1]])
    by (apply list_elem_of_further, list_elem_of_here).
  assert (H3 : In (HeatmapViewer.FillRect 0 0
                     (JS.Num 255, JS.Num (-255), JS.Num (-255))
                     (JS.Num (0 # 2)) (JS.Num 0) (JS.Num (800 # 2))
                     (JS.Num 400))
                  (HeatmapViewer.draw (H := JS.exact)
                     (Some (HeatmapViewer.TArr
                        [HeatmapViewer.TArr
                           [HeatmapViewer.TNum 2;
                            HeatmapViewer.TArr
                              [HeatmapViewer.TNum 1; HeatmapViewer.TNum 1]]])))).
  { vm_compute. right. left. reflexivity. }
  assert (H4 : (2 <= Qabs 2)%Q) by (vm_compute; discriminate).
  split; [repeat split; solve [assumption | reflexivity]|].
  destruct (nan_cell_disables_normalization (Hlaws := exact_laws)
              _ _ _ _ _ _ _ _ _ _ _ _ H1 H2 eq_refl H3 eq_refl eq_refl H4)
    as (Hm & _ & _ & Hc).
  split; [exact Hm | exact Hc].
Defined.

(** ** HeatmapViewer: the footer *)

Lemma flat_rows_of (m : list (list Q)) :
  HeatmapViewer.flat (HeatmapViewer.rows_of m)
  = map HeatmapViewer.TNum (concat m).
Proof.
  unfold HeatmapViewer.flat, HeatmapViewer.rows_of.
  induction m as [|r m IH]; [reflexivity|].
  simpl. rewrite map_app. f_equal. exact IH.
Qed.

Lemma maxVal_of_flat (m : list (list Q)) : ∀ a,
  fold_left
    (λ maxVal row,
       match row with
       | HeatmapViewer.TArr r =>
           fold_left (λ m v, JS.max m (JS.abs (HeatmapViewer.toNumber v))) r maxVal
       | HeatmapViewer.TNum _ => maxVal
       end) (HeatmapViewer.rows_of m) a
  = fold_left JS.max (map (λ q, JS.Num (Qabs q)) (concat m)) a.
Proof.
  induction m as [|r m IH]; intros a; [reflexivity|].
  simpl. rewrite IH, map_app, fold_left_app. f_equal.
  clear. revert a. induction r as [|q r IH]; intros a; [reflexivity|].
  simpl. apply IH.
Qed.

Lemma matrix_maxima (m : list (list Q)) :
  let rows := HeatmapViewer.rows_of m in
  let args :=
    map (λ v, JS.abs (HeatmapViewer.toNumber v)) (HeatmapViewer.flat rows) in
  length args = length (concat m)
  ∧ (concat m ≠ [] → JS.max_of args = HeatmapViewer.maxVal_of rows)
  ∧ (concat m = [] →
     JS.max_of args = JS.Inf true ∧ HeatmapViewer.maxVal_of rows = JS.Num 0).
Proof.
  cbv zeta. split; [rewrite flat_rows_of, !length_map; reflexivity|].
  unfold HeatmapViewer.maxVal_of, JS.max_of.
  rewrite maxVal_of_flat, flat_rows_of, map_map.
  change (map (λ x, JS.abs (HeatmapViewer.toNumber (HeatmapViewer.TNum x))))
    with (map (λ q, JS.Num (Qabs q))).
  destruct (concat m) as [|q qs].
  - split; [intros Hn; contradiction|]. intros _. split; reflexivity.
  - split; [|intros [=]]. intros _. simpl.
    destruct (Qle_bool 0 (Qabs q)) eqn:E; [reflexivity|].
    exfalso. pose proof (Qabs_nonneg q) as Hq.
    apply Qle_bool_iff in Hq. congruence.
Qed.

(** X14. For a matrix of numbers with no more cells than the host
    accepts as arguments of one call, the footer reads 'rows x columns
    of the first row' and, as soon as the matrix has a cell, its Max
    Val is the very maximum the canvas normalises with; without any
    cell the two differ: the canvas takes 0 and the footer shows
    -Infinity.  With more cells than that the render throws a
    RangeError, and it throws nothing else for a matrix. *)
Theorem footer_max_is_canvas_max (arguments_limit : nat) (r0 : list Q)
    (rest : list (list Q)) :
  let m := r0 :: rest in
  let rows := HeatmapViewer.rows_of m in
  let cells := length (concat m) in
  match HeatmapViewer.footer arguments_limit (Some (HeatmapViewer.matrix m)) with
  | HeatmapViewer.Shown displaying max_val =>
      (cells ≤ arguments_limit)%nat
      ∧ displaying
        = [JS.Val (JS.VNum (HeatmapViewer.of_nat (length m))); JS.Lit "x";
           JS.Val (JS.VNum (HeatmapViewer.of_nat (length r0)))]
      ∧ ∃ M, max_val = [JS.Fixed M 5]
             ∧ (cells ≠ 0%nat → M = HeatmapViewer.maxVal_of rows)
             ∧ (cells = 0%nat →
                M = JS.Inf true ∧ HeatmapViewer.maxVal_of rows = JS.Num 0)
  | HeatmapViewer.Throws e =>
      e = HeatmapViewer.RangeError ∧ (arguments_limit < cells)%nat
  end.
Proof.
  cbv zeta.
  destruct (matrix_maxima (r0 :: rest)) as (Hlen & Hsome & Hnone).
  unfold HeatmapViewer.footer, HeatmapViewer.matrix,
    HeatmapViewer.footer_max.
  cbn [HeatmapViewer.truthy_tensor HeatmapViewer.index HeatmapViewer.rows_of
       map lookup list_lookup].
  change (HeatmapViewer.TArr (map HeatmapViewer.TNum r0)
          :: map (λ r, HeatmapViewer.TArr (map HeatmapViewer.TNum r)) rest)
    with (HeatmapViewer.rows_of (r0 :: rest)).
  rewrite Hlen.
  destruct (Nat.leb_spec (length (concat (r0 :: rest))) arguments_limit)
    as [Hle | Hgt]; [|split; [reflexivity | exact Hgt]].
  split; [exact Hle|]. split.
  { unfold HeatmapViewer.length_of, HeatmapViewer.rows_of.
    rewrite !length_map. reflexivity. }
  eexists. split; [reflexivity|]. split.
  - intros Hc. apply Hsome. intros E. rewrite E in Hc. contradiction.
  - intros Hc. apply Hnone.
    destruct (concat (r0 :: rest)); [reflexivity | discriminate Hc].
Qed.

(** X15. A response whose entry for the layer is an empty array is
    taken as new data (an empty array is truthy); with it the canvas
    effect draws nothing and the render throws a TypeError, since the
    footer reads [data[0].length].  The render throws a TypeError
    exactly for an empty array and for a non-zero number, and a
    RangeError exactly for a non-empty array that has, flattened one
    level, more entries than the host accepts as arguments of one
    call. *)
Theorem empty_payload_breaks_render `{JS.Doubles} (arguments_limit : nat)
    (now start : Z) (data d : option HeatmapViewer.tensor) (tid : option Z) :
  let answered :=
    HeatmapViewer.fetchWeights_receive now
      (HeatmapViewer.Entry (Some (HeatmapViewer.TArr []))) data
      (HeatmapViewer.mkPoller true tid (Some start)) in
  let data' := fst (fst answered) in
  let footer := HeatmapViewer.footer arguments_limit in
  data' = Some (HeatmapViewer.TArr [])
  ∧ HeatmapViewer.draw data' = []
  ∧ footer data' = HeatmapViewer.Throws HeatmapViewer.TypeError
  ∧ (footer d = HeatmapViewer.Throws HeatmapViewer.TypeError
     ↔ d = Some (HeatmapViewer.TArr [])
       ∨ ∃ q, d = Some (HeatmapViewer.TNum q) ∧ ¬ (q == 0)%Q)
  ∧ (footer d = HeatmapViewer.Throws HeatmapViewer.RangeError
     ↔ ∃ first rest,
         d = Some (HeatmapViewer.TArr (first :: rest))
         ∧ (arguments_limit
            < length (HeatmapViewer.flat (first :: rest)))%nat).
Proof.
  cbv zeta. do 3 (split; [reflexivity|]).
  destruct d as [[q | [|first rows]]|].
  - unfold HeatmapViewer.footer. simpl.
    destruct (Qeq_bool q 0) eqn:E; simpl.
    + apply Qeq_bool_iff in E. split.
      * split; [intros [=]|].
        intros [[=] | (q' & [= <-] & Hq)]. contradiction.
      * split; [intros [=] | intros (f & r & [=] & _)].
    + split.
      * split; [|reflexivity]. intros _. right. exists q.
        split; [reflexivity|].
        intros Hq. apply Qeq_bool_iff in Hq. congruence.
      * split; [intros [=] | intros (f & r & [=] & _)].
  - split.
    + split; [left|]; reflexivity.
    + split; [intros [=] | intros (f & r & [=] & _)].
  - unfold HeatmapViewer.footer, HeatmapViewer.footer_max.
    cbn [HeatmapViewer.truthy_tensor HeatmapViewer.index lookup list_lookup].
    rewrite length_map.
    destruct (Nat.leb_spec
                (length (HeatmapViewer.flat (first :: rows))) arguments_limit)
      as [Hle | Hgt].
    + split.
      * split; [intros [=]|]. intros [[=] | (q & [=] & _)].
      * split; [intros [=]|]. intros (f & r & [= <- <-] & Hlt). lia.
    + split.
      * split; [intros [=]|]. intros [[=] | (q & [=] & _)].
      * split; [|reflexivity]. intros _. exists first, rows.
        split; [reflexivity | exact Hgt].
  - split.
    + split; [intros [=]|]. intros [[=] | (q & [=] & _)].
    + split; [intros [=] | intros (f & r & [=] & _)].
Qed.

(** ** UploadZone: selections and answers in any order *)

Lemma upload_run_cons e es w :
  UploadZone.run (e :: es) w = UploadZone.run es (UploadZone.step e w).
Proof. reflexivity. Qed.

Lemma upload_receive_image r w :
  UploadZone.image (UploadZone.st (UploadZone.handleFileChange_receive r w))
  = UploadZone.image (UploadZone.st w).
Proof. destruct r as [e | ok [e | e | d]]; reflexivity. Qed.

Lemma upload_receive_prediction r w :
  UploadZone.prediction
    (UploadZone.st (UploadZone.handleFileChange_receive r w))
  = default (UploadZone.prediction (UploadZone.st w)) (UploadZone.stored r).
Proof. destruct r as [e | ok [e | e | d]]; reflexivity. Qed.

Lemma upload_receive_alerts r w :
  UploadZone.alerts (UploadZone.handleFileChange_receive r w)
  = UploadZone.alerts w
    ++ match UploadZone.stored r with
       | Some _ => []
       | None => [[JS.Lit "Prediction failed"]]
       end.
Proof.
  destruct r as [e | ok [e | e | d]]; simpl; rewrite ?app_nil_r; reflexivity.
Qed.

Lemma upload_bodies_answered r es :
  UploadZone.bodies (UploadZone.Answered r :: es)
  = match UploadZone.stored r with
    | Some b => b :: UploadZone.bodies es
    | None => UploadZone.bodies es
    end.
Proof. unfold UploadZone.bodies. simpl. destruct (UploadZone.stored r); reflexivity. Qed.

Lemma upload_failures_answered r es :
  UploadZone.failures (UploadZone.Answered r :: es)
  = match UploadZone.stored r with
    | Some _ => UploadZone.failures es
    | None => S (UploadZone.failures es)
    end.
Proof.
  unfold UploadZone.failures. simpl. destruct (UploadZone.stored r); reflexivity.
Qed.

(** X16. Whatever files are chosen and whatever answers arrive, in
    whatever order: the preview is the last file chosen, the prediction
    displayed is the body of the last answer that could be parsed (ok
    or not), and each answer that failed raised one alert and left the
    prediction as it was.  Preview and prediction are set independently
    of each other. *)
Theorem upload_fields_follow_last_event (es : list UploadZone.event)
    (w : UploadZone.world) :
  let w' := UploadZone.run es w in
  UploadZone.image (UploadZone.st w')
    = match last (UploadZone.previews es) with
      | Some url => Some url
      | None => UploadZone.image (UploadZone.st w)
      end
  ∧ UploadZone.prediction (UploadZone.st w')
    = default (UploadZone.prediction (UploadZone.st w))
              (last (UploadZone.bodies es))
  ∧ UploadZone.alerts w'
    = UploadZone.alerts w
      ++ replicate (UploadZone.failures es) [JS.Lit "Prediction failed"].
Proof.
  cbv zeta. revert w. induction es as [|e es IH]; intros w.
  { simpl. rewrite app_nil_r. repeat split; reflexivity. }
  rewrite upload_run_cons.
  destruct (IH (UploadZone.step e w)) as (Hi & Hp & Ha).
  rewrite Hi, Hp, Ha. clear IH Hi Hp Ha.
  destruct e as [[url|] | r].
  - change (UploadZone.previews (UploadZone.Chosen (Some url) :: es))
      with (url :: UploadZone.previews es).
    rewrite last_cons.
    split; [destruct (last (UploadZone.previews es)); reflexivity|].
    split; reflexivity.
  - repeat split; reflexivity.
  - simpl UploadZone.step.
    rewrite upload_receive_image, upload_receive_prediction,
      upload_receive_alerts.
    split; [reflexivity|].
    rewrite upload_bodies_answered, upload_failures_answered.
    destruct (UploadZone.stored r) as [b|]; simpl.
    + rewrite app_nil_r, last_cons. split; [|reflexivity].
      destruct (last (UploadZone.bodies es)); reflexivity.
    + rewrite <- app_assoc. split; reflexivity.
Qed.

(** X17. The loading flag follows the last event only: any answer
    clears it, also while another request is still on its way.  With
    two files chosen in a row and one answer back, the widget shows no
    'Predicting...' although one request is unanswered, and it shows
    the second file's preview over whatever the answer held, be it the
    prediction for the first file. *)
Theorem upload_loading_ignores_outstanding (es : list UploadZone.event)
    (r : App.fetch_result) (a b : string) (ok : bool)
    (d : gmap string JS.value) (w : UploadZone.world) :
  let race := [UploadZone.Chosen (Some a); UploadZone.Chosen (Some b);
               UploadZone.Answered (App.Response ok (App.Object d))] in
  UploadZone.loading
    (UploadZone.st (UploadZone.run (es ++ [UploadZone.Answered r]) w)) = false
  ∧ UploadZone.loading
      (UploadZone.st (UploadZone.run (es ++ [UploadZone.Chosen (Some a)]) w))
    = true
  ∧ (UploadZone.sent race = 2%nat ∧ UploadZone.answered race = 1%nat)
  ∧ UploadZone.st (UploadZone.run race w)
    = UploadZone.mkState (Some d) (Some b) false.
Proof.
  cbv zeta. unfold UploadZone.run. rewrite !fold_left_app. simpl.
  split; [reflexivity|]. split; [reflexivity|]. split; [split|]; reflexivity.
Qed.

(** ** ArchitectureCanvas: the topology drawn *)

Lemma find_app_first {A} (f : A → bool) (l1 l2 : list A) :
  List.find f (l1 ++ l2)
  = match List.find f l1 with
    | Some x => Some x
    | None => List.find f l2
    end.
Proof.
  induction l1 as [|a l1 IH]; [reflexivity|].
  simpl. destruct (f a); [reflexivity | exact IH].
Qed.

Lemma mapM_all_Some {A B} (f : A → option B) (g : A → B) (l : list A) :
  (∀ x, x ∈ l → f x = Some (g x)) → mapM f l = Some (map g l).
Proof.
  induction l as [|a l IH]; intros Hf; [reflexivity|].
  simpl. rewrite (Hf a) by apply list_elem_of_here. simpl.
  rewrite IH by (intros x Hx; apply Hf, list_elem_of_further, Hx).
  reflexivity.
Qed.

Lemma mapM_imap_Some {A B} (l : list A) :
  ∀ (f : nat → A → option B) (g : nat → A → B),
  (∀ i x, l !! i = Some x → f i x = Some (g i x)) →
  mapM (λ o, o) (imap f l) = Some (imap g l).
Proof.
  induction l as [|a l IH]; intros f g Hf; [reflexivity|].
  rewrite !imap_cons. simpl. rewrite (Hf 0%nat a eq_refl). simpl.
  rewrite (IH (f ∘ S) (g ∘ S)) by (intros i x Hx; apply (Hf (S i)), Hx).
  reflexivity.
Qed.

Lemma length_concat_imap {A} (l : list nat) :
  ∀ g : nat → nat → list A,
  (∀ i c, length (g i c) = c) →
  length (concat (imap g l)) = sum_list l.
Proof.
  induction l as [|c l IH]; intros g Hg; [reflexivity|].
  rewrite imap_cons. simpl. rewrite length_app, Hg.
  rewrite (IH (g ∘ S)) by (intros i c'; apply Hg). reflexivity.
Qed.

Section CanvasFacts.
Context `{Hfmt : JS.Doubles}.
Import ArchitectureCanvas.
Variables (sp gh : JS.number).

Lemma find_in_layer (l count i : nat) : ∀ len start,
  (start ≤ i < start + len)%nat →
  find_neuron l i (map (neuron_at sp gh l count) (seq start len))
  = Some (neuron_at sp gh l count i).
Proof.
  induction len as [|len IH]; intros start Hi; [lia|].
  simpl. unfold find_neuron in *. simpl. rewrite Nat.eqb_refl. simpl.
  destruct (Nat.eqb_spec start i) as [->|Hne]; [reflexivity|].
  apply IH. lia.
Qed.

Lemma find_in_other_layer (l l' count i : nat) : l ≠ l' → ∀ len start,
  find_neuron l' i (map (neuron_at sp gh l count) (seq start len)) = None.
Proof.
  intros Hl. induction len as [|len IH]; intros start; [reflexivity|].
  simpl. unfold find_neuron in *. simpl.
  destruct (Nat.eqb_spec l l') as [E|_]; [contradiction|]. simpl. apply IH.
Qed.

Lemma find_in_neurons (layers : list nat) : ∀ k l count i,
  layers !! l = Some count → (i < count)%nat →
  find_neuron (k + l) i
    (concat (imap (λ n, layer_neurons sp gh (k + n)) layers))
  = Some (neuron_at sp gh (k + l) count i).
Proof.
  induction layers as [|c layers IH]; intros k l count i Hl Hi;
    [discriminate Hl|].
  rewrite imap_cons. simpl concat. unfold find_neuron.
  rewrite find_app_first. fold (find_neuron (k + l) i).
  rewrite (imap_ext _ (λ n, layer_neurons sp gh (S k + n)))
    by (intros n x _; simpl; f_equal; lia).
  destruct l as [|l].
  - injection Hl as ->. unfold layer_neurons.
    fold (find_neuron (k + 0) i
            (map (neuron_at sp gh (k + 0) count) (seq 0 count))).
    rewrite find_in_layer by lia. reflexivity.
  - unfold layer_neurons at 1.
    fold (find_neuron (k + S l) i
            (map (neuron_at sp gh (k + 0) c) (seq 0 c))).
    rewrite find_in_other_layer by lia.
    fold (find_neuron (k + S l) i).
    replace (k + S l)%nat with (S k + l)%nat by lia.
    apply IH; assumption.
Qed.

Lemma find_neuron_of (layers : list nat) (l count i : nat) :
  layers !! l = Some count → (i < count)%nat →
  find_neuron l i (neurons_of sp gh layers)
  = Some (neuron_at sp gh l count i).
Proof. intros Hl Hi. exact (find_in_neurons layers 0 l count i Hl Hi). Qed.

Lemma layer_links_full (layers : list nat) (l count : nat) :
  layers !! l = Some count →
  layer_links (neurons_of sp gh layers) layers l count
  = Some match layers !! (l + 1)%nat with
         | Some nextCount =>
             map (λ ij, line_between l (neuron_at sp gh l count (fst ij))
                          (neuron_at sp gh (l + 1) nextCount (snd ij)))
                 (list_prod (seq 0 count) (seq 0 nextCount))
         | None => []
         end.
Proof.
  intros Hl. unfold layer_links.
  pose proof (lookup_lt_Some _ _ _ Hl) as Hlt.
  destruct (Nat.eqb_spec l (length layers - 1)) as [E|E].
  { rewrite (lookup_ge_None_2 layers (l + 1)) by lia. reflexivity. }
  destruct (layers !! (l + 1)%nat) as [next|] eqn:Hn; [|reflexivity].
  apply mapM_all_Some. intros [i j] Hij.
  apply list_elem_of_In, in_prod_iff in Hij as [Hi Hj].
  apply in_seq in Hi, Hj. unfold link. simpl.
  rewrite (find_neuron_of layers l count i Hl) by lia. simpl.
  rewrite (find_neuron_of layers (l + 1) next j Hn) by lia. reflexivity.
Qed.

Lemma connections_full (layers : list nat) :
  connections (neurons_of sp gh layers) layers
  = Some (full_links sp gh layers).
Proof.
  unfold connections, full_links.
  erewrite mapM_imap_Some; [reflexivity|].
  intros l count Hl. simpl. apply layer_links_full, Hl.
Qed.

Lemma length_full_links (layers : list nat) :
  length (full_links sp gh layers) = links_count layers.
Proof.
  unfold full_links.
  assert (Hgen : ∀ ls k,
    (∀ n, ls !! n = layers !! (k + n)%nat) →
    length
      (concat
         (imap (λ n count,
                  match layers !! (k + n + 1)%nat with
                  | Some nextCount =>
                      map (λ ij,
                             line_between (k + n)
                               (neuron_at sp gh (k + n) count (fst ij))
                               (neuron_at sp gh (k + n + 1) nextCount (snd ij)))
                          (list_prod (seq 0 count) (seq 0 nextCount))
                  | None => []
                  end) ls))
    = links_count ls).
  { induction ls as [|c ls IH]; intros k Hs; [reflexivity|].
    rewrite imap_cons. simpl concat. rewrite length_app.
    rewrite (imap_ext _
               (λ n count,
                  match layers !! (S k + n + 1)%nat with
                  | Some nextCount =>
                      map (λ ij,
                             line_between (S k + n)
                               (neuron_at sp gh (S k + n) count (fst ij))
                               (neuron_at sp gh (S k + n + 1) nextCount
                                  (snd ij)))
                          (list_prod (seq 0 count) (seq 0 nextCount))
                  | None => []
                  end)).
    2:{ intros n x _. simpl.
        replace (k + S n)%nat with (S (k + n)) by lia. reflexivity. }
    rewrite IH.
    2:{ intros n. specialize (Hs (S n)). simpl in Hs. rewrite Hs.
        f_equal. lia. }
    replace (k + 0 + 1)%nat with (k + 1)%nat by lia.
    rewrite <- (Hs 1%nat). destruct ls as [|c' ls]; simpl.
    - reflexivity.
    - rewrite length_map, length_prod, !length_seq. reflexivity. }
  exact (Hgen layers 0%nat (λ n, eq_refl)).
Qed.

Lemma length_neurons_of (layers : list nat) :
  length (neurons_of sp gh layers) = sum_list layers.
Proof.
  apply length_concat_imap. intros l c. unfold layer_neurons.
  rewrite length_map, length_seq. reflexivity.
Qed.

End CanvasFacts.

(** X18. On a mounted canvas with a config and a width that is not 0,
    the topology effect never throws: every [find] of the link loops
    comes back with the neuron meant, so the links drawn are exactly
    those of the fully connected layout, one from each neuron of a
    layer to each neuron of the next, and there is one circle per
    neuron. *)
Theorem topology_is_drawn `{JS.Doubles} (config : gmap string JS.value)
    (dimensions : ArchitectureCanvas.dims) :
  JS.is_zero (ArchitectureCanvas.width dimensions) = false →
  let layers := ArchitectureCanvas.getLayerSizes config in
  let m := ArchitectureCanvas.margin in
  let graphWidth :=
    JS.sub (JS.sub (ArchitectureCanvas.width dimensions)
              (ArchitectureCanvas.left m)) (ArchitectureCanvas.right m) in
  let graphHeight :=
    JS.sub (JS.sub (ArchitectureCanvas.height dimensions)
              (ArchitectureCanvas.top m)) (ArchitectureCanvas.bottom m) in
  let layerSpacing := ArchitectureCanvas.layerSpacing_of graphWidth layers in
  ∃ s, ArchitectureCanvas.draw_topology (Some config) dimensions
       = ArchitectureCanvas.Drawn s
       ∧ ArchitectureCanvas.lines s
         = ArchitectureCanvas.full_links layerSpacing graphHeight layers
       ∧ length (ArchitectureCanvas.lines s)
         = ArchitectureCanvas.links_count layers
       ∧ length (ArchitectureCanvas.circles s) = sum_list layers.
Proof.
  intros Hw. cbv zeta. unfold ArchitectureCanvas.draw_topology.
  rewrite Hw. simpl negb. cbv iota. rewrite connections_full.
  eexists. split; [reflexivity|]. simpl.
  split; [reflexivity|]. split; [apply length_full_links|].
  rewrite length_map. apply length_neurons_of.
Qed.

Lemma topology_is_drawn_witness :
  let dimensions := ArchitectureCanvas.mkDims (JS.Num 860) (JS.Num 440) in
  JS.is_zero (ArchitectureCanvas.width dimensions) = false
  ∧ ∃ s, ArchitectureCanvas.draw_topology (H := JS.exact)
           (Some (App.appConfig App.initial)) dimensions
         = ArchitectureCanvas.Drawn s
         ∧ length (ArchitectureCanvas.lines s) = 632%nat
         ∧ length (ArchitectureCanvas.circles s) = 58%nat.
Proof.
  split; [reflexivity|].
  destruct (topology_is_drawn (H := JS.exact) (App.appConfig App.initial)
              (ArchitectureCanvas.mkDims (JS.Num 860) (JS.Num 440)) eq_refl)
    as (s & Hs & _ & Hl & Hc).
  exists s. split; [exact Hs|]. split; [exact Hl | exact Hc].
Defined.

(** ** ArchitectureCanvas: sizing *)

Section CanvasSizing.
Import JS ArchitectureCanvas.
Context `{Hlaws : DoublesLaws}.
Open Scope Q_scope.

Lemma same_size_close (a : Q) :
  lt (abs (sub (Num a) (Num a))) (Num 2) = true.
Proof.
  unfold sub, neg, add.
  destruct (finite_between 0 0 (a + - a) ltac:(lia) ltac:(lia))
    as (E & Hlo & Hhi); [unfold inject_Z; lra | unfold inject_Z; lra |].
  rewrite E. unfold abs, lt, gt, Qltb.
  destruct (Qle_bool 2 (Qabs (round (a + - a)))) eqn:E2; [|reflexivity].
  apply Qle_bool_iff in E2. exfalso.
  assert (Hr : round (a + - a) == 0)
    by (apply Qle_antisym; [exact Hhi | exact Hlo]).
  rewrite Hr in E2. change (Qabs 0) with 0 in E2. lra.
Qed.

(** X19. The size kept by [updateDims] is always within the tolerance
    of the rectangle last measured, so measuring the same rectangle
    again hands back the state it was given (React then skips the
    render and nothing is redrawn): the update is idempotent. *)
Theorem updateDims_settles (w h : Q) (measured : option dims) (prev : dims) :
  let m := mkDims (Num w) (Num h) in
  within_tolerance (updateDims (Some m) prev) m = true
  ∧ updateDims (Some m) (updateDims (Some m) prev) = updateDims (Some m) prev
  ∧ updateDims measured (updateDims measured prev) = updateDims measured prev.
Proof.
  cbv zeta.
  assert (Hclose : within_tolerance (updateDims (Some (mkDims (Num w) (Num h))) prev)
                     (mkDims (Num w) (Num h)) = true).
  { unfold updateDims.
    destruct (within_tolerance prev (mkDims (Num w) (Num h))) eqn:E;
      [exact E|].
    unfold within_tolerance. simpl width. simpl height.
    rewrite !same_size_close. reflexivity. }
  split; [exact Hclose|]. split.
  - unfold updateDims at 1. rewrite Hclose. reflexivity.
  - destruct measured as [m|]; [|reflexivity]. unfold updateDims.
    destruct (within_tolerance prev m) eqn:E; [rewrite E; reflexivity|].
    destruct (within_tolerance m m); reflexivity.
Qed.

End CanvasSizing.

Lemma updateDims_settles_witness :
  let m := ArchitectureCanvas.mkDims (JS.Num 860) (JS.Num 440) in
  let prev := ArchitectureCanvas.mkDims (JS.Num 0) (JS.Num 0) in
  ArchitectureCanvas.updateDims (H := JS.exact) (Some m) prev = m
  ∧ ArchitectureCanvas.within_tolerance (H := JS.exact)
      (ArchitectureCanvas.updateDims (H := JS.exact) (Some m) prev) m = true.
Proof.
  split; [reflexivity|].
  apply (updateDims_settles (H := JS.exact) (Hlaws := exact_laws) 860 440
           None (ArchitectureCanvas.mkDims (JS.Num 0) (JS.Num 0))).
Defined.

(** ** ArchitectureCanvas: the output bars *)

Lemma bar_fill_green (q : Q) :
  String.eqb (ArchitectureCanvas.bar_fill (JS.Num q)) "#4ade80"
  = negb (Qle_bool q (1 # 2)).
Proof.
  unfold ArchitectureCanvas.bar_fill. simpl. unfold JS.Qltb.
  destruct (Qle_bool q (1 # 2)); reflexivity.
Qed.

Lemma green_bars_sum (qs : list Q) :
  Forall (λ q, 0 <= q)%Q qs →
  (0 <= ArchitectureCanvas.total qs)%Q
  ∧ ((1 ≤ length (ArchitectureCanvas.green_bars (map JS.Num qs)))%nat →
     (1 # 2 < ArchitectureCanvas.total qs)%Q)
  ∧ ((2 ≤ length (ArchitectureCanvas.green_bars (map JS.Num qs)))%nat →
     (1 < ArchitectureCanvas.total qs)%Q).
Proof.
  induction 1 as [|q qs Hq Hqs (IH0 & IH1 & IH2)].
  { simpl. split; [lra|]. split; intros Hl; lia. }
  unfold ArchitectureCanvas.green_bars in *.
  cbn [map List.filter ArchitectureCanvas.total fold_right].
  fold (ArchitectureCanvas.total qs).
  rewrite bar_fill_green.
  destruct (Qle_bool q (1 # 2)) eqn:E; cbn [negb length].
  - split; [lra|].
    split; intros Hl; [specialize (IH1 Hl) | specialize (IH2 Hl)]; lra.
  - apply Qle_bool_false in E. split; [lra|]. split; intros Hl; [lra|].
    assert (Hl' : (1 ≤ length
                     (List.filter
                        (λ d, String.eqb (ArchitectureCanvas.bar_fill d) "#4ade80")
                        (map JS.Num qs)))%nat) by lia.
    specialize (IH1 Hl'). lra.
Qed.

(** X20. When the outputs are probabilities (none negative, summing to
    at most 1), at most one output bar is green: the threshold is
    strictly above one half. *)
Theorem at_most_one_green_bar (qs : list Q) :
  Forall (λ q, 0 <= q)%Q qs → (ArchitectureCanvas.total qs <= 1)%Q →
  (length (ArchitectureCanvas.green_bars (map JS.Num qs)) ≤ 1)%nat.
Proof.
  intros Hq Ht. destruct (green_bars_sum qs Hq) as (_ & _ & H2).
  destruct (le_lt_dec (length (ArchitectureCanvas.green_bars (map JS.Num qs))) 1)
    as [Hle|Hgt]; [exact Hle|].
  specialize (H2 Hgt). lra.
Qed.

Lemma at_most_one_green_bar_witness :
  let qs := [7 # 10; 2 # 10; 1 # 10]%Q in
  (Forall (λ q, 0 <= q)%Q qs ∧ (ArchitectureCanvas.total qs <= 1)%Q)
  ∧ (length (ArchitectureCanvas.green_bars (map JS.Num qs)) ≤ 1)%nat.
Proof.
  assert (Hq : Forall (λ q, 0 <= q)%Q [7 # 10; 2 # 10; 1 # 10]%Q)
    by (repeat constructor; discriminate).
  assert (Ht : (ArchitectureCanvas.total [7 # 10; 2 # 10; 1 # 10] <= 1)%Q)
    by (vm_compute; discriminate).
  split; [split; assumption|].
  exact (at_most_one_green_bar _ Hq Ht).
Defined.

(** ** The page in use: the config and the connection *)

Lemma editable_names (cfg : gmap string JS.value) (b : bool) (n : string) :
  ControlPanel.editable cfg b n = true →
  n = "dataset" ∨ n = "architecture" ∨ n = "lr" ∨ n = "epochs"
  ∨ n = "batch_size".
Proof.
  unfold ControlPanel.editable, ControlPanel.control_named,
    ControlPanel.controls. cbn -[String.eqb].
  destruct (String.eqb_spec "dataset" n); [auto|].
  destruct (String.eqb_spec "architecture" n); [auto|].
  destruct (String.eqb_spec "lr" n); [auto|].
  destruct (String.eqb_spec "epochs" n); [auto|].
  destruct (String.eqb_spec "batch_size" n); [auto 6|]. discriminate.
Qed.

Lemma handleChange_shape parseFloat parseInt (n v : string)
    (cfg : gmap string JS.value) :
  n = "dataset" ∨ n = "architecture" ∨ n = "lr" ∨ n = "epochs"
  ∨ n = "batch_size" →
  Client.config_shape cfg →
  Client.config_shape (ControlPanel.handleChange parseFloat parseInt n v cfg).
Proof.
  intros Hn (Hd & H1 & H2 & H3 & H4 & H5).
  unfold Client.config_shape, ControlPanel.handleChange.
  destruct Hn as [-> | [-> | [-> | [-> | ->]]]]; cbn -[dom];
    rewrite dom_insert_L, Hd;
    (split; [set_solver|]);
    rewrite ?lookup_insert_eq, ?(lookup_insert_ne cfg) by discriminate;
    repeat split; eauto.
Qed.

Section ConfigFacts.
Variable parseFloat : string → JS.number.
Variable parseInt : string → Z → JS.number.

Lemma act_config_shape (a : Client.action) (w : App.world) :
  Client.config_shape (App.appConfig (App.st w)) →
  Client.config_shape
    (App.appConfig (App.st (Client.act parseFloat parseInt a w))).
Proof.
  intros Hw.
  assert (Hh : ∀ hs m time s,
    App.appConfig (fold_left (λ acc h, App.run_handler h m time acc) hs s)
    = App.appConfig s).
  { induction hs as [|h hs IH]; intros m time s; [reflexivity|].
    simpl. rewrite IH. destruct h; try reflexivity.
    destruct m as [? | ? | d |]; try reflexivity. simpl.
    destruct (Z.eqb _ 0); reflexivity. }
  destruct a as [time | | | m time | time | time r | time r | n v]; simpl.
  - unfold App.mount.
    destruct (negb (Socket.connected (App.sock w))); exact Hw.
  - exact Hw.
  - exact Hw.
  - unfold App.receive. simpl. rewrite Hh. exact Hw.
  - destruct (ControlPanel.action (App.isTraining (App.st w))); exact Hw.
  - destruct r as [e | [|] [e | e | d]]; exact Hw.
  - destruct r; exact Hw.
  - unfold ControlPanel.user_change.
    destruct (ControlPanel.editable _ _ n) eqn:E; [|exact Hw].
    simpl. apply handleChange_shape; [|exact Hw].
    exact (editable_names _ _ _ E).
Qed.

Lemma json_number_field (cfg : gmap string JS.value) (k : string)
    (n : JS.number) :
  cfg !! k = Some (JS.VNum n) →
  ∃ v, JS.JSON_stringify cfg !! k = Some v ∧ Client.json_number v.
Proof.
  intros Hk. unfold JS.JSON_stringify. rewrite lookup_omap, Hk. simpl.
  destruct n as [q | neg |]; eexists; (split; [reflexivity|]);
    unfold Client.json_number; eauto.
Qed.

Lemma stringify_shape (cfg : gmap string JS.value) :
  Client.config_shape cfg → Client.posted_shape (JS.JSON_stringify cfg).
Proof.
  intros (Hd & [s1 H1] & [s2 H2] & [n3 H3] & [n4 H4] & [n5 H5]).
  unfold Client.posted_shape. split.
  { rewrite <- Hd. apply set_eq. intros k.
    unfold JS.JSON_stringify. rewrite !elem_of_dom, lookup_omap. split.
    - intros [v Hv]. destruct (cfg !! k); [eauto | discriminate Hv].
    - intros Hk. apply elem_of_dom in Hk. rewrite Hd in Hk.
      assert (Hn : k = "dataset" ∨ k = "architecture" ∨ k = "lr"
                   ∨ k = "epochs" ∨ k = "batch_size")
        by (set_unfold in Hk; intuition).
      destruct Hn as [-> | [-> | [-> | [-> | ->]]]].
      + rewrite H1. eexists. reflexivity.
      + rewrite H2. eexists. reflexivity.
      + destruct (json_number_field cfg _ _ H3) as (v & Hv & _).
        unfold JS.JSON_stringify in Hv. rewrite lookup_omap in Hv.
        rewrite Hv. eauto.
      + destruct (json_number_field cfg _ _ H4) as (v & Hv & _).
        unfold JS.JSON_stringify in Hv. rewrite lookup_omap in Hv.
        rewrite Hv. eauto.
      + destruct (json_number_field cfg _ _ H5) as (v & Hv & _).
        unfold JS.JSON_stringify in Hv. rewrite lookup_omap in Hv.
        rewrite Hv. eauto. }
  split; [exists s1; unfold JS.JSON_stringify; rewrite lookup_omap, H1;
          reflexivity|].
  split; [exists s2; unfold JS.JSON_stringify; rewrite lookup_omap, H2;
          reflexivity|].
  split; [exact (json_number_field cfg _ _ H3)|].
  split; [exact (json_number_field cfg _ _ H4)|].
  exact (json_number_field cfg _ _ H5).
Qed.

(** X21. Whatever happens to the page, its config keeps the shape it
    starts with: exactly the five fields of the form, dataset and
    architecture strings, lr, epochs and batch_size numbers (what the
    host's parsers returned, NaN included).  The body a start request
    posts has the same five fields, with [null] in place of a number
    that is not finite: when the epochs box holds a text the host's
    [parseInt] makes NaN of, the request carries epochs [null]. *)
Theorem page_config_keeps_shape (acts : list Client.action) (time : string)
    (v : string) :
  let w := Client.run parseFloat parseInt acts App.fresh in
  let edited :=
    Client.run parseFloat parseInt [Client.Change "epochs" v] App.fresh in
  Client.config_shape (App.appConfig (App.st w))
  ∧ Client.posted_shape (fst (App.handleStart_send time w))
  ∧ (parseInt v 10 = JS.NaN →
     App.appConfig (App.st edited) !! "epochs" = Some (JS.VNum JS.NaN)
     ∧ fst (App.handleStart_send time edited) !! "epochs" = Some JS.VNull).
Proof.
  cbv zeta.
  assert (Hrun : ∀ acts w,
    Client.config_shape (App.appConfig (App.st w)) →
    Client.config_shape
      (App.appConfig (App.st (Client.run parseFloat parseInt acts w)))).
  { clear. induction acts as [|a acts IH]; intros w Hw; [exact Hw|].
    apply (IH (Client.act parseFloat parseInt a w)), act_config_shape, Hw. }
  assert (H0 : Client.config_shape (App.appConfig (App.st App.fresh))).
  { unfold Client.config_shape. simpl.
    split; [rewrite !dom_insert_L, dom_empty_L; set_solver|].
    repeat split; eexists; reflexivity. }
  split; [apply Hrun, H0|].
  split; [apply stringify_shape, Hrun, H0|].
  intros Hv.
  assert (He : App.appConfig
                 (App.st (Client.run parseFloat parseInt
                            [Client.Change "epochs" v] App.fresh))
               !! "epochs" = Some (JS.VNum JS.NaN)).
  { unfold Client.run. simpl. unfold ControlPanel.handleChange. simpl.
    rewrite Hv. apply lookup_insert_eq. }
  split; [exact He|].
  unfold App.handleStart_send. cbn [fst]. unfold JS.JSON_stringify.
  rewrite lookup_omap, He. reflexivity.
Qed.
End ConfigFacts.

(** X22. A cleanup that runs before the handshake has completed does not
    close the socket: [disconnectSocket] finds it not connected and
    calls nothing, so the connection attempt goes on and, once the
    handshake completes, the socket is open with none of the four
    listeners on it. *)
Theorem unmount_while_connecting_keeps_socket (time : string) (w : App.world) :
  Socket.state (App.sock w) = Socket.Closed →
  let cleaned := App.unmount (App.mount time w) in
  let later := App.on_sock Socket.handshake cleaned in
  Socket.calls (App.sock cleaned)
    = Socket.calls (App.sock w) ++ [Socket.Connect]
  ∧ Socket.state (App.sock cleaned) = Socket.Opening
  ∧ Socket.connected (App.sock later) = true
  ∧ Socket.listeners (App.sock later)
    = List.filter (λ l, negb (App.subscribed (fst l)))
        (Socket.listeners (App.sock w)).
Proof.
  intros Hc. cbv zeta.
  assert (Hl : Socket.listeners
                 (App.sock (App.on_sock Socket.handshake
                              (App.unmount (App.mount time w))))
               = List.filter (λ l, negb (App.subscribed (fst l)))
                   (Socket.listeners (App.sock w))).
  { change (Socket.listeners
              (App.sock (App.on_sock Socket.handshake
                           (App.unmount (App.mount time w)))))
      with (Socket.listeners (App.sock (App.unmount (App.mount time w)))).
    rewrite unmount_listeners, mount_listeners, List.filter_app. simpl.
    apply app_nil_r. }
  split; [|split; [|split; [|exact Hl]]];
    destruct w as [s [c ls cs] al er]; simpl in Hc; subst c; reflexivity.
Qed.

Lemma unmount_while_connecting_keeps_socket_witness :
  Socket.state (App.sock App.fresh) = Socket.Closed
  ∧ Socket.connected
      (App.sock (App.on_sock Socket.handshake
                   (App.unmount (App.mount "12:00:00" App.fresh))))
    = true.
Proof.
  split; [reflexivity|].
  exact (proj1 (proj2 (proj2
           (unmount_while_connecting_keeps_socket "12:00:00" App.fresh
              eq_refl)))).
Defined.
